(** * API usage governance tasks of the organisations app

    A shallow embedding of [api/organisations/tasks.py]: the usage-period
    resolver, the threshold matcher and the notification gate of
    [_handle_api_usage_notifications], the orchestration loop
    [handle_api_usage_notifications], the overage biller
    [charge_for_api_call_count_overages] and the two access-restriction
    passes.

    Conventions of the embedding.
    - Python [int] is [Z].  [/] on two integers is the true division of
      CPython: the exact quotient rounded once to binary64 (ties to even),
      [ZeroDivisionError] for a zero divisor and [OverflowError] when the
      rounded quotient is out of range.  A binary64 value is kept as a
      mantissa and a binary exponent; [int(x)], [math.ceil(x)] and
      [x < 2.0] are computed from them exactly.
    - A database table is the list of its rows in insertion order;
      [objects.create] appends.
    - Collaborators (usage query, feature flags, mailer, billing API) are
      fields of an environment record and may raise.
    - [timezone.now()] readings are explicit arguments. *)

From Stdlib Require Import ZArith List Bool Lia String DecimalString Sorted.
Import ListNotations.
Local Open Scope Z_scope.

(** ** Python [datetime] and [timedelta] *)

Module PyDatetime.

(** An aware UTC [datetime]; [usec] is the time of day in microseconds
    (hour, minute, second and microsecond folded into one field). *)
Record datetime : Type := mkdatetime
  { year : Z; month : Z; day : Z; usec : Z }.

Definition usec_per_second : Z := 1000000.
Definition usec_per_day : Z := 86400 * usec_per_second.

(** A [timedelta] is its total number of microseconds. *)
Definition timedelta : Type := Z.

Definition timedelta_days (n : Z) : timedelta := n * usec_per_day.
Definition timedelta_hours (n : Z) : timedelta := n * 3600 * usec_per_second.

Definition is_leap (y : Z) : bool :=
  (y mod 4 =? 0) && (negb (y mod 100 =? 0) || (y mod 400 =? 0)).

Definition days_in_month (y m : Z) : Z :=
  if m =? 2 then (if is_leap y then 29 else 28)
  else if (m =? 4) || (m =? 6) || (m =? 9) || (m =? 11) then 30
  else 31.

Definition days_before_month (y m : Z) : Z :=
  (if m =? 1 then 0 else if m =? 2 then 31 else if m =? 3 then 59
   else if m =? 4 then 90 else if m =? 5 then 120 else if m =? 6 then 151
   else if m =? 7 then 181 else if m =? 8 then 212 else if m =? 9 then 243
   else if m =? 10 then 273 else if m =? 11 then 304 else 334)
  + (if (2 <? m) && is_leap y then 1 else 0).

Definition days_before_year (y : Z) : Z :=
  let y' := y - 1 in y' * 365 + y' / 4 - y' / 100 + y' / 400.

Definition toordinal (dt : datetime) : Z :=
  days_before_year (year dt) + days_before_month (year dt) (month dt)
  + day dt.

Definition valid (dt : datetime) : Prop :=
  1 <= month dt <= 12 /\
  1 <= day dt <= days_in_month (year dt) (month dt) /\
  0 <= usec dt < usec_per_day.

Definition validb (dt : datetime) : bool :=
  (1 <=? month dt) && (month dt <=? 12) && (1 <=? day dt)
  && (day dt <=? days_in_month (year dt) (month dt))
  && (0 <=? usec dt) && (usec dt <? usec_per_day).

(** Comparison is field by field, most significant first. *)
Definition dt_compare (a b : datetime) : comparison :=
  match year a ?= year b with
  | Eq => match month a ?= month b with
          | Eq => match day a ?= day b with
                  | Eq => usec a ?= usec b
                  | c => c
                  end
          | c => c
          end
  | c => c
  end.

Definition dt_ltb (a b : datetime) : bool :=
  match dt_compare a b with Lt => true | _ => false end.
Definition dt_leb (a b : datetime) : bool :=
  match dt_compare a b with Gt => false | _ => true end.
Definition dt_gtb (a b : datetime) : bool := dt_ltb b a.
Definition dt_geb (a b : datetime) : bool := dt_leb b a.

(** [a - b] *)
Definition dt_sub (a b : datetime) : timedelta :=
  (toordinal a - toordinal b) * usec_per_day + (usec a - usec b).

Definition next_day (dt : datetime) : datetime :=
  if day dt <? days_in_month (year dt) (month dt)
  then mkdatetime (year dt) (month dt) (day dt + 1) (usec dt)
  else if month dt <? 12
  then mkdatetime (year dt) (month dt + 1) 1 (usec dt)
  else mkdatetime (year dt + 1) 1 1 (usec dt).

Definition prev_day (dt : datetime) : datetime :=
  if 1 <? day dt
  then mkdatetime (year dt) (month dt) (day dt - 1) (usec dt)
  else if 1 <? month dt
  then mkdatetime (year dt) (month dt - 1)
                  (days_in_month (year dt) (month dt - 1)) (usec dt)
  else mkdatetime (year dt - 1) 12 31 (usec dt).

Definition shift_days (n : Z) (dt : datetime) : datetime :=
  match n with
  | Z0 => dt
  | Zpos p => Pos.iter next_day dt p
  | Zneg p => Pos.iter prev_day dt p
  end.

(** [dt + delta]: the time of day is carried into whole days. *)
Definition dt_add (dt : datetime) (delta : timedelta) : datetime :=
  let t := usec dt + delta in
  let d := shift_days (t / usec_per_day) dt in
  mkdatetime (year d) (month d) (day d) (t mod usec_per_day).

Definition dt_minus (dt : datetime) (delta : timedelta) : datetime :=
  dt_add dt (- delta).

End PyDatetime.

(** ** [dateutil.relativedelta] *)

Module Dateutil.
Import PyDatetime.

Record relativedelta : Type := mkrelativedelta
  { years : Z; months : Z; days : Z; hours : Z; minutes : Z;
    seconds : Z; microseconds : Z }.

(** [_sign]: [copysign(1, x)] *)
Definition sign (x : Z) : Z := if x <? 0 then -1 else 1.

(** One carry step of [_fix]: when [abs x > limit - 1], [x] keeps the
    remainder and the quotient goes to the next unit. *)
Definition carry (x limit : Z) : Z * Z :=
  if limit - 1 <? Z.abs x
  then let s := sign x in (((x * s) / limit) * s, ((x * s) mod limit) * s)
  else (0, x).

Definition fix_ (rd : relativedelta) : relativedelta :=
  let '(c, us) := carry (microseconds rd) 1000000 in
  let s0 := seconds rd + c in
  let '(c, s) := carry s0 60 in
  let m0 := minutes rd + c in
  let '(c, mi) := carry m0 60 in
  let h0 := hours rd + c in
  let '(c, h) := carry h0 24 in
  let d := days rd + c in
  let '(c, mo) := carry (months rd) 12 in
  let y := years rd + c in
  mkrelativedelta y mo d h mi s us.

(** [relativedelta(months=n)] *)
Definition relativedelta_months (n : Z) : relativedelta :=
  fix_ (mkrelativedelta 0 n 0 0 0 0 0).

(** [_set_months] applied to a delta that has no other field set yet. *)
Definition set_months (n : Z) : relativedelta :=
  let '(y, m) := carry n 12 in mkrelativedelta y m 0 0 0 0 0.

Definition rd_timedelta (rd : relativedelta) : timedelta :=
  (((days rd * 24 + hours rd) * 60 + minutes rd) * 60 + seconds rd)
  * usec_per_second + microseconds rd.

(** [rd + dt] ([__radd__]): the year and month move, the day is clamped
    to the length of the target month, then the day and time fields are
    added as a [timedelta]. *)
Definition rd_add (rd : relativedelta) (dt : datetime) : datetime :=
  let year0 := year dt + years rd in
  let '(y, m) :=
    if months rd =? 0 then (year0, month dt)
    else let m := month dt + months rd in
         if 12 <? m then (year0 + 1, m - 12)
         else if m <? 1 then (year0 - 1, m + 12)
         else (year0, m) in
  let d := Z.min (days_in_month y m) (day dt) in
  dt_add (mkdatetime y m d (usec dt)) (rd_timedelta rd).

(** The overshoot loop of [relativedelta(dt1, dt2)]:
    [while compare(dt1, dtm): months += increment]. *)
Fixpoint adjust_months (fuel : nat) (compare : datetime -> datetime -> bool)
    (increment : Z) (dt1 dt2 : datetime) (n : Z) : option Z :=
  if compare dt1 (rd_add (set_months n) dt2)
  then match fuel with
       | O => None
       | S fuel' => adjust_months fuel' compare increment dt1 dt2
                      (n + increment)
       end
  else Some n.

Definition adjust_fuel : nat := 16%nat.

(** [relativedelta(dt1, dt2)]; [None] only if the overshoot loop has not
    settled within [adjust_fuel] rounds. *)
Definition relativedelta_between (dt1 dt2 : datetime)
  : option relativedelta :=
  let n0 := (year dt1 - year dt2) * 12 + (month dt1 - month dt2) in
  let '(compare, increment) :=
    if dt_ltb dt1 dt2 then (dt_gtb, 1) else (dt_ltb, -1) in
  match adjust_months adjust_fuel compare increment dt1 dt2 n0 with
  | None => None
  | Some n =>
      let rd := set_months n in
      let dtm := rd_add rd dt2 in
      let delta := dt_sub dt1 dtm in
      Some (fix_ (mkrelativedelta (years rd) (months rd) 0 0 0
                    (delta / usec_per_second) (delta mod usec_per_second)))
  end.

End Dateutil.

(** ** Python [float]: the true division of two integers *)

Module PyFloat.

(** A binary64 value [mantissa * 2 ^ exponent]. *)
Record float : Type := mkfloat { mantissa : Z; exponent : Z }.

(** What [a / b] on two Python integers gives. *)
Inductive quotient : Type :=
| Quotient (x : float)
| DivisionByZero
| Overflow.

(** [n / d] rounded to the nearest integer, ties to even. *)
Definition round_half_even (n d : Z) : Z :=
  let q := n / d in
  let r := n mod d in
  if 2 * r <? d then q
  else if d <? 2 * r then q + 1
  else if Z.even q then q else q + 1.

(** The exponent [e] with [2^52 <= a / (b * 2^e) < 2^53], for positive
    [a] and [b]. *)
Definition quotient_exponent (a b : Z) : Z :=
  let s := Z.log2 b + 1 in
  Z.log2 (a * 2 ^ s / b) - s - 52.

Definition scaled_numerator (a e : Z) : Z := a * 2 ^ Z.max 0 (- e).
Definition scaled_denominator (b e : Z) : Z := b * 2 ^ Z.max 0 e.

(** True division of two integers: the exact quotient rounded once to
    binary64 (53 bits, ties to even, subnormals down to [2^-1074]). *)
Definition truediv (a b : Z) : quotient :=
  if b =? 0 then DivisionByZero
  else if a =? 0 then Quotient (mkfloat 0 0)
  else
    let sign := if xorb (a <? 0) (b <? 0) then -1 else 1 in
    let e := Z.max (quotient_exponent (Z.abs a) (Z.abs b)) (-1074) in
    let m := round_half_even (scaled_numerator (Z.abs a) e)
                             (scaled_denominator (Z.abs b) e) in
    if (0 <=? e) && (2 ^ 1024 <=? m * 2 ^ e) then Overflow
    else Quotient (mkfloat (sign * m) e).

(** [int(x)] *)
Definition truncate (x : float) : Z :=
  if 0 <=? exponent x then mantissa x * 2 ^ exponent x
  else Z.quot (mantissa x) (2 ^ (- exponent x)).

(** [math.ceil(x)] *)
Definition ceiling (x : float) : Z :=
  if 0 <=? exponent x then mantissa x * 2 ^ exponent x
  else - ((- mantissa x) / 2 ^ (- exponent x)).

(** [x < n] for an integer [n] that binary64 holds exactly. *)
Definition ltb_Z (x : float) (n : Z) : bool :=
  if 0 <=? exponent x then mantissa x * 2 ^ exponent x <? n
  else mantissa x <? n * 2 ^ (- exponent x).

End PyFloat.

(** ** The data model and the collaborators of [tasks.py] *)

Module Tasks.
Import PyDatetime Dateutil PyFloat.

(** *** Exceptions *)

(** [RuntimeError] is the one class the orchestration loop catches;
    [ZeroDivisionError] and [OverflowError] are the two arithmetic errors
    a true division raises; [OtherError] stands for every other class that
    is neither [RuntimeError] nor one of its subclasses (a connection error
    of the usage query, a template error of the mailer, ...). *)
Inductive exn : Type :=
| RuntimeError
| ZeroDivisionError
| OverflowError
| OtherError (name : string).

Definition is_RuntimeError (e : exn) : bool :=
  match e with RuntimeError => true | _ => false end.

Inductive result (A : Type) : Type :=
| Ok (a : A)
| Raise (e : exn).
Arguments Ok {A} a.
Arguments Raise {A} e.

(** *** Models *)

(** [is_free_plan] is a property of the model class, which lives in
    [organisations/models.py]; it is kept as a field of its own. *)
Record Subscription : Type := mkSubscription
  { plan : string;
    is_free_plan : bool;
    max_api_calls : Z;
    subscription_id : string }.

Record OrganisationSubscriptionInformationCache : Type := mkCache
  { current_billing_term_starts_at : datetime;
    current_billing_term_ends_at : datetime;
    allowed_30d_api_calls : Z }.

(** [api_limit_access_block] tells whether the one-to-one
    [APILimitAccessBlock] row of the organisation exists. *)
Record Organisation : Type := mkOrganisation
  { id : Z;
    subscription : Subscription;
    subscription_information_cache :
      option OrganisationSubscriptionInformationCache;
    stop_serving_flags : bool;
    block_access_to_admin : bool;
    api_limit_access_block : bool }.

Definition has_subscription_information_cache (o : Organisation) : bool :=
  match subscription_information_cache o with
  | Some _ => true
  | None => false
  end.

Record OrganisationAPIUsageNotification : Type := mkNotification
  { organisation_id : Z;
    percent_usage : Z;
    notified_at : datetime }.

Record OrganisationAPIBilling : Type := mkBilling
  { billed_organisation_id : Z;
    api_overage : Z;
    immediate_invoice : bool;
    billed_at : datetime }.

(** What [send_mail] is called with: the threshold of the subject line,
    the two templates, and whether the recipients were narrowed to the
    organisation's admins. *)
Record mail : Type := mkMail
  { mail_organisation_id : Z;
    mail_threshold : Z;
    message : string;
    html_message : string;
    admins_only : bool }.

Inductive billing_call : Type :=
| ScaleUpCall (subscription : string) (count : Z)
| StartUpCall (subscription : string) (count : Z).

Inductive log_record : Type :=
| LogMissingCache (organisation : Z)
| LogProcessingError (organisation : Z)
| LogBelowGrace
| LogBelowLimit
| LogUnableToBill (plan : string).

(** *** The world the tasks act on *)

Record world : Type := mkWorld
  { notifications : list OrganisationAPIUsageNotification;
    billings : list OrganisationAPIBilling;
    outbox : list mail;
    billing_calls : list billing_call;
    log : list log_record }.

(** Names imported from modules that are not part of this file. *)
Record constants : Type := mkConstants
  { API_USAGE_ALERT_THRESHOLDS : list Z;
    API_USAGE_GRACE_PERIOD : Z;
    FREE_PLAN_ID : string;
    SCALE_UP : string;
    SCALE_UP_V2 : string;
    STARTUP : string;
    STARTUP_V2 : string }.

(** External collaborators; each call may raise. *)
Record collaborators : Type := mkCollaborators
  { get_current_api_usage : Z -> string -> result Z;
    is_feature_enabled : Organisation -> string -> result bool;
    send_mail : mail -> result unit;
    add_100k_api_calls_scale_up : string -> Z -> result unit;
    add_100k_api_calls_start_up : string -> Z -> result unit }.

(** *** A state and exception monad over [world] *)

Definition M (A : Type) : Type := world -> result A * world.

Definition ret {A} (a : A) : M A := fun w => (Ok a, w).
Definition raise {A} (e : exn) : M A := fun w => (Raise e, w).
Definition lift {A} (r : result A) : M A := fun w => (r, w).

Definition bind {A B} (c : M A) (k : A -> M B) : M B :=
  fun w =>
    match c w with
    | (Ok a, w') => k a w'
    | (Raise e, w') => (Raise e, w')
    end.

Notation "x <- c ;; k" := (bind c (fun x => k))
  (at level 61, c at next level, right associativity).
Notation "c ;;; k" := (bind c (fun _ => k))
  (at level 61, right associativity).

(** [try: c except RuntimeError: handler] *)
Definition try_except_RuntimeError (c handler : M unit) : M unit :=
  fun w =>
    match c w with
    | (Raise e, w') =>
        if is_RuntimeError e then handler w' else (Raise e, w')
    | r => r
    end.

Definition logger (r : log_record) : M unit :=
  fun w => (Ok tt, mkWorld (notifications w) (billings w) (outbox w)
                           (billing_calls w) (log w ++ [r])).

Definition create_notification (n : OrganisationAPIUsageNotification)
  : M unit :=
  fun w => (Ok tt, mkWorld (notifications w ++ [n]) (billings w)
                           (outbox w) (billing_calls w) (log w)).

Definition create_billing (b : OrganisationAPIBilling) : M unit :=
  fun w => (Ok tt, mkWorld (notifications w) (billings w ++ [b])
                           (outbox w) (billing_calls w) (log w)).

Definition record_mail (m : mail) : M unit :=
  fun w => (Ok tt, mkWorld (notifications w) (billings w)
                           (outbox w ++ [m]) (billing_calls w) (log w)).

Definition record_billing_call (c : billing_call) : M unit :=
  fun w => (Ok tt, mkWorld (notifications w) (billings w) (outbox w)
                           (billing_calls w ++ [c]) (log w)).

Definition get_notifications : M (list OrganisationAPIUsageNotification) :=
  fun w => (Ok (notifications w), w).

Definition get_billings : M (list OrganisationAPIBilling) :=
  fun w => (Ok (billings w), w).

Definition mem (x : Z) (l : list Z) : bool := existsb (Z.eqb x) l.

(** [a / b] on two integers, with the exceptions it raises. *)
Definition div (a b : Z) : result float :=
  match truediv a b with
  | Quotient x => Ok x
  | DivisionByZero => Raise ZeroDivisionError
  | Overflow => Raise OverflowError
  end.

Section WithEnvironment.
Variable K : constants.
Variable E : collaborators.

(** *** [send_api_usage_notification] *)

Definition send_api_usage_notification (sent_at : datetime)
    (organisation : Organisation) (matched_threshold : Z) : M unit :=
  let m :=
    if matched_threshold <? 100
    then mkMail (id organisation) matched_threshold
           "organisations/api_usage_notification.txt"
           "organisations/api_usage_notification.html" true
    else mkMail (id organisation) matched_threshold
           "organisations/api_usage_notification_limit.txt"
           "organisations/api_usage_notification_limit.html" false in
  lift (send_mail E m) ;;;
  record_mail m ;;;
  create_notification
    (mkNotification (id organisation) matched_threshold sent_at).

(** *** The usage-period resolver (lines 158-179) *)

Inductive period_resolution : Type :=
| Period (period_starts_at : datetime) (days : Z) (allowed_api_calls : Z)
| MissingCache
| Unsettled.

Definition usage_period (now : datetime) (organisation : Organisation)
  : period_resolution :=
  if is_free_plan (subscription organisation)
  then
    let days := 30 in
    Period (dt_minus now (timedelta_days days)) days
           (max_api_calls (subscription organisation))
  else
    match subscription_information_cache organisation with
    | None => MissingCache
    | Some subscription_cache =>
        let billing_starts_at :=
          current_billing_term_starts_at subscription_cache in
        match relativedelta_between now billing_starts_at with
        | None => Unsettled
        | Some rd =>
            let month_delta := months rd in
            let period_starts_at :=
              rd_add (relativedelta_months month_delta)
                     billing_starts_at in
            match relativedelta_between now period_starts_at with
            | None => Unsettled
            | Some rd' =>
                Period period_starts_at (Dateutil.days rd')
                       (allowed_30d_api_calls subscription_cache)
            end
        end
    end.

(** *** The threshold matcher (lines 183-190) *)

(** [int(100 * api_usage / allowed_api_calls)] *)
Definition api_usage_percent (api_usage allowed_api_calls : Z)
  : result Z :=
  match div (100 * api_usage) allowed_api_calls with
  | Ok x => Ok (truncate x)
  | Raise e => Raise e
  end.

(** The [for] loop with its [break]; [matched] is the value of
    [matched_threshold] so far. *)
Fixpoint match_threshold (thresholds : list Z) (percent : Z)
    (matched : option Z) : option Z :=
  match thresholds with
  | [] => matched
  | threshold :: rest =>
      if threshold >? percent then matched
      else match_threshold rest percent (Some threshold)
  end.

Definition matched_threshold (thresholds : list Z) (percent : Z)
  : option Z :=
  match_threshold thresholds percent None.

(** *** The notification gate (lines 196-203) *)

Definition already_notified
    (rows : list OrganisationAPIUsageNotification)
    (period_starts_at : datetime) (matched : Z) : bool :=
  existsb (fun n => dt_gtb (notified_at n) period_starts_at
                    && (matched <=? percent_usage n)) rows.

(** [f"-{days}d"] *)
Definition date_range (days : Z) : string :=
  ("-" ++ DecimalString.NilZero.string_of_int (Z.to_int days) ++ "d")%string.

(** [now] is the reading of the clock on entry, [sent_at] the one
    stored with the notification row. *)
Definition _handle_api_usage_notifications (now sent_at : datetime)
    (organisation : Organisation) : M unit :=
  match usage_period now organisation with
  | MissingCache => logger (LogMissingCache (id organisation))
  | Unsettled => raise (OtherError "relativedelta")
  | Period period_starts_at days allowed_api_calls =>
      api_usage <- lift (get_current_api_usage E (id organisation)
                                               (date_range days)) ;;
      percent <- lift (api_usage_percent api_usage allowed_api_calls) ;;
      match matched_threshold (API_USAGE_ALERT_THRESHOLDS K) percent with
      | None => ret tt
      | Some matched =>
          rows <- get_notifications ;;
          if already_notified rows period_starts_at matched
          then ret tt
          else send_api_usage_notification sent_at organisation matched
      end
  end.

(** *** The orchestration loop (lines 206-228) *)

(** [clock o] gives the two clock readings taken while organisation
    [o] is processed. *)
Fixpoint handle_api_usage_notifications
    (clock : Z -> datetime * datetime)
    (organisations : list Organisation) : M unit :=
  match organisations with
  | [] => ret tt
  | organisation :: rest =>
      feature_enabled <-
        lift (is_feature_enabled E organisation "api_usage_alerting") ;;
      (if negb feature_enabled then ret tt
       else
         try_except_RuntimeError
           (_handle_api_usage_notifications
              (fst (clock (id organisation)))
              (snd (clock (id organisation))) organisation)
           (logger (LogProcessingError (id organisation)))) ;;;
      handle_api_usage_notifications clock rest
  end.

(** *** The overage biller (lines 231-332) *)

(** Python's [sum] of a list of integers. *)
Definition sum (l : list Z) : Z := fold_left Z.add l 0.

(** [OrganisationAPIBilling.objects.filter(billed_at__gte=starts_at)] *)
Definition api_billings (rows : list OrganisationAPIBilling)
    (starts_at : datetime) : list OrganisationAPIBilling :=
  filter (fun ap => dt_geb (billed_at ap) starts_at) rows.

Definition previous_api_overage (rows : list OrganisationAPIBilling)
    (starts_at : datetime) : Z :=
  sum (map api_overage (api_billings rows starts_at)).

(** [math.ceil(a / 100_000)] *)
Definition ceil_100k (a : Z) : result Z :=
  match div a 100000 with
  | Ok x => Ok (ceiling x)
  | Raise e => Raise e
  end.

(** [api_usage / allowed < 2.0] *)
Definition below_grace (api_usage allowed : Z) : result bool :=
  match div api_usage allowed with
  | Ok x => Ok (ltb_Z x 2)
  | Raise e => Raise e
  end.

(** The body of the [for] loop; [continue] ends the body. *)
Definition charge_organisation (now : datetime)
    (organisation : Organisation) : M unit :=
  enabled <- lift (is_feature_enabled E organisation
                                      "api_usage_overage_charges") ;;
  if negb enabled then ret tt
  else
    match subscription_information_cache organisation with
    | None => raise (OtherError "RelatedObjectDoesNotExist")
    | Some subscription_cache =>
        api_usage <- lift (get_current_api_usage E (id organisation)
                                                 "30d") ;;
        grace <- lift (below_grace api_usage
                         (allowed_30d_api_calls subscription_cache)) ;;
        if grace then logger LogBelowGrace
        else
          rows <- get_billings ;;
          let previous :=
            previous_api_overage rows
              (current_billing_term_starts_at subscription_cache) in
          let api_limit :=
            allowed_30d_api_calls subscription_cache + previous in
          let overage := api_usage - api_limit in
          if overage <=? 0 then logger LogBelowLimit
          else
            let p := plan (subscription organisation) in
            let sid := subscription_id (subscription organisation) in
            let save :=
              count <- lift (ceil_100k overage) ;;
              create_billing
                (mkBilling (id organisation) (100000 * count) false now) in
            if (p =? SCALE_UP K)%string || (p =? SCALE_UP_V2 K)%string
            then
              count <- lift (ceil_100k overage) ;;
              lift (add_100k_api_calls_scale_up E sid count) ;;;
              record_billing_call (ScaleUpCall sid count) ;;;
              save
            else if (p =? STARTUP K)%string || (p =? STARTUP_V2 K)%string
            then
              count <- lift (ceil_100k overage) ;;
              lift (add_100k_api_calls_start_up E sid count) ;;;
              record_billing_call (StartUpCall sid count) ;;;
              save
            else logger (LogUnableToBill p)
    end.

Definition overage_organisation_ids (now : datetime)
    (rows : list OrganisationAPIUsageNotification) : list Z :=
  let api_usage_notified_at := dt_minus now (timedelta_days 30) in
  nodup Z.eq_dec
    (map organisation_id
       (filter (fun n => dt_geb (notified_at n) api_usage_notified_at
                         && (100 <=? percent_usage n)) rows)).

(** The queryset the biller iterates over. *)
Definition overage_eligible (now : datetime) (organisation_ids : list Z)
    (organisation : Organisation) : bool :=
  let month_window_start := timedelta_days 25 in
  let month_window_end := timedelta_days 35 in
  let closing_billing_term := dt_add now (timedelta_hours 1) in
  mem (id organisation) organisation_ids
  && match subscription_information_cache organisation with
     | None => false
     | Some c =>
         dt_leb (current_billing_term_ends_at c) closing_billing_term
         && dt_geb (current_billing_term_ends_at c) now
         && dt_leb (current_billing_term_starts_at c)
              (dt_minus (current_billing_term_ends_at c)
                        month_window_start)
         && dt_geb (current_billing_term_starts_at c)
              (dt_minus (current_billing_term_ends_at c)
                        month_window_end)
     end
  && negb (plan (subscription organisation) =? FREE_PLAN_ID K)%string.

Fixpoint charge_each (now : datetime)
    (organisations : list Organisation) : M unit :=
  match organisations with
  | [] => ret tt
  | organisation :: rest =>
      charge_organisation now organisation ;;; charge_each now rest
  end.

Definition charge_for_api_call_count_overages (now : datetime)
    (organisations : list Organisation) : M unit :=
  rows <- get_notifications ;;
  let organisation_ids := overage_organisation_ids now rows in
  charge_each now
    (filter (overage_eligible now organisation_ids) organisations).

(** *** The restriction passes (lines 335-438)

    Both passes read the notification log and rewrite the
    organisation table, which is passed and returned explicitly. *)

Definition breach_notification_ids
    (keep : OrganisationAPIUsageNotification -> bool)
    (rows : list OrganisationAPIUsageNotification) : list Z :=
  nodup Z.eq_dec (map organisation_id (filter keep rows)).

(** [now_grace] and [now_month] are the two clock readings of the
    first two lines of the function. *)
Definition restrict_organisation_ids (now_grace now_month : datetime)
    (rows : list OrganisationAPIUsageNotification) : list Z :=
  let grace_period :=
    dt_minus now_grace (timedelta_days (API_USAGE_GRACE_PERIOD K)) in
  let month_start := dt_minus now_month (timedelta_days 30) in
  breach_notification_ids
    (fun n => dt_gtb (notified_at n) month_start
              && dt_ltb (notified_at n) grace_period
              && (100 <=? percent_usage n)) rows.

Definition restrict_queryset (organisation_ids : list Z)
    (organisations : list Organisation) : list Organisation :=
  filter (fun o =>
            mem (id o) organisation_ids
            && (plan (subscription o) =? FREE_PLAN_ID K)%string
            && negb (api_limit_access_block o)
            && negb (stop_serving_flags o && block_access_to_admin o))
         organisations.

(** The [for] loop that builds [update_organisations]; each entry
    carries the new flags and the access block created for it. *)
Fixpoint update_organisations (candidates : list Organisation)
  : result (list Organisation) :=
  match candidates with
  | [] => Ok []
  | organisation :: rest =>
      match is_feature_enabled E organisation
              "api_limiting_stop_serving_flags" with
      | Raise e => Raise e
      | Ok stop_serving =>
          match is_feature_enabled E organisation
                  "api_limiting_block_access_to_admin" with
          | Raise e => Raise e
          | Ok block_access =>
              match update_organisations rest with
              | Raise e => Raise e
              | Ok updated =>
                  if negb stop_serving && negb block_access
                  then Ok updated
                  else Ok (mkOrganisation (id organisation)
                             (subscription organisation)
                             (subscription_information_cache organisation)
                             stop_serving block_access true :: updated)
              end
          end
      end
  end.

(** The organisations the apply pass restricts. *)
Definition restrict_selection (now_grace now_month : datetime)
    (rows : list OrganisationAPIUsageNotification)
    (organisations : list Organisation) : result (list Organisation) :=
  update_organisations
    (restrict_queryset
       (restrict_organisation_ids now_grace now_month rows)
       organisations).

(** [bulk_create] of the blocks and [bulk_update] of the flags. *)
Definition bulk_update (updated organisations : list Organisation)
  : list Organisation :=
  map (fun o =>
         match find (fun u => id u =? id o) updated with
         | Some u => u
         | None => o
         end) organisations.

Definition restrict_use_due_to_api_limit_grace_period_over
    (now_grace now_month : datetime)
    (rows : list OrganisationAPIUsageNotification)
    (organisations : list Organisation) : result (list Organisation) :=
  match restrict_selection now_grace now_month rows organisations with
  | Raise e => Raise e
  | Ok updated => Ok (bulk_update updated organisations)
  end.

Definition still_restricted_organisation_ids (now : datetime)
    (rows : list OrganisationAPIUsageNotification) : list Z :=
  let month_start := dt_minus now (timedelta_days 30) in
  breach_notification_ids
    (fun n => dt_gtb (notified_at n) month_start
              && (100 <=? percent_usage n)) rows.

Definition blocked_organisation_ids (organisations : list Organisation)
  : list Z :=
  nodup Z.eq_dec (map id (filter api_limit_access_block organisations)).

(** [matching_organisations]: the blocked set minus the still
    restricted set. *)
Definition matching_organisations (now : datetime)
    (rows : list OrganisationAPIUsageNotification)
    (organisations : list Organisation) : list Organisation :=
  let still := still_restricted_organisation_ids now rows in
  let blocked := blocked_organisation_ids organisations in
  filter (fun o => mem (id o) blocked && negb (mem (id o) still))
         organisations.

Definition unrestrict_after_api_limit_grace_period_is_stale
    (now : datetime) (rows : list OrganisationAPIUsageNotification)
    (organisations : list Organisation) : list Organisation :=
  let lifted := map id (matching_organisations now rows organisations) in
  map (fun o =>
         if mem (id o) lifted
         then mkOrganisation (id o) (subscription o)
                (subscription_information_cache o) false false false
         else o) organisations.

End WithEnvironment.
End Tasks.

(** * Vocabulary of the statements *)

Import PyDatetime Dateutil PyFloat Tasks.

(** Calendar order on [datetime], as a proposition. *)
Definition lex_lt (a b : datetime) : Prop :=
  year a < year b \/
  (year a = year b /\
   (month a < month b \/
    (month a = month b /\
     (day a < day b \/ (day a = day b /\ usec a < usec b))))).

(** [dt] moved by [n] calendar months, the day clamped to the length of
    the month it lands in. *)
Definition month_shift (dt : datetime) (n : Z) : datetime :=
  let k := 12 * year dt + (month dt - 1) + n in
  mkdatetime (k / 12) (k mod 12 + 1)
             (Z.min (days_in_month (k / 12) (k mod 12 + 1)) (day dt))
             (usec dt).

Ltac eval_month_tests :=
  cbv beta iota delta [Z.eqb Z.ltb Z.compare Pos.eqb Pos.compare
                       Pos.compare_cont andb orb negb CompOpp].

(** [r] is the greatest threshold at or below [percent], or [None] when
    [percent] is below every threshold. *)
Definition max_threshold_at_or_below (thresholds : list Z) (percent : Z)
    (r : option Z) : Prop :=
  match r with
  | Some t =>
      In t thresholds /\ t <= percent /\
      forall t', In t' thresholds -> t' <= percent -> t' <= t
  | None => forall t', In t' thresholds -> percent < t'
  end.

(** The mail [send_api_usage_notification] hands to the mailer. *)
Definition notification_mail (organisation : Organisation) (t : Z) : mail :=
  if t <? 100
  then mkMail (id organisation) t
         "organisations/api_usage_notification.txt"
         "organisations/api_usage_notification.html" true
  else mkMail (id organisation) t
         "organisations/api_usage_notification_limit.txt"
         "organisations/api_usage_notification_limit.html" false.

(** The world after a notification for threshold [t] went out. *)
Definition notified_world (sent_at : datetime)
    (organisation : Organisation) (t : Z) (w : world) : world :=
  mkWorld (notifications w
           ++ [mkNotification (id organisation) t sent_at])
          (billings w)
          (outbox w ++ [notification_mail organisation t])
          (billing_calls w) (log w).

(** The world after a charge of [count] units of 100000 calls for an
    organisation. *)
Definition billed_world (now : datetime) (organisation : Organisation)
    (call : billing_call) (count : Z) (w : world) : world :=
  mkWorld (notifications w)
          (billings w
           ++ [mkBilling (id organisation) (100000 * count) false now])
          (outbox w) (billing_calls w ++ [call]) (log w).

(** The overage the biller computes in world [w]. *)
Definition computed_overage (c : OrganisationSubscriptionInformationCache)
    (usage : Z) (w : world) : Z :=
  usage - (allowed_30d_api_calls c
           + previous_api_overage (billings w)
               (current_billing_term_starts_at c)).

(** Cumulative overage recorded for one organisation since [starts_at]. *)
Definition organisation_overage (rows : list OrganisationAPIBilling)
    (organisation : Organisation) (starts_at : datetime) : Z :=
  sum (map api_overage
         (filter (fun ap => billed_organisation_id ap =? id organisation)
                 (api_billings rows starts_at))).

(** The billing table with one more row. *)
Definition with_billing (row : OrganisationAPIBilling) (w : world) : world :=
  mkWorld (notifications w) (billings w ++ [row]) (outbox w)
          (billing_calls w) (log w).

(** ** Sample data used to exercise the statements *)

Module Samples.

Definition at_midnight (y m d : Z) : datetime := mkdatetime y m d 0.

(** Thresholds in the order the loop of the matcher expects. *)
Definition ascending : constants :=
  mkConstants [50; 75; 90; 100] 7 "free" "scale-up" "scale-up-v2"
              "startup" "startup-v2".

(** The order the specification gives as its example. *)
Definition descending : constants :=
  mkConstants [100; 90; 75; 50] 7 "free" "scale-up" "scale-up-v2"
              "startup" "startup-v2".

(** Collaborators that always succeed; [usage] is what the usage query
    answers for every organisation and range. *)
Definition quiet (usage : Z) : collaborators :=
  mkCollaborators (fun _ _ => Ok usage) (fun _ _ => Ok true)
                  (fun _ => Ok tt) (fun _ _ => Ok tt) (fun _ _ => Ok tt).

Definition free_subscription (limit : Z) : Subscription :=
  mkSubscription "free" true limit "".

Definition paid_subscription (p : string) : Subscription :=
  mkSubscription p false 0 "sub-1".

Definition free_organisation (i limit : Z) : Organisation :=
  mkOrganisation i (free_subscription limit) None false false false.

Definition paid_organisation (i : Z) (p : string)
    (starts ends : datetime) (allowed : Z) : Organisation :=
  mkOrganisation i (paid_subscription p)
                 (Some (mkCache starts ends allowed)) false false false.

Definition empty_world : world := mkWorld [] [] [] [] [].

End Samples.

Module IdempotenceSample.
Import Samples.

Definition now : datetime := at_midnight 2024 3 20.
Definition sent_at : datetime := mkdatetime 2024 3 20 1.
Definition organisation : Organisation := free_organisation 1 1000.
Definition first_run : result unit * world :=
  _handle_api_usage_notifications ascending (quiet 950) now sent_at
    organisation empty_world.
End IdempotenceSample.

(** A paid organisation whose cached billing term starts two months
    after [now]. *)
Module FutureTermSample.
Import Samples.

Definition now : datetime := at_midnight 2024 3 20.
Definition sent_at : datetime := mkdatetime 2024 3 20 1.
Definition organisation : Organisation :=
  paid_organisation 8 "scale-up" (at_midnight 2024 5 25)
                    (at_midnight 2024 6 25) 1000.
Definition first_run : result unit * world :=
  _handle_api_usage_notifications ascending (quiet 950) now sent_at
    organisation empty_world.
Definition second_run : result unit * world :=
  _handle_api_usage_notifications ascending (quiet 950) now sent_at
    organisation (snd first_run).
End FutureTermSample.

Module CrossOrganisationSample.
Import Samples.

Definition now : datetime := at_midnight 2024 3 20.
Definition sent_at : datetime := mkdatetime 2024 3 20 1.
Definition organisation_a : Organisation := free_organisation 1 1000.
Definition row_b : OrganisationAPIUsageNotification :=
  mkNotification 2 100 (at_midnight 2024 3 10).
Definition w : world := mkWorld [row_b] [] [] [] [].
End CrossOrganisationSample.

Module BillingSample.
Import Samples.

Definition now : datetime := at_midnight 2024 3 20.
Definition starts : datetime := at_midnight 2024 2 21.
Definition ends : datetime := mkdatetime 2024 3 20 1800000000.
Definition cache : OrganisationSubscriptionInformationCache :=
  mkCache starts ends 1000.
Definition organisation : Organisation :=
  paid_organisation 1 "scale-up" starts ends 1000.
Definition first_run : result unit * world :=
  charge_organisation ascending (quiet 2100) now organisation empty_world.
(** A charge recorded for another organisation in the same term. *)
Definition foreign_row : OrganisationAPIBilling :=
  mkBilling 2 100000 false (at_midnight 2024 3 1).
End BillingSample.

Module ZeroLimitSample.
Import Samples.

Definition now : datetime := at_midnight 2024 3 20.
Definition free_zero : Organisation := free_organisation 1 0.
Definition paid_zero : Organisation :=
  paid_organisation 3 "scale-up" BillingSample.starts BillingSample.ends 0.
End ZeroLimitSample.

Module LoopSample.
Import Samples.

Definition clock (_ : Z) : datetime * datetime :=
  (at_midnight 2024 3 20, mkdatetime 2024 3 20 1).
Definition zero_limit : Organisation := free_organisation 1 0.
Definition over_ninety : Organisation := free_organisation 2 1000.

(** The feature-flag client fails for organisation 1. *)
Definition flags_down : collaborators :=
  mkCollaborators (fun _ _ => Ok 950)
    (fun o _ => if id o =? 1 then Raise RuntimeError else Ok true)
    (fun _ => Ok tt) (fun _ _ => Ok tt) (fun _ _ => Ok tt).

(** The usage query fails for organisation 1 with an error that is not
    a [RuntimeError]. *)
Definition usage_down : collaborators :=
  mkCollaborators
    (fun i _ => if i =? 1 then Raise (OtherError "ConnectionError")
                else Ok 950)
    (fun _ _ => Ok true) (fun _ => Ok tt) (fun _ _ => Ok tt)
    (fun _ _ => Ok tt).

(** The usage query fails for organisation 1 with a [RuntimeError]. *)
Definition usage_runtime_error : collaborators :=
  mkCollaborators
    (fun i _ => if i =? 1 then Raise RuntimeError else Ok 950)
    (fun _ _ => Ok true) (fun _ => Ok tt) (fun _ _ => Ok tt)
    (fun _ _ => Ok tt).
End LoopSample.

Module RestrictionSample.
Import Samples.

Definition now : datetime := at_midnight 2024 3 20.
Definition breaching : Organisation := free_organisation 1 1000.
Definition recovered : Organisation :=
  mkOrganisation 2 (free_subscription 1000) None true true true.
Definition rows : list OrganisationAPIUsageNotification :=
  [mkNotification 1 100 (at_midnight 2024 3 1)].
Definition organisations : list Organisation := [breaching; recovered].
Definition restricted : Organisation :=
  mkOrganisation 1 (free_subscription 1000) None true true true.
End RestrictionSample.

Module PeriodSample.
Import Samples.

(** A term that started fourteen months before [now]. *)
Definition now : datetime := at_midnight 2024 3 20.
Definition stale : Organisation :=
  paid_organisation 4 "scale-up" (at_midnight 2023 1 15)
                    (at_midnight 2024 1 15) 1000.

(** A term that started on the last day of a 31-day month. *)
Definition now_end_of_march : datetime := at_midnight 2024 3 30.
Definition month_end : Organisation :=
  paid_organisation 5 "scale-up" (at_midnight 2024 1 31)
                    (at_midnight 2025 1 31) 1000.
End PeriodSample.

(** ** Vocabulary of the further properties *)

Ltac split_month H :=
  repeat (destruct H as [-> | H]); try subst.

(** The last element of a list, if any. *)
Definition last_of (l : list Z) : option Z :=
  match rev l with
  | [] => None
  | t :: _ => Some t
  end.

(** What a pass of the loop over a table can add to the notification log
    and to the outbox: going through the table in order, each organisation
    contributes nothing, or one row at one of the thresholds, stamped with
    its second clock reading, together with the mail for that threshold. *)
Inductive pass_rows (thresholds : list Z) (clock : Z -> datetime * datetime)
  : list Organisation -> list OrganisationAPIUsageNotification ->
    list mail -> Prop :=
| pass_rows_nil : pass_rows thresholds clock [] [] []
| pass_rows_skip o rest added mails :
    pass_rows thresholds clock rest added mails ->
    pass_rows thresholds clock (o :: rest) added mails
| pass_rows_sent o t rest added mails :
    In t thresholds ->
    pass_rows thresholds clock rest added mails ->
    pass_rows thresholds clock (o :: rest)
      (mkNotification (id o) t (snd (clock (id o))) :: added)
      (notification_mail o t :: mails).

(** The billing call the plan of an organisation selects, if any. *)
Definition plan_call (K : constants) (organisation : Organisation)
    (count : Z) : option billing_call :=
  let p := plan (subscription organisation) in
  let sid := subscription_id (subscription organisation) in
  if (p =? SCALE_UP K)%string || (p =? SCALE_UP_V2 K)%string
  then Some (ScaleUpCall sid count)
  else if (p =? STARTUP K)%string || (p =? STARTUP_V2 K)%string
  then Some (StartUpCall sid count)
  else None.

(** The collaborator a billing call goes to. *)
Definition run_call (E : collaborators) (call : billing_call) : result unit :=
  match call with
  | ScaleUpCall sid count => add_100k_api_calls_scale_up E sid count
  | StartUpCall sid count => add_100k_api_calls_start_up E sid count
  end.

Definition with_log (r : log_record) (w : world) : world :=
  mkWorld (notifications w) (billings w) (outbox w) (billing_calls w)
          (log w ++ [r]).

(** The ways a run of the biller for one organisation can end. *)
Inductive charge_outcome (K : constants) (E : collaborators)
    (now : datetime) (organisation : Organisation) (w : world)
  : result unit * world -> Prop :=
| FlagRaises e :
    is_feature_enabled E organisation "api_usage_overage_charges"
      = Raise e ->
    charge_outcome K E now organisation w (Raise e, w)
| FlagOff :
    is_feature_enabled E organisation "api_usage_overage_charges"
      = Ok false ->
    charge_outcome K E now organisation w (Ok tt, w)
| NoCache :
    is_feature_enabled E organisation "api_usage_overage_charges"
      = Ok true ->
    subscription_information_cache organisation = None ->
    charge_outcome K E now organisation w
      (Raise (OtherError "RelatedObjectDoesNotExist"), w)
| UsageRaises c e :
    is_feature_enabled E organisation "api_usage_overage_charges"
      = Ok true ->
    subscription_information_cache organisation = Some c ->
    get_current_api_usage E (id organisation) "30d" = Raise e ->
    charge_outcome K E now organisation w (Raise e, w)
| GraceRaises c usage e :
    is_feature_enabled E organisation "api_usage_overage_charges"
      = Ok true ->
    subscription_information_cache organisation = Some c ->
    get_current_api_usage E (id organisation) "30d" = Ok usage ->
    below_grace usage (allowed_30d_api_calls c) = Raise e ->
    charge_outcome K E now organisation w (Raise e, w)
| InGrace c usage :
    is_feature_enabled E organisation "api_usage_overage_charges"
      = Ok true ->
    subscription_information_cache organisation = Some c ->
    get_current_api_usage E (id organisation) "30d" = Ok usage ->
    below_grace usage (allowed_30d_api_calls c) = Ok true ->
    charge_outcome K E now organisation w (Ok tt, with_log LogBelowGrace w)
| WithinLimit c usage :
    is_feature_enabled E organisation "api_usage_overage_charges"
      = Ok true ->
    subscription_information_cache organisation = Some c ->
    get_current_api_usage E (id organisation) "30d" = Ok usage ->
    below_grace usage (allowed_30d_api_calls c) = Ok false ->
    computed_overage c usage w <= 0 ->
    charge_outcome K E now organisation w (Ok tt, with_log LogBelowLimit w)
| UnsupportedPlan c usage :
    is_feature_enabled E organisation "api_usage_overage_charges"
      = Ok true ->
    subscription_information_cache organisation = Some c ->
    get_current_api_usage E (id organisation) "30d" = Ok usage ->
    below_grace usage (allowed_30d_api_calls c) = Ok false ->
    0 < computed_overage c usage w ->
    plan_call K organisation 0 = None ->
    charge_outcome K E now organisation w
      (Ok tt,
       with_log (LogUnableToBill (plan (subscription organisation))) w)
| CeilRaises c usage call e :
    is_feature_enabled E organisation "api_usage_overage_charges"
      = Ok true ->
    subscription_information_cache organisation = Some c ->
    get_current_api_usage E (id organisation) "30d" = Ok usage ->
    below_grace usage (allowed_30d_api_calls c) = Ok false ->
    0 < computed_overage c usage w ->
    plan_call K organisation 0 = Some call ->
    ceil_100k (computed_overage c usage w) = Raise e ->
    charge_outcome K E now organisation w (Raise e, w)
| CallRaises c usage count call e :
    is_feature_enabled E organisation "api_usage_overage_charges"
      = Ok true ->
    subscription_information_cache organisation = Some c ->
    get_current_api_usage E (id organisation) "30d" = Ok usage ->
    below_grace usage (allowed_30d_api_calls c) = Ok false ->
    0 < computed_overage c usage w ->
    ceil_100k (computed_overage c usage w) = Ok count ->
    plan_call K organisation count = Some call ->
    run_call E call = Raise e ->
    charge_outcome K E now organisation w (Raise e, w)
| Charged c usage count call :
    is_feature_enabled E organisation "api_usage_overage_charges"
      = Ok true ->
    subscription_information_cache organisation = Some c ->
    get_current_api_usage E (id organisation) "30d" = Ok usage ->
    below_grace usage (allowed_30d_api_calls c) = Ok false ->
    0 < computed_overage c usage w ->
    ceil_100k (computed_overage c usage w) = Ok count ->
    plan_call K organisation count = Some call ->
    run_call E call = Ok tt ->
    charge_outcome K E now organisation w
      (Ok tt, billed_world now organisation call count w).

(** A row the biller wrote at [now] for one of [organisations]. *)
Definition billed_row (now : datetime) (organisations : list Organisation)
    (b : OrganisationAPIBilling) : Prop :=
  billed_at b = now /\ immediate_invoice b = false /\
  (exists k, 1 <= k /\ api_overage b = 100000 * k) /\
  exists o, In o organisations /\ billed_organisation_id b = id o.

(** An organisation the biller has nothing left to charge, given the
    billing table [rows]: the feature is off, or the usage is within the
    grace, within the limit raised by [rows], or on a plan it cannot
    bill. *)
Definition settled (K : constants) (E : collaborators)
    (organisation : Organisation) (rows : list OrganisationAPIBilling)
  : Prop :=
  match is_feature_enabled E organisation "api_usage_overage_charges" with
  | Ok false => True
  | Raise _ => False
  | Ok true =>
      exists c usage,
        subscription_information_cache organisation = Some c /\
        get_current_api_usage E (id organisation) "30d" = Ok usage /\
        (below_grace usage (allowed_30d_api_calls c) = Ok true \/
         (below_grace usage (allowed_30d_api_calls c) = Ok false /\
          (usage - (allowed_30d_api_calls c
                    + previous_api_overage rows
                        (current_billing_term_starts_at c)) <= 0 \/
           plan_call K organisation 0 = None)))
  end.

(** The restriction flags agree with the access block: a blocked
    organisation has a flag set, an organisation without a block has
    none. *)
Definition flags_match_block (o : Organisation) : Prop :=
  stop_serving_flags o || block_access_to_admin o = api_limit_access_block o.

(** [o] after the apply pass restricted it with flags [s] and [b]. *)
Definition restricted_as (o : Organisation) (s b : bool) : Organisation :=
  mkOrganisation (id o) (subscription o) (subscription_information_cache o)
                 s b true.

(** [o] after the lift pass. *)
Definition lifted (o : Organisation) : Organisation :=
  mkOrganisation (id o) (subscription o) (subscription_information_cache o)
                 false false false.

(** An organisation the loop has nothing left to notify, given the
    notification log [rows]: the feature is off, the cache is missing, the
    usage query or the mailer fails with an error the loop catches, no
    threshold matches, or the gate is closed by a row of [rows]. *)
Definition notice_settled (K : constants) (E : collaborators)
    (clock : Z -> datetime * datetime) (o : Organisation)
    (rows : list OrganisationAPIUsageNotification) : Prop :=
  match is_feature_enabled E o "api_usage_alerting" with
  | Raise _ => False
  | Ok false => True
  | Ok true =>
      match usage_period (fst (clock (id o))) o with
      | MissingCache => True
      | Unsettled => False
      | Period ps days limit =>
          match get_current_api_usage E (id o) (date_range days) with
          | Raise e => is_RuntimeError e = true
          | Ok usage =>
              match api_usage_percent usage limit with
              | Raise e => is_RuntimeError e = true
              | Ok percent =>
                  match matched_threshold (API_USAGE_ALERT_THRESHOLDS K)
                          percent with
                  | None => True
                  | Some t =>
                      already_notified rows ps t = true \/
                      exists e,
                        send_mail E (notification_mail o t) = Raise e /\
                        is_RuntimeError e = true
                  end
              end
          end
      end
  end.

Module FurtherSample.
Import Samples.

Definition now : datetime := at_midnight 2024 3 20.
Definition sent_at : datetime := mkdatetime 2024 3 20 1.
Definition clock (_ : Z) : datetime * datetime := (now, sent_at).

(** Every feature is off; the other collaborators succeed. *)
Definition gates_off : collaborators :=
  mkCollaborators (fun _ _ => Ok 950) (fun _ _ => Ok false)
                  (fun _ => Ok tt) (fun _ _ => Ok tt) (fun _ _ => Ok tt).

(** A paid organisation whose cache has not been filled yet. *)
Definition uncached : Organisation :=
  mkOrganisation 7 (paid_subscription "scale-up") None false false false.

(** A paid organisation on a plan without an overage add-on. *)
Definition enterprise : Organisation :=
  paid_organisation 6 "enterprise" BillingSample.starts BillingSample.ends
                    1000.

(** A log with an alert below 90%, and an alert at 100% from before the
    rolling month. *)
Definition lower_and_older : world :=
  mkWorld [mkNotification 1 75 (at_midnight 2024 3 10);
           mkNotification 1 100 (at_midnight 2024 1 5)] [] [] [] [].

(** A log with the 100% alert that makes the billing sample eligible. *)
Definition breached : world :=
  mkWorld [mkNotification 1 100 (at_midnight 2024 3 10)] [] [] [] [].

Definition first_charge_pass : result unit * world :=
  charge_for_api_call_count_overages ascending (quiet 2100) now
    [BillingSample.organisation] breached.

Definition first_notification_pass : result unit * world :=
  handle_api_usage_notifications ascending (quiet 950) clock
    [LoopSample.over_ninety] empty_world.
End FurtherSample.

(** A usage whose overage against the allowance of the billing sample is
    one call more than [2^37] units of 100000 calls, and two passes of the
    biller over the billing sample with that usage. *)
Module RoundingSample.
Import Samples.

Definition usage : Z := 13743895347201001.
Definition pass : M unit :=
  charge_for_api_call_count_overages ascending (quiet usage)
    BillingSample.now [BillingSample.organisation].
Definition first_run : result unit * world := pass FurtherSample.breached.
Definition second_run : result unit * world := pass (snd first_run).
End RoundingSample.

(** * Properties *)

(** ** Binary64 division *)

(** The division on known values: [1 / 10] is [0x1.999999999999ap-4],
    [1 / 3] is [0x1.5555555555555p-2], [7 / 2] is 3.5 with integer part 3
    and ceiling 4, a quotient of [2^1024] or more overflows and a zero
    divisor is an error. *)
Example truediv_values :
  truediv 1 10 = Quotient (mkfloat 7205759403792794 (-56)) /\
  truediv 1 3 = Quotient (mkfloat 6004799503160661 (-54)) /\
  (exists x, truediv 7 2 = Quotient x /\ truncate x = 3 /\ ceiling x = 4
             /\ ltb_Z x 4 = true /\ ltb_Z x 3 = false) /\
  (exists x, truediv (-7) 2 = Quotient x /\ truncate x = -3
             /\ ceiling x = -3) /\
  truediv (2 ^ 1024) 1 = Overflow /\
  truediv 5 0 = DivisionByZero.
Proof.
  repeat split; try (vm_compute; reflexivity);
    eexists; (split; [vm_compute; reflexivity |]);
    repeat split; vm_compute; reflexivity.
Qed.

Lemma round_half_even_bounds (n d : Z) :
  0 < d ->
  n / d <= round_half_even n d <= n / d + 1 /\
  2 * n - d <= 2 * (d * round_half_even n d) <= 2 * n + d /\
  (n mod d = 0 -> round_half_even n d = n / d).
Proof.
  intros Hd. unfold round_half_even.
  pose proof (Z.div_mod n d ltac:(lia)) as Hdm.
  pose proof (Z.mod_pos_bound n d Hd) as Hr.
  set (q := n / d) in *. set (r := n mod d) in *.
  destruct (Z.ltb_spec (2 * r) d) as [H1 | H1].
  - split; [lia |]. split; [nia | reflexivity].
  - destruct (Z.ltb_spec d (2 * r)) as [H2 | H2].
    + split; [lia |]. split; [nia | lia].
    + destruct (Z.even q); (split; [lia |]; split; [nia | lia]).
Qed.

(** The exponent places the quotient in the binade [2^52, 2^53). *)
Lemma quotient_exponent_spec (a b : Z) :
  0 < a -> 0 < b ->
  let e := quotient_exponent a b in
  (0 <= e -> b * 2 ^ e * 2 ^ 52 <= a < b * 2 ^ e * 2 ^ 53) /\
  (e < 0 -> b * 2 ^ 52 <= a * 2 ^ (- e) < b * 2 ^ 53).
Proof.
  intros Ha Hb. unfold quotient_exponent.
  set (s := Z.log2 b + 1).
  pose proof (Z.log2_nonneg b) as Hl0.
  assert (Hs : 0 < s) by (unfold s; lia).
  pose proof (Z.log2_spec b Hb) as [_ Hbs]. fold s in Hbs.
  replace (Z.succ (Z.log2 b)) with s in Hbs by (unfold s; lia).
  assert (H2s : 0 < 2 ^ s) by (apply Z.pow_pos_nonneg; lia).
  set (Q := a * 2 ^ s / b).
  assert (HQ : a <= Q).
  { unfold Q. apply Z.div_le_lower_bound; [lia | nia]. }
  pose proof (Z.log2_spec Q ltac:(lia)) as [HL1 HL2].
  pose proof (Z.log2_nonneg Q) as HL0.
  set (L := Z.log2 Q) in *.
  replace (Z.succ L) with (L + 1) in HL2 by lia.
  pose proof (Z.div_mod (a * 2 ^ s) b ltac:(lia)) as Hdm.
  pose proof (Z.mod_pos_bound (a * 2 ^ s) b Hb) as Hr.
  fold Q in Hdm.
  assert (Hlo : 2 ^ L * b <= a * 2 ^ s) by nia.
  assert (Hhi : a * 2 ^ s < 2 ^ (L + 1) * b) by nia.
  cbv zeta. split; intros He.
  - replace L with ((L - s - 52) + 52 + s) in Hlo by lia.
    replace (L + 1) with ((L - s - 52) + 53 + s) in Hhi by lia.
    rewrite !Z.pow_add_r in Hlo, Hhi by lia.
    set (P := 2 ^ (L - s - 52)) in *.
    assert (0 < P) by (apply Z.pow_pos_nonneg; lia).
    split; nia.
  - assert (Hk : 2 ^ (s + 52) = 2 ^ L * 2 ^ (- (L - s - 52))).
    { rewrite <- Z.pow_add_r by lia. f_equal. lia. }
    assert (Hk' : 2 ^ (s + 53) = 2 ^ (L + 1) * 2 ^ (- (L - s - 52))).
    { rewrite <- Z.pow_add_r by lia. f_equal. lia. }
    rewrite Z.pow_add_r in Hk, Hk' by lia.
    set (P := 2 ^ (- (L - s - 52))) in *.
    assert (0 < P) by (apply Z.pow_pos_nonneg; lia).
    split; nia.
Qed.

(** The scaled quotient of two positive integers, before rounding. *)
Lemma scaled_quotient (a b : Z) :
  0 < a -> 0 < b ->
  let e := Z.max (quotient_exponent a b) (-1074) in
  let N := scaled_numerator a e in
  let D := scaled_denominator b e in
  0 < D /\ N < D * 2 ^ 53 /\
  (quotient_exponent a b < -1074 -> N < D * 2 ^ 52) /\
  (-1074 <= quotient_exponent a b -> D * 2 ^ 52 <= N).
Proof.
  intros Ha Hb.
  destruct (quotient_exponent_spec a b Ha Hb) as [Hpos Hneg].
  set (qe := quotient_exponent a b) in *.
  cbv zeta. unfold scaled_numerator, scaled_denominator.
  destruct (Z.lt_ge_cases qe (-1074)) as [Hc | Hc].
  - rewrite (Z.max_r qe (-1074)) by lia.
    change (Z.max 0 (- -1074)) with 1074. change (Z.max 0 (-1074)) with 0.
    rewrite Z.pow_0_r, Z.mul_1_r.
    specialize (Hneg ltac:(lia)).
    replace (- qe) with (1074 + (- qe - 1074)) in Hneg by lia.
    rewrite Z.pow_add_r in Hneg by lia.
    assert (Hp : 2 <= 2 ^ (- qe - 1074)).
    { change 2 with (2 ^ 1) at 1. apply Z.pow_le_mono_r; lia. }
    set (P := 2 ^ (- qe - 1074)) in *.
    assert (H1074 : 0 < 2 ^ 1074) by (apply Z.pow_pos_nonneg; lia).
    set (T := 2 ^ 1074) in *.
    assert (Hlt : a * T < b * 2 ^ 52) by nia.
    split; [lia |]. split; [lia |]. split; [intros _; exact Hlt | lia].
  - rewrite (Z.max_l qe (-1074)) by lia.
    destruct (Z.lt_ge_cases qe 0) as [Hs | Hs].
    + rewrite (Z.max_r 0 (- qe)) by lia. rewrite (Z.max_l 0 qe) by lia.
      rewrite Z.pow_0_r, Z.mul_1_r.
      specialize (Hneg Hs).
      split; [lia |]. split; [lia |]. split; [lia | intros _; lia].
    + rewrite (Z.max_l 0 (- qe)) by lia. rewrite (Z.max_r 0 qe) by lia.
      rewrite Z.pow_0_r, Z.mul_1_r.
      specialize (Hpos Hs).
      assert (0 < 2 ^ qe) by (apply Z.pow_pos_nonneg; lia).
      split; [nia |]. split; [lia |]. split; [lia | intros _; lia].
Qed.

(** With a dividend below [2^53] the rounded quotient has the integer
    part of the exact one, and the same ceiling when it is not
    subnormal. *)
Lemma truediv_small (a b : Z) :
  0 <= a < 2 ^ 53 -> 0 < b ->
  exists x,
    truediv a b = Quotient x /\
    0 <= mantissa x /\
    truncate x = a / b /\
    (b <= 2 ^ 1021 -> ceiling x = - ((- a) / b)).
Proof.
  intros [Ha0 Ha] Hb. unfold truediv.
  destruct (Z.eqb_spec b 0) as [| _]; [lia |].
  destruct (Z.eqb_spec a 0) as [-> | Hne].
  { exists (mkfloat 0 0). split; [reflexivity |].
    unfold truncate, ceiling. cbn [mantissa exponent].
    rewrite Z.div_0_l by lia. cbn. repeat split; lia. }
  assert (Hap : 0 < a) by lia.
  destruct (Z.ltb_spec a 0) as [| _]; [lia |].
  destruct (Z.ltb_spec b 0) as [| _]; [lia |].
  cbn [xorb]. rewrite (Z.abs_eq a), (Z.abs_eq b) by lia.
  destruct (scaled_quotient a b Hap Hb) as (HD & Hupper & Hsub & Hnorm).
  set (qe := quotient_exponent a b) in *.
  set (e := Z.max qe (-1074)) in *.
  set (N := scaled_numerator a e) in *.
  set (D := scaled_denominator b e) in *.
  destruct (round_half_even_bounds N D HD) as (Hm1 & Hm2 & Hm3).
  set (m := round_half_even N D) in *.
  assert (HN0 : 0 <= N).
  { unfold N, scaled_numerator.
    assert (0 < 2 ^ Z.max 0 (- e)) by (apply Z.pow_pos_nonneg; lia). nia. }
  assert (Hm0 : 0 <= m).
  { pose proof (Z.div_pos N D HN0 HD). lia. }
  assert (Hm53 : m <= 2 ^ 53).
  { assert (N / D < 2 ^ 53) by (apply Z.div_lt_upper_bound; lia). lia. }
  pose proof (Z.div_mod a b ltac:(lia)) as Hab.
  pose proof (Z.mod_pos_bound a b Hb) as Ht.
  set (f := a / b) in *. set (t := a mod b) in *.
  destruct (Z.lt_ge_cases e 0) as [He | He].
  - (* a fractional exponent *)
    replace ((0 <=? e) && (2 ^ 1024 <=? m * 2 ^ e)) with false
      by (destruct (Z.leb_spec 0 e); [lia | reflexivity]).
    eexists. split; [reflexivity |].
    unfold truncate, ceiling. cbn [mantissa exponent].
    replace (0 <=? e) with false
      by (destruct (Z.leb_spec 0 e); [lia | reflexivity]).
    rewrite Z.mul_1_l. split; [exact Hm0 |].
    assert (HNe : N = a * 2 ^ (- e)).
    { unfold N, scaled_numerator. now rewrite Z.max_r by lia. }
    assert (HDe : D = b).
    { unfold D, scaled_denominator. rewrite Z.max_l by lia.
      now rewrite Z.pow_0_r, Z.mul_1_r. }
    assert (HP : 0 < 2 ^ (- e)) by (apply Z.pow_pos_nonneg; lia).
    set (P := 2 ^ (- e)) in *.
    rewrite Z.quot_div_nonneg by lia.
    destruct (Z.lt_ge_cases qe (-1074)) as [Hc | Hc].
    + (* subnormal: the quotient is below one *)
      specialize (Hsub Hc).
      assert (HeP : P = 2 ^ 1074).
      { unfold P, e. now rewrite Z.max_r by lia. }
      assert (Hm52 : m <= 2 ^ 52).
      { assert (N / D < 2 ^ 52) by (apply Z.div_lt_upper_bound; lia). lia. }
      assert (Hf0 : f = 0).
      { assert (a < b).
        { rewrite HNe, HDe, HeP in Hsub.
          assert (2 ^ 52 <= 2 ^ 1074) by (apply Z.pow_le_mono_r; lia).
          nia. }
        unfold f. apply Z.div_small. lia. }
      split.
      * rewrite Hf0. apply Z.div_small. rewrite HeP.
        assert (2 ^ 52 < 2 ^ 1074) by (apply Z.pow_lt_mono_r; lia). lia.
      * intros Hb1021. exfalso.
        rewrite HNe, HDe, HeP in Hsub.
        assert (2 ^ 1074 = 2 ^ 1021 * 2 ^ 53)
          by (rewrite <- Z.pow_add_r by lia; reflexivity).
        assert (0 < 2 ^ 1021) by (apply Z.pow_pos_nonneg; lia).
        nia.
    + (* normal *)
      specialize (Hnorm Hc).
      assert (HbP : b < 2 * P) by (rewrite HNe, HDe in Hnorm; nia).
      assert (Hlow : f * P <= m).
      { assert (f * P <= N / D); [| lia].
        apply Z.div_le_lower_bound; [lia |]. rewrite HNe, HDe. nia. }
      destruct (Z.eq_dec t 0) as [Ht0 | Ht0].
      * assert (Hexact : m = f * P).
        { rewrite Hm3.
          - rewrite HNe, HDe. replace (a * P) with (f * P * b) by nia.
            now rewrite Z.div_mul by lia.
          - rewrite HNe, HDe. replace (a * P) with (f * P * b) by nia.
            now rewrite Z.mod_mul by lia. }
        rewrite Hexact. split.
        -- now rewrite Z.div_mul by lia.
        -- intros _. replace (- (f * P)) with ((- f) * P) by lia.
           rewrite Z.div_mul by lia.
           replace (- a) with ((- f) * b) by nia.
           now rewrite Z.div_mul by lia.
      * assert (Hup : m < (f + 1) * P).
        { rewrite HNe, HDe in Hm2. nia. }
        assert (Hup' : f * P < m).
        { rewrite HNe, HDe in Hm2. nia. }
        split.
        -- symmetry. apply Z.div_unique with (r := m - f * P); lia.
        -- intros _.
           replace (- m / P) with (- (f + 1)).
           2: { apply Z.div_unique with (r := (f + 1) * P - m); lia. }
           replace (- a / b) with (- (f + 1)).
           2: { apply Z.div_unique with (r := b - t); lia. }
           reflexivity.
  - (* an integral exponent: the divisor is one *)
    specialize (Hnorm ltac:(lia)).
    assert (HNe : N = a).
    { unfold N, scaled_numerator. rewrite Z.max_l by lia.
      now rewrite Z.pow_0_r, Z.mul_1_r. }
    assert (HDe : D = b * 2 ^ e).
    { unfold D, scaled_denominator. now rewrite Z.max_r by lia. }
    assert (HP : 0 < 2 ^ e) by (apply Z.pow_pos_nonneg; lia).
    assert (Hone : b * 2 ^ e = 1) by (rewrite HNe, HDe in Hnorm; nia).
    assert (Hb1 : b = 1) by nia.
    assert (He1 : 2 ^ e = 1) by nia.
    assert (Hma : m = a).
    { rewrite Hm3; rewrite HNe, HDe, Hone.
      - apply Z.div_1_r.
      - apply Z.mod_1_r. }
    replace ((0 <=? e) && (2 ^ 1024 <=? m * 2 ^ e)) with false.
    2: { rewrite He1, Hma, Z.mul_1_r.
         assert (2 ^ 53 < 2 ^ 1024) by (apply Z.pow_lt_mono_r; lia).
         destruct (Z.leb_spec (2 ^ 1024) a); [lia |].
         now rewrite andb_false_r. }
    eexists. split; [reflexivity |].
    unfold truncate, ceiling. cbn [mantissa exponent].
    replace (0 <=? e) with true
      by (destruct (Z.leb_spec 0 e); [reflexivity | lia]).
    rewrite Z.mul_1_l, He1, Hma, Z.mul_1_r.
    unfold f. subst b. rewrite Z.div_1_r.
    repeat split; try lia. intros _. rewrite Z.div_1_r. lia.
Qed.

(** For a non-negative value, comparing with an integer is comparing the
    integer part. *)
Lemma ltb_Z_truncate (x : float) (n : Z) :
  0 <= mantissa x -> ltb_Z x n = (truncate x <? n).
Proof.
  intros Hm. unfold ltb_Z, truncate.
  destruct (Z.leb_spec 0 (exponent x)) as [He | He]; [reflexivity |].
  assert (HP : 0 < 2 ^ (- exponent x)) by (apply Z.pow_pos_nonneg; lia).
  rewrite Z.quot_div_nonneg by lia.
  destruct (Z.ltb_spec (mantissa x) (n * 2 ^ (- exponent x))) as [H | H];
    destruct (Z.ltb_spec (mantissa x / 2 ^ (- exponent x)) n) as [H' | H'];
    try reflexivity; exfalso.
  - assert (mantissa x / 2 ^ (- exponent x) < n); [| lia].
    apply Z.div_lt_upper_bound; lia.
  - assert (n <= mantissa x / 2 ^ (- exponent x)); [| lia].
    apply Z.div_le_lower_bound; lia.
Qed.

(** A quotient of positive integers below [2^1023] does not overflow. *)
Lemma truediv_returns (a b : Z) :
  0 <= a < 2 ^ 1023 -> 0 < b -> exists x, truediv a b = Quotient x.
Proof.
  intros [Ha0 Ha] Hb. unfold truediv.
  destruct (Z.eqb_spec b 0) as [| _]; [lia |].
  destruct (Z.eqb_spec a 0) as [| Hne]; [now eexists |].
  assert (Hap : 0 < a) by lia.
  rewrite (Z.abs_eq a), (Z.abs_eq b) by lia.
  destruct (scaled_quotient a b Hap Hb) as (HD & Hupper & _ & Hnorm).
  set (e := Z.max (quotient_exponent a b) (-1074)) in *.
  set (N := scaled_numerator a e) in *.
  set (D := scaled_denominator b e) in *.
  destruct (round_half_even_bounds N D HD) as (Hm1 & _ & _).
  set (m := round_half_even N D) in *.
  destruct (Z.leb_spec 0 e) as [He | He]; [| now eexists].
  replace (2 ^ 1024 <=? m * 2 ^ e) with false; [now eexists |].
  symmetry. apply Z.leb_gt.
  assert (Hm53 : m <= 2 ^ 53).
  { assert (N / D < 2 ^ 53) by (apply Z.div_lt_upper_bound; lia). lia. }
  assert (HNe : N = a).
  { unfold N, scaled_numerator. rewrite Z.max_l by lia.
    now rewrite Z.pow_0_r, Z.mul_1_r. }
  assert (HDe : D = b * 2 ^ e).
  { unfold D, scaled_denominator. now rewrite Z.max_r by lia. }
  specialize (Hnorm ltac:(unfold e in *; lia)).
  assert (HP : 0 < 2 ^ e) by (apply Z.pow_pos_nonneg; lia).
  assert (He970 : e <= 970).
  { destruct (Z.le_gt_cases e 970) as [H | H]; [exact H | exfalso].
    assert (2 ^ 971 <= 2 ^ e) by (apply Z.pow_le_mono_r; lia).
    assert (2 ^ 1023 = 2 ^ 971 * 2 ^ 52)
      by (rewrite <- Z.pow_add_r by lia; reflexivity).
    rewrite HNe, HDe in Hnorm. nia. }
  assert (2 ^ e <= 2 ^ 970) by (apply Z.pow_le_mono_r; lia).
  assert (2 ^ 1024 = 2 ^ 53 * 2 ^ 970 * 2)
    by (rewrite <- Z.pow_add_r by lia; reflexivity).
  assert (0 < 2 ^ 970) by (apply Z.pow_pos_nonneg; lia).
  assert (Hm0 : 0 <= m).
  { assert (0 <= N / D); [| lia]. apply Z.div_pos; [| lia].
    rewrite HNe. lia. }
  nia.
Qed.

(** The ceiling of a positive quotient that is not subnormal is at least
    one. *)
Lemma truediv_ceiling_pos (a b : Z) (x : float) :
  0 < a -> 0 < b <= 2 ^ 1021 -> truediv a b = Quotient x -> 1 <= ceiling x.
Proof.
  intros Ha [Hb Hb1021]. unfold truediv.
  destruct (Z.eqb_spec b 0) as [| _]; [lia |].
  destruct (Z.eqb_spec a 0) as [| _]; [lia |].
  destruct (Z.ltb_spec a 0) as [| _]; [lia |].
  destruct (Z.ltb_spec b 0) as [| _]; [lia |].
  cbn [xorb]. rewrite (Z.abs_eq a), (Z.abs_eq b) by lia.
  destruct (scaled_quotient a b Ha Hb) as (HD & Hupper & Hsub & Hnorm).
  destruct (quotient_exponent_spec a b Ha Hb) as [_ Hneg].
  set (qe := quotient_exponent a b) in *.
  set (e := Z.max qe (-1074)) in *.
  set (N := scaled_numerator a e) in *.
  set (D := scaled_denominator b e) in *.
  destruct (round_half_even_bounds N D HD) as (Hm1 & _ & _).
  set (m := round_half_even N D) in *.
  assert (Hqe : -1074 <= qe).
  { destruct (Z.le_gt_cases (-1074) qe) as [H | H]; [exact H | exfalso].
    specialize (Hneg ltac:(lia)).
    assert (2 ^ 1075 <= 2 ^ (- qe)) by (apply Z.pow_le_mono_r; lia).
    assert (2 ^ 1075 = 2 ^ 1021 * 2 ^ 53 * 2)
      by (rewrite <- !Z.pow_add_r by lia; reflexivity).
    assert (0 < 2 ^ 1021) by (apply Z.pow_pos_nonneg; lia).
    nia. }
  specialize (Hnorm Hqe).
  assert (Hm52 : 2 ^ 52 <= m).
  { assert (2 ^ 52 <= N / D); [| lia].
    apply Z.div_le_lower_bound; lia. }
  destruct ((0 <=? e) && (2 ^ 1024 <=? m * 2 ^ e)); [discriminate |].
  rewrite Z.mul_1_l. intros [= <-]. unfold ceiling. cbn [mantissa exponent].
  destruct (Z.leb_spec 0 e) as [He | He].
  - assert (0 < 2 ^ e) by (apply Z.pow_pos_nonneg; lia). nia.
  - assert (HP : 0 < 2 ^ (- e)) by (apply Z.pow_pos_nonneg; lia).
    assert (- m / 2 ^ (- e) < 0); [| lia].
    apply Z.div_lt_upper_bound; lia.
Qed.

(** Only a zero divisor makes the division undefined. *)
Lemma truediv_DivisionByZero (a b : Z) :
  truediv a b = DivisionByZero -> b = 0.
Proof.
  unfold truediv. destruct (Z.eqb_spec b 0) as [Hb | _]; [now intros _ |].
  destruct (a =? 0); [discriminate |].
  destruct (_ && _); discriminate.
Qed.

(** ** The three divisions of [tasks.py] *)

Lemma div_zero (a : Z) : div a 0 = Raise ZeroDivisionError.
Proof. reflexivity. Qed.

Lemma div_small (a b : Z) :
  0 <= a < 2 ^ 53 -> 0 < b ->
  exists x,
    div a b = Ok x /\ 0 <= mantissa x /\ truncate x = a / b /\
    (b <= 2 ^ 1021 -> ceiling x = - ((- a) / b)).
Proof.
  intros Ha Hb. destruct (truediv_small a b Ha Hb) as (x & Hx & H).
  exists x. unfold div. now rewrite Hx.
Qed.

(** Below [2^53] the usage percent is the exact truncated quotient. *)
Lemma api_usage_percent_exact (api_usage allowed_api_calls : Z) :
  0 <= 100 * api_usage < 2 ^ 53 -> 0 < allowed_api_calls ->
  api_usage_percent api_usage allowed_api_calls
  = Ok (Z.quot (100 * api_usage) allowed_api_calls).
Proof.
  intros Ha Hb.
  destruct (div_small _ _ Ha Hb) as (x & Hx & _ & Ht & _).
  unfold api_usage_percent. rewrite Hx, Ht.
  now rewrite Z.quot_div_nonneg by lia.
Qed.

(** Below [2^1023] the usage percent is computed without overflow. *)
Lemma api_usage_percent_returns (api_usage allowed_api_calls : Z) :
  0 <= 100 * api_usage < 2 ^ 1023 -> 0 < allowed_api_calls ->
  exists percent,
    api_usage_percent api_usage allowed_api_calls = Ok percent.
Proof.
  intros Ha Hb. destruct (truediv_returns _ _ Ha Hb) as (x & Hx).
  exists (truncate x). unfold api_usage_percent, div. now rewrite Hx.
Qed.

(** Below [2^53] the grace check is the exact comparison. *)
Lemma below_grace_exact (api_usage allowed : Z) :
  0 <= api_usage < 2 ^ 53 -> 0 < allowed ->
  below_grace api_usage allowed = Ok (api_usage <? 2 * allowed).
Proof.
  intros Ha Hb.
  destruct (div_small _ _ Ha Hb) as (x & Hx & Hm & Ht & _).
  unfold below_grace. rewrite Hx, (ltb_Z_truncate x 2 Hm), Ht. f_equal.
  destruct (Z.ltb_spec (api_usage / allowed) 2) as [H | H];
    destruct (Z.ltb_spec api_usage (2 * allowed)) as [H' | H'];
    try reflexivity; exfalso.
  - assert (2 <= api_usage / allowed); [| lia].
    apply Z.div_le_lower_bound; lia.
  - assert (api_usage / allowed < 2); [| lia].
    apply Z.div_lt_upper_bound; lia.
Qed.

(** Below [2^53] the number of units billed is the least one that covers
    the overage. *)
Lemma ceil_100k_exact (a : Z) :
  0 <= a < 2 ^ 53 ->
  exists count,
    ceil_100k a = Ok count /\ a <= 100000 * count < a + 100000.
Proof.
  intros Ha.
  destruct (div_small a 100000 Ha ltac:(lia)) as (x & Hx & _ & _ & Hc).
  exists (ceiling x). unfold ceil_100k. rewrite Hx. split; [reflexivity |].
  rewrite Hc.
  2: { assert (2 ^ 17 <= 2 ^ 1021) by (apply Z.pow_le_mono_r; lia). lia. }
  pose proof (Z.div_mod (- a) 100000 ltac:(lia)) as Hdm.
  pose proof (Z.mod_pos_bound (- a) 100000 ltac:(lia)) as Hb.
  lia.
Qed.

(** A positive overage is billed as at least one unit. *)
Lemma ceil_100k_pos (a count : Z) :
  0 < a -> ceil_100k a = Ok count -> 1 <= count.
Proof.
  intros Ha. unfold ceil_100k, div.
  destruct (truediv a 100000) as [x | |] eqn:Hx; try discriminate.
  intros [= <-]. apply (truediv_ceiling_pos a 100000 x Ha); [| exact Hx].
  assert (2 ^ 17 <= 2 ^ 1021) by (apply Z.pow_le_mono_r; lia). lia.
Qed.

(** ** Calendar facts *)

Lemma dt_ltb_iff (a b : datetime) : dt_ltb a b = true <-> lex_lt a b.
Proof.
  unfold dt_ltb, dt_compare, lex_lt.
  destruct (Z.compare_spec (year a) (year b));
    destruct (Z.compare_spec (month a) (month b));
    destruct (Z.compare_spec (day a) (day b));
    destruct (Z.compare_spec (usec a) (usec b));
    split; intros; try lia; try discriminate; try reflexivity.
Qed.

Lemma dt_leb_iff (a b : datetime) : dt_leb a b = true <-> ~ lex_lt b a.
Proof.
  unfold dt_leb, dt_compare, lex_lt.
  destruct (Z.compare_spec (year a) (year b));
    destruct (Z.compare_spec (month a) (month b));
    destruct (Z.compare_spec (day a) (day b));
    destruct (Z.compare_spec (usec a) (usec b));
    split; intros; try lia; try discriminate; try reflexivity.
Qed.

Lemma days_in_month_bounds (y m : Z) : 28 <= days_in_month y m <= 31.
Proof.
  unfold days_in_month.
  destruct (m =? 2); [destruct (is_leap y); lia |].
  destruct ((m =? 4) || (m =? 6) || (m =? 9) || (m =? 11)); lia.
Qed.

Lemma carry_nonneg (x limit : Z) :
  0 <= x -> 0 < limit -> carry x limit = (x / limit, x mod limit).
Proof.
  intros Hx Hl. unfold carry, sign.
  destruct (Z.ltb_spec (limit - 1) (Z.abs x)).
  - destruct (Z.ltb_spec x 0); [lia |].
    now rewrite !Z.mul_1_r.
  - rewrite Z.div_small, Z.mod_small by lia. reflexivity.
Qed.

Lemma days_before_year_succ (y : Z) :
  days_before_year (y + 1)
  = days_before_year y + 365 + (if is_leap y then 1 else 0).
Proof.
  unfold days_before_year, is_leap.
  replace (y + 1 - 1) with y by lia.
  destruct (Z.eqb_spec (y mod 4) 0), (Z.eqb_spec (y mod 100) 0),
    (Z.eqb_spec (y mod 400) 0); cbn [negb andb orb];
    Z.to_euclidean_division_equations; lia.
Qed.

Lemma month_shift_fields (dt : datetime) (n : Z) :
  1 <= month (month_shift dt n) <= 12 /\
  12 * year (month_shift dt n) + month (month_shift dt n)
    = 12 * year dt + month dt + n /\
  day (month_shift dt n)
    = Z.min (days_in_month (year (month_shift dt n))
                           (month (month_shift dt n))) (day dt) /\
  usec (month_shift dt n) = usec dt.
Proof.
  unfold month_shift. cbn [year month day usec].
  repeat split; try reflexivity; Z.to_euclidean_division_equations; lia.
Qed.

Lemma datetime_eq (a b : datetime) :
  year a = year b -> month a = month b -> day a = day b ->
  usec a = usec b -> a = b.
Proof. destruct a, b; cbn; intros; subst; reflexivity. Qed.

Lemma month_shift_0 (dt : datetime) : valid dt -> month_shift dt 0 = dt.
Proof.
  intros (Hm & Hd & Hu).
  destruct (month_shift_fields dt 0) as (Hm' & Hidx & Hday & Hus).
  assert (year (month_shift dt 0) = year dt) by lia.
  assert (month (month_shift dt 0) = month dt) by lia.
  apply datetime_eq; try assumption.
  rewrite Hday. replace (year (month_shift dt 0)) with (year dt).
  replace (month (month_shift dt 0)) with (month dt). lia.
Qed.

Lemma month_shift_valid (dt : datetime) (n : Z) :
  valid dt -> valid (month_shift dt n).
Proof.
  intros (Hm & Hd & Hu).
  destruct (month_shift_fields dt n) as (Hm' & Hidx & Hday & Hus).
  pose proof (days_in_month_bounds (year (month_shift dt n))
                (month (month_shift dt n))).
  unfold valid. rewrite Hus. repeat split; lia.
Qed.

Lemma dt_add_0 (dt : datetime) :
  0 <= usec dt < usec_per_day -> dt_add dt 0 = dt.
Proof.
  intros Hu. unfold dt_add. rewrite Z.add_0_r.
  rewrite Z.div_small, Z.mod_small by exact Hu.
  now destruct dt.
Qed.

Lemma relativedelta_months_set (n : Z) : relativedelta_months n = set_months n.
Proof.
  unfold relativedelta_months, set_months, fix_.
  cbn [microseconds seconds minutes hours days months years].
  change (carry 0 1000000) with (0, 0). cbn [Z.add].
  change (carry 0 60) with (0, 0). cbn [Z.add].
  change (carry 0 24) with (0, 0). cbn [Z.add].
  destruct (carry n 12) as [c mo]. reflexivity.
Qed.

(** Adding a whole number of months is [month_shift]. *)
Lemma rd_add_set_months (dt : datetime) (n : Z) :
  1 <= month dt <= 12 -> 0 <= usec dt < usec_per_day -> 0 <= n ->
  rd_add (set_months n) dt = month_shift dt n.
Proof.
  intros Hm Hu Hn. unfold set_months. rewrite carry_nonneg by lia.
  unfold rd_add. cbn [years months days hours minutes seconds microseconds].
  assert (Hmove :
    (if n mod 12 =? 0 then (year dt + n / 12, month dt)
     else if 12 <? month dt + n mod 12
          then (year dt + n / 12 + 1, month dt + n mod 12 - 12)
          else if month dt + n mod 12 <? 1
               then (year dt + n / 12 - 1, month dt + n mod 12 + 12)
               else (year dt + n / 12, month dt + n mod 12))
    = ((12 * year dt + (month dt - 1) + n) / 12,
       (12 * year dt + (month dt - 1) + n) mod 12 + 1)).
  { destruct (Z.eqb_spec (n mod 12) 0);
      [| destruct (Z.ltb_spec 12 (month dt + n mod 12));
         [| destruct (Z.ltb_spec (month dt + n mod 12) 1)]];
      f_equal; Z.to_euclidean_division_equations; lia. }
  rewrite Hmove. unfold rd_timedelta.
  cbn [years months days hours minutes seconds microseconds].
  change ((((0 * 24 + 0) * 60 + 0) * 60 + 0) * usec_per_second + 0) with 0.
  rewrite dt_add_0 by exact Hu. reflexivity.
Qed.

Lemma month_shift_lt (dt : datetime) (a b : Z) :
  a < b -> lex_lt (month_shift dt a) (month_shift dt b).
Proof.
  intros Hab.
  destruct (month_shift_fields dt a) as (Hma & Hia & _ & _).
  destruct (month_shift_fields dt b) as (Hmb & Hib & _ & _).
  unfold lex_lt. lia.
Qed.

Lemma lex_lt_irrefl (a : datetime) : ~ lex_lt a a.
Proof. unfold lex_lt. lia. Qed.

Lemma lex_lt_trans (a b c : datetime) : lex_lt a b -> lex_lt b c -> lex_lt a c.
Proof. unfold lex_lt. lia. Qed.

Lemma lex_le_lt_trans (a b c : datetime) :
  ~ lex_lt b a -> lex_lt b c -> lex_lt a c.
Proof. unfold lex_lt. lia. Qed.

Lemma adjust_months_stop fuel compare increment dt1 dt2 n :
  compare dt1 (rd_add (set_months n) dt2) = false ->
  adjust_months fuel compare increment dt1 dt2 n = Some n.
Proof. intros H. destruct fuel; simpl; now rewrite H. Qed.

(** The overshoot loop settles after at most one round when [dt2] is not
    after [dt1]. *)
Lemma adjust_settles (dt1 dt2 : datetime) (fuel : nat) :
  valid dt1 -> valid dt2 -> ~ lex_lt dt1 dt2 ->
  exists k,
    adjust_months (S fuel) dt_ltb (-1) dt1 dt2
      ((year dt1 - year dt2) * 12 + (month dt1 - month dt2)) = Some k /\
    0 <= k /\
    12 * year dt2 + month dt2 + k <= 12 * year dt1 + month dt1
      <= 12 * year dt2 + month dt2 + k + 1 /\
    ~ lex_lt dt1 (month_shift dt2 k) /\
    lex_lt dt1 (month_shift dt2 (k + 1)).
Proof.
  intros V1 V2 Hle.
  set (n0 := (year dt1 - year dt2) * 12 + (month dt1 - month dt2)).
  pose proof V1 as (Hm1 & Hd1 & Hu1). pose proof V2 as (Hm2 & Hd2 & Hu2).
  assert (Hn0 : 0 <= n0) by (unfold lex_lt in Hle; lia).
  cbn [adjust_months].
  rewrite rd_add_set_months by assumption.
  destruct (dt_ltb dt1 (month_shift dt2 n0)) eqn:Hover.
  - apply dt_ltb_iff in Hover.
    assert (Hpos : 1 <= n0).
    { destruct (Z.eq_dec n0 0) as [H0 |]; [| lia].
      rewrite H0, month_shift_0 in Hover by assumption. contradiction. }
    assert (Hback : ~ lex_lt dt1 (month_shift dt2 (n0 + -1))).
    { destruct (month_shift_fields dt2 (n0 + -1)) as (Hm & Hi & _ & _).
      unfold lex_lt. lia. }
    exists (n0 + -1). split.
    + apply adjust_months_stop.
      rewrite rd_add_set_months by (try assumption; lia).
      destruct (dt_ltb dt1 (month_shift dt2 (n0 + -1))) eqn:Hb;
        [apply dt_ltb_iff in Hb; contradiction | reflexivity].
    + split; [lia |]. split; [lia |]. split; [exact Hback |].
      now replace (n0 + -1 + 1) with n0 by lia.
  - exists n0. split; [reflexivity |]. split; [exact Hn0 |].
    split; [lia |]. split.
    + intros H. apply dt_ltb_iff in H. congruence.
    + destruct (month_shift_fields dt2 (n0 + 1)) as (Hm & Hi & _ & _).
      unfold lex_lt. lia.
Qed.

Lemma fix_nonneg (y mo s us : Z) :
  0 <= mo < 12 -> 0 <= s -> 0 <= us < 1000000 ->
  fix_ (mkrelativedelta y mo 0 0 0 s us)
  = mkrelativedelta y mo (s / 60 / 60 / 24) ((s / 60 / 60) mod 24)
                    ((s / 60) mod 60) (s mod 60) us.
Proof.
  intros Hmo Hs Hus. unfold fix_.
  cbn [microseconds seconds minutes hours days months years].
  rewrite (carry_nonneg us) by lia.
  rewrite (Z.div_small us), (Z.mod_small us) by lia.
  rewrite Z.add_0_r, (carry_nonneg s) by lia. cbn [Z.add].
  rewrite (carry_nonneg (s / 60)) by (try apply Z.div_pos; lia). cbn [Z.add].
  rewrite (carry_nonneg (s / 60 / 60))
    by (try (apply Z.div_pos; [apply Z.div_pos |]); lia).
  cbn [Z.add].
  rewrite (carry_nonneg mo) by lia.
  rewrite (Z.div_small mo), (Z.mod_small mo) by lia.
  now rewrite Z.add_0_r.
Qed.

Lemma whole_days (delta : Z) :
  delta / usec_per_second / 60 / 60 / 24 = delta / usec_per_day.
Proof.
  unfold usec_per_day, usec_per_second.
  rewrite !Z.div_div by lia. reflexivity.
Qed.

Lemma toordinal_same_month (a b : datetime) :
  year a = year b -> month a = month b ->
  toordinal a - toordinal b = day a - day b.
Proof. unfold toordinal. intros -> ->. lia. Qed.



Lemma toordinal_prev_month (a b : datetime) :
  1 <= month a <= 12 -> 1 <= month b <= 12 ->
  12 * year b + month b + 1 = 12 * year a + month a ->
  toordinal a - toordinal b
  = days_in_month (year b) (month b) - day b + day a.
Proof.
  destruct a as [ya ma da ua], b as [yb mb db ub].
  cbn [year month day usec]. intros Ha Hb Hidx.
  unfold toordinal. cbn [year month day usec].
  destruct (Z.eq_dec ma 1) as [-> | Hne].
  - assert (mb = 12) as -> by lia. assert (ya = yb + 1) as -> by lia.
    rewrite days_before_year_succ.
    unfold days_before_month, days_in_month.
    generalize (days_before_year yb) (is_leap yb) (is_leap (yb + 1)).
    intros D [|] [|]; eval_month_tests; lia.
  - assert (yb = ya) as -> by lia.
    assert (Hmb : mb = ma - 1) by lia.
    assert (Hma : ma = 2 \/ ma = 3 \/ ma = 4 \/ ma = 5 \/ ma = 6 \/ ma = 7
                  \/ ma = 8 \/ ma = 9 \/ ma = 10 \/ ma = 11 \/ ma = 12)
      by lia.
    unfold days_before_month, days_in_month.
    generalize (days_before_year ya) (is_leap ya). intros D l.
    repeat (destruct Hma as [-> | Hma]); try subst ma;
      cbn in Hmb; subst mb; destruct l; eval_month_tests; lia.
Qed.

(** From the latest monthly anniversary of [dt2] at or before [dt1] to
    [dt1] less than 31 days go by. *)
Lemma elapsed_bounds (dt1 dt2 : datetime) (k : Z) :
  valid dt1 -> valid dt2 ->
  12 * year dt2 + month dt2 + k <= 12 * year dt1 + month dt1
    <= 12 * year dt2 + month dt2 + k + 1 ->
  ~ lex_lt dt1 (month_shift dt2 k) ->
  lex_lt dt1 (month_shift dt2 (k + 1)) ->
  0 <= dt_sub dt1 (month_shift dt2 k) < 31 * usec_per_day.
Proof.
  intros (Hm1 & Hd1 & Hu1) (Hm2 & Hd2 & Hu2) Hidx Hle Hlt.
  destruct (month_shift_fields dt2 k) as (Hms & His & Hds & Hus).
  destruct (month_shift_fields dt2 (k + 1)) as (Hmn & Hin & Hdn & Hun).
  pose proof (days_in_month_bounds (year (month_shift dt2 k))
                (month (month_shift dt2 k))) as Hbs.
  pose proof (days_in_month_bounds (year (month_shift dt2 (k + 1)))
                (month (month_shift dt2 (k + 1)))) as Hbn.
  pose proof (days_in_month_bounds (year dt1) (month dt1)) as Hb1.
  unfold dt_sub.
  assert (Hcase : 12 * year dt1 + month dt1
                  = 12 * year (month_shift dt2 k) + month (month_shift dt2 k)
                  \/ 12 * year (month_shift dt2 k)
                     + month (month_shift dt2 k) + 1
                     = 12 * year dt1 + month dt1) by lia.
  unfold usec_per_day, usec_per_second in *.
  destruct Hcase as [Hsame | Hprev].
  - rewrite toordinal_same_month by lia.
    unfold lex_lt in Hle, Hlt. lia.
  - rewrite toordinal_prev_month by lia.
    assert (Hy : year (month_shift dt2 (k + 1)) = year dt1) by lia.
    assert (Hmo : month (month_shift dt2 (k + 1)) = month dt1) by lia.
    rewrite Hy, Hmo in *.
    unfold lex_lt in Hlt. lia.
Qed.

(** [relativedelta(dt1, dt2)] for [dt2] at or before [dt1]: [k] whole
    months have gone by, split into years and months, and [days] counts the
    whole days since the [k]-th monthly anniversary of [dt2]. *)
Lemma relativedelta_between_spec (dt1 dt2 : datetime) :
  valid dt1 -> valid dt2 -> ~ lex_lt dt1 dt2 ->
  exists k rd,
    relativedelta_between dt1 dt2 = Some rd /\
    0 <= k /\
    ~ lex_lt dt1 (month_shift dt2 k) /\
    lex_lt dt1 (month_shift dt2 (k + 1)) /\
    0 <= dt_sub dt1 (month_shift dt2 k) < 31 * usec_per_day /\
    years rd = k / 12 /\
    months rd = k mod 12 /\
    days rd = dt_sub dt1 (month_shift dt2 k) / usec_per_day.
Proof.
  intros V1 V2 Hle.
  destruct (adjust_settles dt1 dt2 15 V1 V2 Hle)
    as (k & Hk & Hk0 & Hidx & Hkle & Hklt).
  pose proof (elapsed_bounds dt1 dt2 k V1 V2 Hidx Hkle Hklt) as Hel.
  unfold relativedelta_between.
  assert (Hnlt : dt_ltb dt1 dt2 = false).
  { destruct (dt_ltb dt1 dt2) eqn:H; [| reflexivity].
    apply dt_ltb_iff in H. contradiction. }
  rewrite Hnlt. change adjust_fuel with 16%nat. rewrite Hk.
  pose proof V2 as (Hm2 & Hd2 & Hu2).
  rewrite rd_add_set_months by assumption.
  unfold set_months. rewrite carry_nonneg by lia.
  cbn [years months].
  rewrite fix_nonneg.
  - eexists k, _. split; [reflexivity |].
    cbn [years months days]. rewrite whole_days. now repeat split.
  - apply Z.mod_pos_bound. lia.
  - apply Z.div_pos; [lia | reflexivity].
  - apply Z.mod_pos_bound. reflexivity.
Qed.

Lemma rd_add_relativedelta_months (dt : datetime) (n : Z) :
  valid dt -> 0 <= n ->
  rd_add (relativedelta_months n) dt = month_shift dt n.
Proof.
  intros (Hm & _ & Hu) Hn. rewrite relativedelta_months_set.
  now apply rd_add_set_months.
Qed.

Lemma month_shift_le (dt : datetime) (a b : Z) :
  a <= b -> ~ lex_lt (month_shift dt b) (month_shift dt a).
Proof.
  intros Hab H. destruct (Z.eq_dec a b) as [-> | Hne].
  - exact (lex_lt_irrefl _ H).
  - apply (lex_lt_irrefl (month_shift dt a)).
    apply (lex_lt_trans _ (month_shift dt b)); [| exact H].
    apply month_shift_lt. lia.
Qed.

Lemma lex_lt_le_trans (a b c : datetime) :
  lex_lt a b -> ~ lex_lt c b -> lex_lt a c.
Proof. unfold lex_lt. lia. Qed.

Lemma whole_days_bounds (delta : Z) :
  delta / usec_per_day * usec_per_day <= delta
    < (delta / usec_per_day + 1) * usec_per_day.
Proof.
  unfold usec_per_day, usec_per_second.
  Z.to_euclidean_division_equations. lia.
Qed.




(** ** The threshold matcher *)

Lemma match_threshold_ascending (thresholds : list Z) (percent : Z) :
  StronglySorted Z.le thresholds ->
  forall acc : option Z,
    (forall a, acc = Some a ->
               a <= percent /\ Forall (Z.le a) thresholds) ->
    match match_threshold thresholds percent acc with
    | Some t =>
        (acc = Some t \/ In t thresholds) /\ t <= percent /\
        forall t', In t' thresholds -> t' <= percent -> t' <= t
    | None => acc = None /\ forall t', In t' thresholds -> percent < t'
    end.
Proof.
  induction 1 as [| t rest Hsorted IH Hall]; intros acc Hacc; simpl.
  - destruct acc as [a |].
    + destruct (Hacc a eq_refl) as [Ha _].
      split; [now left | split; [exact Ha | intros ? []]].
    + split; [reflexivity | intros ? []].
  - destruct (t >? percent) eqn:Hgt.
    + apply Z.gtb_lt in Hgt.
      assert (Hbelow : forall t', In t' (t :: rest) -> percent < t').
      { intros t' [<- | Hin]; [exact Hgt |].
        rewrite Forall_forall in Hall. specialize (Hall _ Hin). lia. }
      destruct acc as [a |].
      * destruct (Hacc a eq_refl) as [Ha _].
        split; [now left | split; [exact Ha |]].
        intros t' Hin Hle. specialize (Hbelow _ Hin). lia.
      * split; [reflexivity | exact Hbelow].
    + assert (Hle : t <= percent).
      { destruct (Z.gtb_spec t percent); [discriminate | lia]. }
      specialize (IH (Some t)).
      destruct (match_threshold rest percent (Some t)) as [r |].
      * destruct IH as [Hr [Hrle Hmax]].
        { intros a [= <-]. split; [exact Hle | exact Hall]. }
        assert (Htr : t <= r).
        { destruct Hr as [[= ->] | Hin]; [lia |].
          rewrite Forall_forall in Hall. exact (Hall _ Hin). }
        split; [right; destruct Hr as [[= ->] | Hin]; [now left | now right] |].
        split; [exact Hrle |].
        intros t' [<- | Hin] Ht'; [exact Htr | now apply Hmax].
      * destruct IH as [Hnone _]; [| discriminate].
        intros a [= <-]. split; [exact Hle | exact Hall].
Qed.

(** C1 (as stated, refuted): with thresholds in descending order the loop
    breaks at the first threshold above the usage percent, so a usage of
    95% against [100; 90; 75; 50] matches nothing although 90 is at or
    below it. *)
Lemma matcher_descending_counterexample :
  StronglySorted Z.ge [100; 90; 75; 50] /\
  0 < 1000 /\
  api_usage_percent 950 1000 = Ok 95 /\
  matched_threshold [100; 90; 75; 50] 95 = None /\
  ~ max_threshold_at_or_below [100; 90; 75; 50] 95
      (matched_threshold [100; 90; 75; 50] 95).
Proof.
  split; [repeat constructor; lia |].
  split; [lia |].
  split; [reflexivity |].
  split; [reflexivity |].
  cbn. intros H. specialize (H 90). cbn in H.
  assert (95 < 90) by (apply H; tauto). lia.
Qed.

(** The scenario of 950 calls against a limit of 1000: the flow notifies
    at 90% with ascending thresholds and stays silent with descending
    ones. *)
Example descending_thresholds_stay_silent :
  notifications
    (snd (_handle_api_usage_notifications Samples.ascending
            (Samples.quiet 950) IdempotenceSample.now
            IdempotenceSample.sent_at IdempotenceSample.organisation
            Samples.empty_world))
    = [mkNotification 1 90 IdempotenceSample.sent_at] /\
  _handle_api_usage_notifications Samples.descending (Samples.quiet 950)
    IdempotenceSample.now IdempotenceSample.sent_at
    IdempotenceSample.organisation Samples.empty_world
    = (Ok tt, Samples.empty_world).
Proof. split; reflexivity. Qed.

(** The binary64 quotient can round up across an integer: for 1799999999999999
    calls against a limit of 1999999999999999 the exact percent is 89 and
    the computed one is 90, so the matcher answers 90 where the greatest
    threshold at or below the exact percent is 75. *)
Example percent_rounds_up_beyond_2_53 :
  Z.quot (100 * 1799999999999999) 1999999999999999 = 89 /\
  api_usage_percent 1799999999999999 1999999999999999 = Ok 90 /\
  matched_threshold [50; 75; 90; 100] 90 = Some 90 /\
  matched_threshold [50; 75; 90; 100] 89 = Some 75.
Proof. repeat split; vm_compute; reflexivity. Qed.

(** C1 (amended): for every usage count, positive limit and threshold
    sequence sorted in ascending order, the matcher returns the greatest
    threshold at or below the integer usage percent the division yields, or
    nothing when that percent is below every threshold.  The division can
    fail by overflow only; it returns whenever [100 * usage_count] is below
    [2^1023], and its integer part is the exact truncated quotient
    whenever [100 * usage_count] is below [2^53]. *)
Theorem matcher_ascending_max (usage_count limit : Z) (thresholds : list Z) :
  0 < limit ->
  StronglySorted Z.le thresholds ->
  match api_usage_percent usage_count limit with
  | Ok percent =>
      max_threshold_at_or_below thresholds percent
        (matched_threshold thresholds percent)
  | Raise e => e = OverflowError
  end /\
  (0 <= 100 * usage_count < 2 ^ 1023 ->
   exists percent, api_usage_percent usage_count limit = Ok percent) /\
  (0 <= 100 * usage_count < 2 ^ 53 ->
   api_usage_percent usage_count limit
   = Ok (Z.quot (100 * usage_count) limit)).
Proof.
  intros Hlimit Hsorted.
  split; [| split].
  - unfold api_usage_percent, div.
    destruct (truediv (100 * usage_count) limit) as [x | |] eqn:Hq;
      [| apply truediv_DivisionByZero in Hq; lia | reflexivity].
    unfold matched_threshold, max_threshold_at_or_below.
    pose proof (match_threshold_ascending thresholds (truncate x)
                  Hsorted None) as H.
    destruct (match_threshold thresholds _ None) as [t |].
    + destruct H as [[Hacc | Hin] [Hle Hmax]]; [discriminate | discriminate |].
      now repeat split.
    + destruct H as [_ H]; [discriminate | exact H].
  - intros Hb. now apply api_usage_percent_returns.
  - intros Hb. now apply api_usage_percent_exact.
Qed.

Lemma matcher_ascending_max_witness :
  match api_usage_percent 950 1000 with
  | Ok percent =>
      max_threshold_at_or_below [50; 75; 90; 100] percent
        (matched_threshold [50; 75; 90; 100] percent)
  | Raise e => e = OverflowError
  end /\
  (0 <= 100 * 950 < 2 ^ 1023 ->
   exists percent, api_usage_percent 950 1000 = Ok percent) /\
  (0 <= 100 * 950 < 2 ^ 53 ->
   api_usage_percent 950 1000 = Ok (Z.quot (100 * 950) 1000)).
Proof.
  apply (matcher_ascending_max 950 1000 [50; 75; 90; 100]).
  - lia.
  - repeat constructor; lia.
Defined.

(** ** The notification gate *)

Section NotificationGate.
Variable K : constants.
Variable E : collaborators.

Lemma send_api_usage_notification_run sent_at organisation t w :
  send_api_usage_notification E sent_at organisation t w =
  match send_mail E (notification_mail organisation t) with
  | Ok _ => (Ok tt, notified_world sent_at organisation t w)
  | Raise e => (Raise e, w)
  end.
Proof.
  unfold send_api_usage_notification, notified_world, notification_mail,
    bind, lift.
  destruct (t <? 100);
    match goal with
    | |- context [send_mail E ?m] => destruct (send_mail E m) as [[] | e]
    end; reflexivity.
Qed.

(** Once the period, the usage and the matched threshold are known, the
    flow is the gate followed by the send. *)
Lemma handle_decided now sent_at organisation w ps days limit usage
    percent t :
  usage_period now organisation = Period ps days limit ->
  get_current_api_usage E (id organisation) (date_range days) = Ok usage ->
  api_usage_percent usage limit = Ok percent ->
  matched_threshold (API_USAGE_ALERT_THRESHOLDS K) percent = Some t ->
  _handle_api_usage_notifications K E now sent_at organisation w =
  if already_notified (notifications w) ps t then (Ok tt, w)
  else send_api_usage_notification E sent_at organisation t w.
Proof.
  intros Hp Hu Hpc Hm.
  unfold _handle_api_usage_notifications.
  rewrite Hp. unfold bind at 1, lift at 1. rewrite Hu.
  unfold bind at 1, lift at 1. rewrite Hpc. rewrite Hm.
  unfold bind, get_notifications.
  destruct (already_notified (notifications w) ps t); reflexivity.
Qed.

(** A run that changes the notification table went through every stage:
    the period resolved, the usage query answered, a threshold matched,
    the gate was open and the mailer returned. *)
Lemma handle_insert_inv now sent_at organisation w r w' :
  _handle_api_usage_notifications K E now sent_at organisation w
    = (r, w') ->
  notifications w' <> notifications w ->
  exists ps days limit usage percent t,
    usage_period now organisation = Period ps days limit /\
    get_current_api_usage E (id organisation) (date_range days)
      = Ok usage /\
    api_usage_percent usage limit = Ok percent /\
    matched_threshold (API_USAGE_ALERT_THRESHOLDS K) percent = Some t /\
    already_notified (notifications w) ps t = false /\
    r = Ok tt /\
    w' = notified_world sent_at organisation t w.
Proof.
  intros Hrun Hn.
  assert (Hsame : forall x : result unit, (x, w) = (r, w') -> False)
    by (intros x [= _ <-]; now apply Hn).
  unfold _handle_api_usage_notifications in Hrun.
  destruct (usage_period now organisation) as [ps days limit | |] eqn:Hp.
  2: { unfold logger in Hrun. injection Hrun as _ <-. now elim Hn. }
  2: { exfalso. exact (Hsame _ Hrun). }
  unfold bind at 1, lift at 1 in Hrun.
  destruct (get_current_api_usage E (id organisation) (date_range days))
    as [usage | e] eqn:Hu; [| exfalso; exact (Hsame _ Hrun)].
  unfold bind at 1, lift at 1 in Hrun.
  destruct (api_usage_percent usage limit) as [percent | e] eqn:Hpc;
    [| exfalso; exact (Hsame _ Hrun)].
  destruct (matched_threshold (API_USAGE_ALERT_THRESHOLDS K) percent)
    as [t |] eqn:Hm; [| exfalso; exact (Hsame _ Hrun)].
  unfold bind at 1, get_notifications in Hrun.
  destruct (already_notified (notifications w) ps t) eqn:Hgate;
    [exfalso; exact (Hsame _ Hrun) |].
  rewrite send_api_usage_notification_run in Hrun.
  destruct (send_mail E (notification_mail organisation t)) as [[] | e];
    [| exfalso; exact (Hsame _ Hrun)].
  injection Hrun as <- <-.
  exists ps, days, limit, usage, percent, t. now repeat split.
Qed.


Lemma already_notified_app rows row ps t :
  already_notified (rows ++ [row]) ps t =
  already_notified rows ps t
  || (dt_gtb (notified_at row) ps && (t <=? percent_usage row)).
Proof.
  unfold already_notified. rewrite existsb_app. simpl.
  now rewrite orb_false_r.
Qed.

End NotificationGate.

(** C3: the already-notified check looks at the rows of every
    organisation.  A row of another organisation, stamped after the period
    start of the organisation being processed and at or above its matched
    threshold, makes the flow return with nothing sent and nothing
    inserted. *)
Theorem gate_not_scoped_to_organisation (K : constants) (E : collaborators)
    (now sent_at : datetime) (organisation : Organisation) (w : world)
    (ps : datetime) (days limit usage percent t : Z)
    (row : OrganisationAPIUsageNotification) :
  usage_period now organisation = Period ps days limit ->
  get_current_api_usage E (id organisation) (date_range days) = Ok usage ->
  api_usage_percent usage limit = Ok percent ->
  matched_threshold (API_USAGE_ALERT_THRESHOLDS K) percent = Some t ->
  In row (notifications w) ->
  organisation_id row <> id organisation ->
  dt_gtb (notified_at row) ps = true ->
  t <= percent_usage row ->
  _handle_api_usage_notifications K E now sent_at organisation w
    = (Ok tt, w).
Proof.
  intros Hp Hu Hpc Hm Hin _ Hafter Hge.
  rewrite (handle_decided K E now sent_at organisation w ps days limit
             usage percent t Hp Hu Hpc Hm).
  assert (Hgate : already_notified (notifications w) ps t = true).
  { unfold already_notified. apply existsb_exists. exists row.
    split; [exact Hin |]. rewrite Hafter. now apply Z.leb_le. }
  now rewrite Hgate.
Qed.

Lemma gate_not_scoped_to_organisation_witness :
  _handle_api_usage_notifications Samples.ascending (Samples.quiet 950)
    CrossOrganisationSample.now CrossOrganisationSample.sent_at
    CrossOrganisationSample.organisation_a CrossOrganisationSample.w
  = (Ok tt, CrossOrganisationSample.w).
Proof.
  apply (gate_not_scoped_to_organisation Samples.ascending
           (Samples.quiet 950) CrossOrganisationSample.now
           CrossOrganisationSample.sent_at
           CrossOrganisationSample.organisation_a CrossOrganisationSample.w
           (mkdatetime 2024 2 19 0) 30 1000 950 95 90
           CrossOrganisationSample.row_b).
  - reflexivity.
  - reflexivity.
  - reflexivity.
  - reflexivity.
  - simpl. now left.
  - simpl. lia.
  - reflexivity.
  - simpl. lia.
Defined.

(** Without the row of the other organisation the same run notifies. *)
Example gate_open_without_foreign_row :
  notifications
    (snd (_handle_api_usage_notifications Samples.ascending
            (Samples.quiet 950) CrossOrganisationSample.now
            CrossOrganisationSample.sent_at
            CrossOrganisationSample.organisation_a Samples.empty_world))
  = [mkNotification 1 90 CrossOrganisationSample.sent_at].
Proof. reflexivity. Qed.

(** ** The overage biller *)

Lemma plan_call_kind (K : constants) (organisation : Organisation)
    (count : Z) (call : billing_call) :
  plan_call K organisation count = Some call ->
  let p := plan (subscription organisation) in
  let sid := subscription_id (subscription organisation) in
  (call = ScaleUpCall sid count /\ (p = SCALE_UP K \/ p = SCALE_UP_V2 K)) \/
  (call = StartUpCall sid count /\ (p = STARTUP K \/ p = STARTUP_V2 K) /\
   p <> SCALE_UP K /\ p <> SCALE_UP_V2 K).
Proof.
  unfold plan_call. cbn zeta.
  destruct (String.eqb_spec (plan (subscription organisation)) (SCALE_UP K));
    [intros [= <-]; left; tauto |].
  destruct (String.eqb_spec (plan (subscription organisation))
              (SCALE_UP_V2 K)); [intros [= <-]; left; tauto |].
  destruct (String.eqb_spec (plan (subscription organisation)) (STARTUP K));
    [intros [= <-]; right; tauto |].
  destruct (String.eqb_spec (plan (subscription organisation))
              (STARTUP_V2 K)); [intros [= <-]; right; tauto |].
  discriminate.
Qed.

Lemma plan_call_none (K : constants) (organisation : Organisation)
    (count : Z) :
  plan_call K organisation count = None <->
  let p := plan (subscription organisation) in
  p <> SCALE_UP K /\ p <> SCALE_UP_V2 K /\ p <> STARTUP K /\
  p <> STARTUP_V2 K.
Proof.
  unfold plan_call. cbn zeta.
  destruct (String.eqb_spec (plan (subscription organisation)) (SCALE_UP K));
    [split; [discriminate | tauto] |].
  destruct (String.eqb_spec (plan (subscription organisation))
              (SCALE_UP_V2 K)); [split; [discriminate | tauto] |].
  destruct (String.eqb_spec (plan (subscription organisation)) (STARTUP K));
    [split; [discriminate | tauto] |].
  destruct (String.eqb_spec (plan (subscription organisation))
              (STARTUP_V2 K)); [split; [discriminate | tauto] |].
  cbn. tauto.
Qed.

Lemma plan_call_none_any (K : constants) (organisation : Organisation)
    (count count' : Z) :
  plan_call K organisation count = None ->
  plan_call K organisation count' = None.
Proof. intros H. apply plan_call_none. now apply plan_call_none in H. Qed.

Section OverageBiller.
Variable K : constants.
Variable E : collaborators.

Lemma sum_from (l : list Z) (a : Z) : fold_left Z.add l a = a + sum l.
Proof.
  unfold sum. revert a.
  induction l as [| x l IH]; intros a; simpl; [lia |].
  rewrite IH, (IH x). lia.
Qed.

Lemma sum_app (l l' : list Z) : sum (l ++ l') = sum l + sum l'.
Proof.
  unfold sum at 1. rewrite fold_left_app. rewrite sum_from.
  fold (sum l). lia.
Qed.

Lemma sum_single (x : Z) : sum [x] = x.
Proof. reflexivity. Qed.

(** A new row counts toward the previous overage exactly when it is
    billed at or after the start of the term, whoever it was billed
    for. *)
Lemma previous_api_overage_app rows row starts_at :
  previous_api_overage (rows ++ [row]) starts_at =
  previous_api_overage rows starts_at
  + (if dt_geb (billed_at row) starts_at then api_overage row else 0).
Proof.
  unfold previous_api_overage, api_billings.
  rewrite filter_app, map_app, sum_app. simpl.
  destruct (dt_geb (billed_at row) starts_at); simpl.
  - now rewrite sum_single.
  - reflexivity.
Qed.

(** The biller once the feature gate, the cache and the usage are
    known and the usage is at or above the 200% grace threshold. *)
Lemma charge_organisation_past_grace now organisation c usage w :
  is_feature_enabled E organisation "api_usage_overage_charges"
    = Ok true ->
  subscription_information_cache organisation = Some c ->
  get_current_api_usage E (id organisation) "30d" = Ok usage ->
  below_grace usage (allowed_30d_api_calls c) = Ok false ->
  computed_overage c usage w <= 0 ->
  charge_organisation K E now organisation w =
  logger LogBelowLimit w.
Proof.
  intros Hf Hc Hu Hg Hov.
  unfold charge_organisation.
  unfold bind at 1, lift at 1. rewrite Hf. cbn [negb]. rewrite Hc.
  unfold bind at 1, lift at 1. rewrite Hu.
  unfold bind at 1, lift at 1. rewrite Hg.
  unfold bind at 1, get_billings.
  unfold computed_overage in Hov.
  apply Z.leb_le in Hov. now rewrite Hov.
Qed.

(** The biller past the grace check with a positive overage. *)
Lemma charge_organisation_overage now organisation c usage w :
  is_feature_enabled E organisation "api_usage_overage_charges"
    = Ok true ->
  subscription_information_cache organisation = Some c ->
  get_current_api_usage E (id organisation) "30d" = Ok usage ->
  below_grace usage (allowed_30d_api_calls c) = Ok false ->
  0 < computed_overage c usage w ->
  charge_organisation K E now organisation w =
  match plan_call K organisation 0 with
  | None =>
      (Ok tt, with_log (LogUnableToBill (plan (subscription organisation))) w)
  | Some _ =>
      match ceil_100k (computed_overage c usage w) with
      | Raise e => (Raise e, w)
      | Ok count =>
          match plan_call K organisation count with
          | None => (Ok tt, w)
          | Some call =>
              match run_call E call with
              | Ok _ => (Ok tt, billed_world now organisation call count w)
              | Raise e => (Raise e, w)
              end
          end
      end
  end.
Proof.
  intros Hf Hc Hu Hg Hov.
  unfold charge_organisation.
  unfold bind at 1, lift at 1. rewrite Hf. cbn [negb]. rewrite Hc.
  unfold bind at 1, lift at 1. rewrite Hu.
  unfold bind at 1, lift at 1. rewrite Hg.
  unfold bind at 1, get_billings.
  fold (computed_overage c usage w).
  destruct (Z.leb_spec (computed_overage c usage w) 0) as [Hle | _];
    [lia |].
  unfold plan_call.
  destruct ((plan (subscription organisation) =? SCALE_UP K)%string
            || (plan (subscription organisation) =? SCALE_UP_V2 K)%string).
  - cbn [run_call]. unfold bind, lift, record_billing_call, create_billing.
    destruct (ceil_100k (computed_overage c usage w)) as [count | e];
      [| reflexivity].
    destruct (add_100k_api_calls_scale_up E _ _) as [[] | e]; reflexivity.
  - destruct ((plan (subscription organisation) =? STARTUP K)%string
              || (plan (subscription organisation) =? STARTUP_V2 K)%string).
    + cbn [run_call]. unfold bind, lift, record_billing_call, create_billing.
      destruct (ceil_100k (computed_overage c usage w)) as [count | e];
        [| reflexivity].
      destruct (add_100k_api_calls_start_up E _ _) as [[] | e]; reflexivity.
    + reflexivity.
Qed.

(** Every run of the biller for one organisation ends in one of the ways
    of [charge_outcome]. *)
Lemma charge_organisation_outcome now organisation w :
  charge_outcome K E now organisation w
    (charge_organisation K E now organisation w).
Proof.
  destruct (is_feature_enabled E organisation "api_usage_overage_charges")
    as [[|] | e] eqn:Hf.
  2: { replace (charge_organisation K E now organisation w) with (Ok tt, w)
         by (unfold charge_organisation, bind, lift; now rewrite Hf).
       now apply FlagOff. }
  2: { replace (charge_organisation K E now organisation w)
         with (@Raise unit e, w)
         by (unfold charge_organisation, bind, lift; now rewrite Hf).
       now apply FlagRaises. }
  destruct (subscription_information_cache organisation) as [c |] eqn:Hc.
  2: { replace (charge_organisation K E now organisation w)
         with (@Raise unit (OtherError "RelatedObjectDoesNotExist"), w)
         by (unfold charge_organisation, bind, lift; now rewrite Hf, Hc).
       now apply NoCache. }
  destruct (get_current_api_usage E (id organisation) "30d")
    as [usage | e] eqn:Hu.
  2: { replace (charge_organisation K E now organisation w)
         with (@Raise unit e, w)
         by (unfold charge_organisation, bind, lift; now rewrite Hf, Hc, Hu).
       now apply (UsageRaises K E now organisation w c). }
  destruct (below_grace usage (allowed_30d_api_calls c))
    as [[|] | e] eqn:Hg.
  - replace (charge_organisation K E now organisation w)
      with (Ok tt, with_log LogBelowGrace w)
      by (unfold charge_organisation, bind, lift;
          now rewrite Hf, Hc, Hu, Hg).
    now apply (InGrace K E now organisation w c usage).
  - destruct (Z.leb_spec (computed_overage c usage w) 0) as [Hle | Hov].
    + rewrite (charge_organisation_past_grace now organisation c usage w
                 Hf Hc Hu Hg Hle).
      now apply (WithinLimit K E now organisation w c usage).
    + rewrite (charge_organisation_overage now organisation c usage w
                 Hf Hc Hu Hg Hov).
      destruct (plan_call K organisation 0) as [call0 |] eqn:Hp0.
      2: { now apply (UnsupportedPlan K E now organisation w c usage). }
      destruct (ceil_100k (computed_overage c usage w)) as [count | e]
        eqn:Hceil.
      2: { now apply (CeilRaises K E now organisation w c usage call0). }
      destruct (plan_call K organisation count) as [call |] eqn:Hpc.
      2: { apply (plan_call_none_any K organisation count 0) in Hpc.
           congruence. }
      destruct (run_call E call) as [[] | e] eqn:Hcall.
      * now apply (Charged K E now organisation w c usage count call).
      * now apply (CallRaises K E now organisation w c usage count call).
  - replace (charge_organisation K E now organisation w)
      with (@Raise unit e, w)
      by (unfold charge_organisation, bind, lift;
          now rewrite Hf, Hc, Hu, Hg).
    now apply (GraceRaises K E now organisation w c usage).
Qed.

End OverageBiller.

Section OverageBillerRuns.
Variable K : constants.
Variable E : collaborators.

(** A run of the biller that changes the billing table went through
    every stage and recorded the rounded overage. *)
Lemma charge_insert_inv now organisation w r w' :
  charge_organisation K E now organisation w = (r, w') ->
  billings w' <> billings w ->
  exists c usage count call,
    is_feature_enabled E organisation "api_usage_overage_charges"
      = Ok true /\
    subscription_information_cache organisation = Some c /\
    get_current_api_usage E (id organisation) "30d" = Ok usage /\
    below_grace usage (allowed_30d_api_calls c) = Ok false /\
    0 < computed_overage c usage w /\
    ceil_100k (computed_overage c usage w) = Ok count /\
    plan_call K organisation count = Some call /\
    r = Ok tt /\
    w' = billed_world now organisation call count w.
Proof.
  intros Hrun Hchanged.
  pose proof (charge_organisation_outcome K E now organisation w) as Hout.
  rewrite Hrun in Hout.
  inversion Hout; subst; try (now elim Hchanged).
  exists c, usage, count, call. now repeat split.
Qed.

Lemma sum_filter_le (f : OrganisationAPIBilling -> bool)
    (rows : list OrganisationAPIBilling) :
  Forall (fun ap => 0 <= api_overage ap) rows ->
  sum (map api_overage (filter f rows)) <= sum (map api_overage rows).
Proof.
  induction 1 as [| ap rows Hap _ IH]; simpl; [lia |].
  destruct (f ap); simpl.
  - change (api_overage ap :: map api_overage (filter f rows))
      with ([api_overage ap] ++ map api_overage (filter f rows)).
    change (api_overage ap :: map api_overage rows)
      with ([api_overage ap] ++ map api_overage rows).
    rewrite !sum_app. lia.
  - change (api_overage ap :: map api_overage rows)
      with ([api_overage ap] ++ map api_overage rows).
    rewrite sum_app, sum_single. lia.
Qed.

Lemma organisation_overage_le rows organisation starts_at :
  Forall (fun ap => 0 <= api_overage ap) rows ->
  organisation_overage rows organisation starts_at
  <= previous_api_overage rows starts_at.
Proof.
  intros Hall. unfold organisation_overage, previous_api_overage.
  apply sum_filter_le. unfold api_billings.
  rewrite Forall_forall in *. intros ap Hin.
  apply filter_In in Hin. now apply Hall.
Qed.

End OverageBillerRuns.

(** C4 (code bug): the row is written "to avoid double billing on a
    subsequent task run", but the number of units is the ceiling of a
    binary64 quotient.  For an overage of 13743895347200001 calls the
    quotient rounds to [2^37], the row records 13743895347200000 calls, one
    less than the overage, and a second pass of the task with the same
    usage finds an overage of 1 and bills one more unit. *)
Theorem rounded_overage_billed_again :
  computed_overage BillingSample.cache RoundingSample.usage
    FurtherSample.breached = 13743895347200001 /\
  ceil_100k 13743895347200001 = Ok 137438953472 /\
  fst RoundingSample.first_run = Ok tt /\
  billings (snd RoundingSample.first_run)
    = [mkBilling 1 13743895347200000 false BillingSample.now] /\
  billing_calls (snd RoundingSample.first_run)
    = [ScaleUpCall "sub-1" 137438953472] /\
  computed_overage BillingSample.cache RoundingSample.usage
    (snd RoundingSample.first_run) = 1 /\
  fst RoundingSample.second_run = Ok tt /\
  billings (snd RoundingSample.second_run)
    = [mkBilling 1 13743895347200000 false BillingSample.now;
       mkBilling 1 100000 false BillingSample.now] /\
  billing_calls (snd RoundingSample.second_run)
    = [ScaleUpCall "sub-1" 137438953472; ScaleUpCall "sub-1" 1].
Proof. repeat split; vm_compute; reflexivity. Qed.

(** The grace check rounds as well: a usage of [2^54 - 1] against an
    allowance of [2^53] is below twice the allowance, and the quotient
    rounds to 2.0, so the check does not hold. *)
Example grace_check_rounds_up_beyond_2_53 :
  (2 ^ 54 - 1 <? 2 * 2 ^ 53) = true /\
  below_grace (2 ^ 54 - 1) (2 ^ 53) = Ok false.
Proof. split; vm_compute; reflexivity. Qed.

(** X27: once a run of the biller has recorded the rounded overage of an
    organisation inside its billing term, the overage being below [2^53],
    a further run with the same measured usage computes an overage of zero
    or less, makes no billing call and inserts no row. *)
Theorem overage_not_billed_twice (K : constants) (E : collaborators)
    (now now' : datetime) (organisation : Organisation)
    (c : OrganisationSubscriptionInformationCache) (usage : Z)
    (w w1 : world) (r1 : result unit) :
  subscription_information_cache organisation = Some c ->
  dt_leb (current_billing_term_starts_at c) now = true ->
  get_current_api_usage E (id organisation) "30d" = Ok usage ->
  computed_overage c usage w < 2 ^ 53 ->
  charge_organisation K E now organisation w = (r1, w1) ->
  billings w1 <> billings w ->
  exists count w2,
    ceil_100k (computed_overage c usage w) = Ok count /\
    billings w1
      = billings w
        ++ [mkBilling (id organisation) (100000 * count) false now] /\
    computed_overage c usage w1 <= 0 /\
    charge_organisation K E now' organisation w1 = (Ok tt, w2) /\
    billings w2 = billings w1 /\
    billing_calls w2 = billing_calls w1.
Proof.
  intros Hc Hterm Hu Hbound Hrun Hchanged.
  destruct (charge_insert_inv K E _ _ _ _ _ Hrun Hchanged)
    as (c' & usage' & count & call
        & Hf & Hc' & Hu' & Hg & Hov & Hceil & _ & -> & ->).
  rewrite Hc in Hc'. injection Hc' as <-.
  rewrite Hu in Hu'. injection Hu' as <-.
  destruct (ceil_100k_exact (computed_overage c usage w) ltac:(lia))
    as (count' & Hceil' & Hb).
  rewrite Hceil in Hceil'. injection Hceil' as <-.
  assert (Hov1 : computed_overage c usage
                   (billed_world now organisation call count w) <= 0).
  { unfold computed_overage at 1. cbn [billed_world billings].
    rewrite previous_api_overage_app. cbn [billed_at api_overage].
    unfold dt_geb. rewrite Hterm.
    unfold computed_overage in Hb |- *. lia. }
  exists count. eexists. split; [exact Hceil |]. split; [reflexivity |].
  split; [exact Hov1 |].
  rewrite (charge_organisation_past_grace K E now' organisation c usage _
             Hf Hc Hu Hg Hov1).
  unfold logger. cbn [billings billing_calls]. now repeat split.
Qed.

Lemma overage_not_billed_twice_witness :
  exists count w2,
    ceil_100k (computed_overage BillingSample.cache 2100 Samples.empty_world)
      = Ok count /\
    billings (snd BillingSample.first_run)
      = billings Samples.empty_world
        ++ [mkBilling (id BillingSample.organisation) (100000 * count)
                      false BillingSample.now] /\
    computed_overage BillingSample.cache 2100
      (snd BillingSample.first_run) <= 0 /\
    charge_organisation Samples.ascending (Samples.quiet 2100)
      BillingSample.now BillingSample.organisation
      (snd BillingSample.first_run) = (Ok tt, w2) /\
    billings w2 = billings (snd BillingSample.first_run) /\
    billing_calls w2 = billing_calls (snd BillingSample.first_run).
Proof.
  apply (overage_not_billed_twice Samples.ascending (Samples.quiet 2100)
           BillingSample.now BillingSample.now BillingSample.organisation
           BillingSample.cache 2100 Samples.empty_world
           (snd BillingSample.first_run) (fst BillingSample.first_run)).
  - reflexivity.
  - reflexivity.
  - reflexivity.
  - vm_compute. reflexivity.
  - vm_compute. reflexivity.
  - vm_compute. discriminate.
Defined.



(** A row billed before the start of the term is left out of the sum, and
    a row billed for another organisation inside the term is counted. *)
Example previous_overage_by_date :
  previous_api_overage
    [mkBilling 2 300000 false (Samples.at_midnight 2024 2 20);
     mkBilling 2 100000 false (Samples.at_midnight 2024 2 21);
     mkBilling 1 200000 false (Samples.at_midnight 2024 3 1)]
    BillingSample.starts = 300000.
Proof. reflexivity. Qed.

(** With no row in the table the organisation of the sample is charged;
    the row of the other organisation alone cancels the charge. *)
Example foreign_row_cancels_charge :
  billings (snd BillingSample.first_run)
    = [mkBilling 1 100000 false BillingSample.now] /\
  billings
    (snd (charge_organisation Samples.ascending (Samples.quiet 2100)
            BillingSample.now BillingSample.organisation
            (with_billing BillingSample.foreign_row Samples.empty_world)))
    = [BillingSample.foreign_row].
Proof. split; reflexivity. Qed.

(** Two passes of the whole task over the sample table: the first
    charges one unit of 100000 calls, the second only logs. *)
Example second_pass_bills_nothing :
  let w0 :=
    mkWorld [mkNotification 1 100 (Samples.at_midnight 2024 3 10)]
            [] [] [] [] in
  let pass :=
    charge_for_api_call_count_overages Samples.ascending
      (Samples.quiet 2100) BillingSample.now [BillingSample.organisation] in
  billing_calls (snd (pass w0)) = [ScaleUpCall "sub-1" 1] /\
  billings (snd (pass w0)) = [mkBilling 1 100000 false BillingSample.now] /\
  billing_calls (snd (pass (snd (pass w0)))) = [ScaleUpCall "sub-1" 1] /\
  billings (snd (pass (snd (pass w0))))
    = [mkBilling 1 100000 false BillingSample.now] /\
  log (snd (pass (snd (pass w0)))) = [LogBelowLimit].
Proof. repeat split; reflexivity. Qed.

(** C6 (as stated, refuted): a measured usage of 2100 against an allowance
    of 1000 is an overage of 1100, and the charge recorded for it is
    100000: more than the measured overage, and more than the usage. *)
Lemma recorded_overage_exceeds_measured :
  fst BillingSample.first_run = Ok tt /\
  organisation_overage (billings (snd BillingSample.first_run))
    BillingSample.organisation BillingSample.starts = 100000 /\
  ~ (organisation_overage (billings (snd BillingSample.first_run))
       BillingSample.organisation BillingSample.starts
     <= 2100 - allowed_30d_api_calls BillingSample.cache) /\
  ~ (organisation_overage (billings (snd BillingSample.first_run))
       BillingSample.organisation BillingSample.starts <= 2100).
Proof.
  split; [reflexivity |]. split; [reflexivity |].
  split; vm_compute; intros H; now apply H.
Qed.

(** C6 (amended): right after a charge of an overage below [2^53], the
    overage recorded in the rows billed since the start of the term covers
    the measured overage (usage minus allowance) and exceeds it by less
    than one 100000-unit increment; the same upper bound holds for the rows
    of the organisation alone when no row of the table is negative. *)
Theorem recorded_overage_within_one_increment (K : constants)
    (E : collaborators) (now : datetime) (organisation : Organisation)
    (c : OrganisationSubscriptionInformationCache) (usage : Z)
    (w w1 : world) (r1 : result unit) :
  subscription_information_cache organisation = Some c ->
  dt_leb (current_billing_term_starts_at c) now = true ->
  get_current_api_usage E (id organisation) "30d" = Ok usage ->
  computed_overage c usage w < 2 ^ 53 ->
  charge_organisation K E now organisation w = (r1, w1) ->
  billings w1 <> billings w ->
  usage - allowed_30d_api_calls c
    <= previous_api_overage (billings w1)
         (current_billing_term_starts_at c)
    < usage - allowed_30d_api_calls c + 100000 /\
  (Forall (fun ap => 0 <= api_overage ap) (billings w) ->
   organisation_overage (billings w1) organisation
     (current_billing_term_starts_at c)
   < usage - allowed_30d_api_calls c + 100000).
Proof.
  intros Hc Hterm Hu Hbound Hrun Hchanged.
  destruct (charge_insert_inv K E _ _ _ _ _ Hrun Hchanged)
    as (c' & usage' & count & call
        & Hf & Hc' & Hu' & Hg & Hov & Hceil & _ & -> & ->).
  rewrite Hc in Hc'. injection Hc' as <-.
  rewrite Hu in Hu'. injection Hu' as <-.
  destruct (ceil_100k_exact (computed_overage c usage w) ltac:(lia))
    as (count' & Hceil' & Hb).
  rewrite Hceil in Hceil'. injection Hceil' as <-.
  assert (Htotal :
            usage - allowed_30d_api_calls c
            <= previous_api_overage
                 (billings (billed_world now organisation call count w))
                 (current_billing_term_starts_at c)
            < usage - allowed_30d_api_calls c + 100000).
  { cbn [billed_world billings]. rewrite previous_api_overage_app.
    cbn [billed_at api_overage]. unfold dt_geb. rewrite Hterm.
    unfold computed_overage in Hb, Hov |- *. lia. }
  split; [exact Htotal |].
  intros Hall.
  eapply Z.le_lt_trans; [apply organisation_overage_le | apply Htotal].
  cbn [billed_world billings]. apply Forall_app. split; [exact Hall |].
  constructor; [| constructor]. cbn [api_overage]. lia.
Qed.

Lemma recorded_overage_within_one_increment_witness :
  2100 - allowed_30d_api_calls BillingSample.cache
    <= previous_api_overage (billings (snd BillingSample.first_run))
         (current_billing_term_starts_at BillingSample.cache)
    < 2100 - allowed_30d_api_calls BillingSample.cache + 100000 /\
  (Forall (fun ap => 0 <= api_overage ap) (billings Samples.empty_world) ->
   organisation_overage (billings (snd BillingSample.first_run))
     BillingSample.organisation
     (current_billing_term_starts_at BillingSample.cache)
   < 2100 - allowed_30d_api_calls BillingSample.cache + 100000).
Proof.
  apply (recorded_overage_within_one_increment Samples.ascending
           (Samples.quiet 2100) BillingSample.now BillingSample.organisation
           BillingSample.cache 2100 Samples.empty_world
           (snd BillingSample.first_run) (fst BillingSample.first_run)).
  - reflexivity.
  - reflexivity.
  - reflexivity.
  - vm_compute. reflexivity.
  - vm_compute. reflexivity.
  - vm_compute. discriminate.
Defined.

(** ** Division by a zero limit *)

Lemma usage_period_limit (now : datetime) (organisation : Organisation)
    (ps : datetime) (days limit : Z) :
  usage_period now organisation = Period ps days limit ->
  limit = if is_free_plan (subscription organisation)
          then max_api_calls (subscription organisation)
          else match subscription_information_cache organisation with
               | Some c => allowed_30d_api_calls c
               | None => limit
               end.
Proof.
  unfold usage_period.
  destruct (is_free_plan (subscription organisation)).
  - now intros [= _ _ <-].
  - destruct (subscription_information_cache organisation) as [c |];
      [| discriminate].
    destruct (relativedelta_between now _) as [rd |]; [| discriminate].
    destruct (relativedelta_between now _) as [rd' |]; [| discriminate].
    now intros [= _ _ <-].
Qed.

Lemma handle_zero_limit (K : constants) (E : collaborators)
    (now sent_at : datetime) (organisation : Organisation) (w : world)
    (ps : datetime) (days usage : Z) :
  usage_period now organisation = Period ps days 0 ->
  get_current_api_usage E (id organisation) (date_range days) = Ok usage ->
  _handle_api_usage_notifications K E now sent_at organisation w
    = (Raise ZeroDivisionError, w).
Proof.
  intros Hp Hu. unfold _handle_api_usage_notifications.
  rewrite Hp. unfold bind at 1, lift at 1. rewrite Hu.
  reflexivity.
Qed.

(** C10: with an allowed limit of zero (a free plan whose [max_api_calls]
    is 0, or a cache whose [allowed_30d_api_calls] is 0) the usage percent of
    the notification flow and the grace check of the biller raise
    [ZeroDivisionError]; nothing is returned, logged or skipped. *)
Theorem zero_limit_raises (K : constants) (E : collaborators)
    (now sent_at : datetime) (organisation : Organisation) (w : world) :
  (is_free_plan (subscription organisation) = true ->
   max_api_calls (subscription organisation) = 0 ->
   forall usage,
     get_current_api_usage E (id organisation) (date_range 30) = Ok usage ->
     _handle_api_usage_notifications K E now sent_at organisation w
       = (Raise ZeroDivisionError, w)) /\
  (is_free_plan (subscription organisation) = false ->
   forall c ps days limit usage,
     subscription_information_cache organisation = Some c ->
     allowed_30d_api_calls c = 0 ->
     usage_period now organisation = Period ps days limit ->
     get_current_api_usage E (id organisation) (date_range days)
       = Ok usage ->
     _handle_api_usage_notifications K E now sent_at organisation w
       = (Raise ZeroDivisionError, w)) /\
  (forall c usage,
     is_feature_enabled E organisation "api_usage_overage_charges"
       = Ok true ->
     subscription_information_cache organisation = Some c ->
     allowed_30d_api_calls c = 0 ->
     get_current_api_usage E (id organisation) "30d" = Ok usage ->
     charge_organisation K E now organisation w
       = (Raise ZeroDivisionError, w)).
Proof.
  repeat split.
  - intros Hfree Hmax usage Hu.
    apply (handle_zero_limit K E now sent_at organisation w
             (dt_minus now (timedelta_days 30)) 30 usage); [| exact Hu].
    unfold usage_period. now rewrite Hfree, Hmax.
  - intros Hpaid c ps days limit usage Hc Hzero Hp Hu.
    pose proof (usage_period_limit _ _ _ _ _ Hp) as Hl.
    rewrite Hpaid, Hc, Hzero in Hl. subst limit.
    exact (handle_zero_limit K E now sent_at organisation w ps days usage
             Hp Hu).
  - intros c usage Hf Hc Hzero Hu.
    unfold charge_organisation.
    unfold bind at 1, lift at 1. rewrite Hf. cbn [negb]. rewrite Hc.
    unfold bind at 1, lift at 1. rewrite Hu.
    unfold bind at 1, lift at 1. unfold below_grace. rewrite Hzero.
    reflexivity.
Qed.

Lemma zero_limit_raises_witness :
  _handle_api_usage_notifications Samples.ascending (Samples.quiet 950)
    ZeroLimitSample.now ZeroLimitSample.now ZeroLimitSample.free_zero
    Samples.empty_world = (Raise ZeroDivisionError, Samples.empty_world) /\
  _handle_api_usage_notifications Samples.ascending (Samples.quiet 950)
    ZeroLimitSample.now ZeroLimitSample.now ZeroLimitSample.paid_zero
    Samples.empty_world = (Raise ZeroDivisionError, Samples.empty_world) /\
  charge_organisation Samples.ascending (Samples.quiet 950)
    ZeroLimitSample.now ZeroLimitSample.paid_zero Samples.empty_world
    = (Raise ZeroDivisionError, Samples.empty_world).
Proof.
  split; [| split].
  - apply (proj1 (zero_limit_raises Samples.ascending (Samples.quiet 950)
                    ZeroLimitSample.now ZeroLimitSample.now
                    ZeroLimitSample.free_zero Samples.empty_world)
             eq_refl eq_refl 950 eq_refl).
  - apply (proj1 (proj2 (zero_limit_raises Samples.ascending
                           (Samples.quiet 950) ZeroLimitSample.now
                           ZeroLimitSample.now ZeroLimitSample.paid_zero
                           Samples.empty_world))
             eq_refl (mkCache BillingSample.starts BillingSample.ends 0)
             (mkdatetime 2024 2 21 0) 28 0 950 eq_refl eq_refl eq_refl
             eq_refl).
  - apply (proj2 (proj2 (zero_limit_raises Samples.ascending
                           (Samples.quiet 950) ZeroLimitSample.now
                           ZeroLimitSample.now ZeroLimitSample.paid_zero
                           Samples.empty_world))
             (mkCache BillingSample.starts BillingSample.ends 0) 950
             eq_refl eq_refl eq_refl eq_refl).
Defined.

(** ** The orchestration loop *)

(** C8 (as stated, refuted): the loop catches [RuntimeError] only, and
    only around [_handle_api_usage_notifications].  A [ZeroDivisionError]
    of the step, a connection error of the usage query, or any failure of
    the feature-flag evaluation ends the loop: the organisation after the
    failing one, which would have been notified, is never processed. *)
Lemma loop_aborts_on_other_exceptions :
  notifications
    (snd (handle_api_usage_notifications Samples.ascending
            (Samples.quiet 950) LoopSample.clock [LoopSample.over_ninety]
            Samples.empty_world))
    = [mkNotification 2 90 (mkdatetime 2024 3 20 1)] /\
  handle_api_usage_notifications Samples.ascending (Samples.quiet 950)
    LoopSample.clock [LoopSample.zero_limit; LoopSample.over_ninety]
    Samples.empty_world = (Raise ZeroDivisionError, Samples.empty_world) /\
  handle_api_usage_notifications Samples.ascending LoopSample.usage_down
    LoopSample.clock [LoopSample.zero_limit; LoopSample.over_ninety]
    Samples.empty_world
    = (Raise (OtherError "ConnectionError"), Samples.empty_world) /\
  handle_api_usage_notifications Samples.ascending LoopSample.flags_down
    LoopSample.clock [LoopSample.zero_limit; LoopSample.over_ninety]
    Samples.empty_world = (Raise RuntimeError, Samples.empty_world).
Proof. repeat split; reflexivity. Qed.

Section OrchestrationLoop.
Variable K : constants.
Variable E : collaborators.

(** One round of the loop when the feature is enabled. *)
Lemma loop_step_enabled clock organisation rest w :
  is_feature_enabled E organisation "api_usage_alerting" = Ok true ->
  handle_api_usage_notifications K E clock (organisation :: rest) w =
  match _handle_api_usage_notifications K E
          (fst (clock (id organisation))) (snd (clock (id organisation)))
          organisation w with
  | (Ok _, w') => handle_api_usage_notifications K E clock rest w'
  | (Raise e, w') =>
      if is_RuntimeError e
      then handle_api_usage_notifications K E clock rest
             (snd (logger (LogProcessingError (id organisation)) w'))
      else (Raise e, w')
  end.
Proof.
  intros Hf. cbn [handle_api_usage_notifications].
  unfold bind at 1, lift at 1. rewrite Hf. cbn [negb].
  unfold bind at 1, try_except_RuntimeError.
  destruct (_handle_api_usage_notifications K E _ _ organisation w)
    as [[[] | e] w'].
  - reflexivity.
  - destruct (is_RuntimeError e); reflexivity.
Qed.

Lemma loop_step_disabled clock organisation rest w :
  is_feature_enabled E organisation "api_usage_alerting" = Ok false ->
  handle_api_usage_notifications K E clock (organisation :: rest) w =
  handle_api_usage_notifications K E clock rest w.
Proof.
  intros Hf. cbn [handle_api_usage_notifications].
  unfold bind at 1, lift at 1. rewrite Hf. reflexivity.
Qed.

(** When no feature-flag evaluation raises and the step raises nothing
    but [RuntimeError], the loop goes through the whole table. *)
Lemma loop_completes clock organisations :
  (forall o, In o organisations ->
     exists b, is_feature_enabled E o "api_usage_alerting" = Ok b) ->
  (forall o w e w', In o organisations ->
     _handle_api_usage_notifications K E (fst (clock (id o)))
       (snd (clock (id o))) o w = (Raise e, w') ->
     is_RuntimeError e = true) ->
  forall w, exists w',
    handle_api_usage_notifications K E clock organisations w = (Ok tt, w').
Proof.
  induction organisations as [| o rest IH]; intros Hflags Hstep w.
  - now exists w.
  - assert (IH' : forall w0, exists w',
               handle_api_usage_notifications K E clock rest w0
               = (Ok tt, w')).
    { apply IH.
      - intros o' Hin. apply Hflags. now right.
      - intros o' w0 e w' Hin. apply Hstep. now right. }
    destruct (Hflags o (or_introl eq_refl)) as [[|] Hf].
    + rewrite (loop_step_enabled clock o rest w Hf).
      destruct (_handle_api_usage_notifications K E _ _ o w)
        as [[[] | e] w'] eqn:Hrun.
      * apply IH'.
      * rewrite (Hstep o w e w' (or_introl eq_refl) Hrun). apply IH'.
    + rewrite (loop_step_disabled clock o rest w Hf). apply IH'.
Qed.

End OrchestrationLoop.

(** C8 (amended): a [RuntimeError] raised by
    [_handle_api_usage_notifications] for an organisation whose feature
    flag evaluated to enabled is logged, and the loop continues with the
    remaining organisations from the world the failed step left.  An
    exception of any other class raised by the step, and any exception
    raised by the feature-flag evaluation, ends the loop: it is the result
    of the loop, nothing is logged and the remaining organisations are not
    processed. *)
Theorem loop_continues_after_RuntimeError (K : constants)
    (E : collaborators) (clock : Z -> datetime * datetime)
    (organisation : Organisation) (rest : list Organisation) (w : world) :
  (forall e,
     is_feature_enabled E organisation "api_usage_alerting" = Raise e ->
     handle_api_usage_notifications K E clock (organisation :: rest) w
     = (Raise e, w)) /\
  (is_feature_enabled E organisation "api_usage_alerting" = Ok true ->
   forall e w',
     _handle_api_usage_notifications K E (fst (clock (id organisation)))
       (snd (clock (id organisation))) organisation w = (Raise e, w') ->
     (is_RuntimeError e = true ->
      handle_api_usage_notifications K E clock (organisation :: rest) w =
      handle_api_usage_notifications K E clock rest
        (mkWorld (notifications w') (billings w') (outbox w')
                 (billing_calls w')
                 (log w' ++ [LogProcessingError (id organisation)]))) /\
     (is_RuntimeError e = false ->
      handle_api_usage_notifications K E clock (organisation :: rest) w
      = (Raise e, w'))).
Proof.
  split.
  - intros e Hf. cbn [handle_api_usage_notifications].
    unfold bind at 1, lift at 1. now rewrite Hf.
  - intros Hf e w' Hrun.
    rewrite (loop_step_enabled K E clock organisation rest w Hf), Hrun.
    split; intros He; now rewrite He.
Qed.

Lemma loop_continues_after_RuntimeError_witness :
  handle_api_usage_notifications Samples.ascending LoopSample.flags_down
    LoopSample.clock [LoopSample.zero_limit; LoopSample.over_ninety]
    Samples.empty_world = (Raise RuntimeError, Samples.empty_world) /\
  handle_api_usage_notifications Samples.ascending
    LoopSample.usage_runtime_error LoopSample.clock
    [LoopSample.zero_limit; LoopSample.over_ninety] Samples.empty_world =
  handle_api_usage_notifications Samples.ascending
    LoopSample.usage_runtime_error LoopSample.clock
    [LoopSample.over_ninety]
    (mkWorld [] [] [] [] [LogProcessingError 1]) /\
  handle_api_usage_notifications Samples.ascending LoopSample.usage_down
    LoopSample.clock [LoopSample.zero_limit; LoopSample.over_ninety]
    Samples.empty_world
  = (Raise (OtherError "ConnectionError"), Samples.empty_world).
Proof.
  split; [| split].
  - apply (proj1 (loop_continues_after_RuntimeError Samples.ascending
                    LoopSample.flags_down LoopSample.clock
                    LoopSample.zero_limit [LoopSample.over_ninety]
                    Samples.empty_world) RuntimeError).
    reflexivity.
  - apply (proj1 (proj2 (loop_continues_after_RuntimeError
                           Samples.ascending LoopSample.usage_runtime_error
                           LoopSample.clock LoopSample.zero_limit
                           [LoopSample.over_ninety] Samples.empty_world)
                        eq_refl RuntimeError Samples.empty_world eq_refl)
             eq_refl).
  - apply (proj2 (proj2 (loop_continues_after_RuntimeError
                           Samples.ascending LoopSample.usage_down
                           LoopSample.clock LoopSample.zero_limit
                           [LoopSample.over_ninety] Samples.empty_world)
                        eq_refl (OtherError "ConnectionError")
                        Samples.empty_world eq_refl)
             eq_refl).
Defined.

(** After the logged failure of organisation 1, organisation 2 is
    notified. *)
Example loop_reaches_next_organisation :
  handle_api_usage_notifications Samples.ascending
    LoopSample.usage_runtime_error LoopSample.clock
    [LoopSample.zero_limit; LoopSample.over_ninety] Samples.empty_world
  = (Ok tt,
     mkWorld [mkNotification 2 90 (mkdatetime 2024 3 20 1)] []
             [notification_mail LoopSample.over_ninety 90] []
             [LogProcessingError 1]).
Proof. reflexivity. Qed.

(** ** The restriction passes *)

Section RestrictionPasses.
Variable K : constants.
Variable E : collaborators.

Lemma mem_In (x : Z) (l : list Z) : mem x l = true <-> In x l.
Proof.
  unfold mem. rewrite existsb_exists. split.
  - intros (y & Hin & Heq). apply Z.eqb_eq in Heq. now subst.
  - intros Hin. exists x. split; [exact Hin | apply Z.eqb_refl].
Qed.

Lemma breach_notification_ids_In keep rows (i : Z) :
  In i (breach_notification_ids keep rows) <->
  exists n, In n rows /\ keep n = true /\ organisation_id n = i.
Proof.
  unfold breach_notification_ids. rewrite nodup_In, in_map_iff. split.
  - intros (n & Hid & Hin). apply filter_In in Hin. exists n. tauto.
  - intros (n & Hin & Hkeep & Hid). exists n.
    split; [exact Hid | apply filter_In; tauto].
Qed.

(** Every apply candidate is still breaching at the same instant. *)
Lemma restrict_ids_still_restricted now rows (i : Z) :
  In i (restrict_organisation_ids K now now rows) ->
  In i (still_restricted_organisation_ids now rows).
Proof.
  unfold restrict_organisation_ids, still_restricted_organisation_ids.
  rewrite !breach_notification_ids_In.
  intros (n & Hin & Hkeep & Hid). exists n.
  split; [exact Hin |]. split; [| exact Hid].
  apply andb_true_iff in Hkeep. destruct Hkeep as [Hkeep Hpct].
  apply andb_true_iff in Hkeep. destruct Hkeep as [Hmonth _].
  now rewrite Hmonth, Hpct.
Qed.

(** Every entry of [update_organisations] is a candidate with new
    flags. *)
Lemma update_organisations_In candidates updated u :
  update_organisations E candidates = Ok updated ->
  In u updated ->
  exists o, In o candidates /\ id u = id o.
Proof.
  revert updated.
  induction candidates as [| o rest IH]; intros updated; simpl.
  - intros [= <-] [].
  - destruct (is_feature_enabled E o "api_limiting_stop_serving_flags")
      as [stop_serving | e]; [| discriminate].
    destruct (is_feature_enabled E o "api_limiting_block_access_to_admin")
      as [block_access | e]; [| discriminate].
    destruct (update_organisations E rest) as [updated' | e];
      [| discriminate].
    destruct (negb stop_serving && negb block_access).
    + intros [= <-] Hin.
      destruct (IH updated' eq_refl Hin) as (o' & Hin' & Hid).
      exists o'. split; [now right | exact Hid].
    + intros [= <-] [<- | Hin].
      * exists o. split; [now left | reflexivity].
      * destruct (IH updated' eq_refl Hin) as (o' & Hin' & Hid).
        exists o'. split; [now right | exact Hid].
Qed.

Lemma NoDup_map_inj {A : Type} (f : A -> Z) (l : list A) (a b : A) :
  NoDup (map f l) -> In a l -> In b l -> f a = f b -> a = b.
Proof.
  induction l as [| x l IH]; simpl; [intros _ [] |].
  intros Hnd Ha Hb Heq. inversion Hnd as [| ? ? Hnotin Hnd']; subst.
  destruct Ha as [-> | Ha], Hb as [-> | Hb].
  - reflexivity.
  - exfalso. apply Hnotin. rewrite Heq. now apply in_map.
  - exfalso. apply Hnotin. rewrite <- Heq. now apply in_map.
  - now apply IH.
Qed.

End RestrictionPasses.

(** C9: at one instant, over one notification log and one organisation
    table, no organisation is selected by both passes.  Every organisation
    the apply pass selects has a notification of 100% or more inside the
    30-day window, so its id is in the still-restricted set, which the lift
    pass subtracts; and every organisation the lift pass selects has an
    access block. *)
Theorem apply_and_lift_disjoint (K : constants) (E : collaborators)
    (now : datetime) (rows : list OrganisationAPIUsageNotification)
    (organisations updated : list Organisation) :
  NoDup (map id organisations) ->
  restrict_selection K E now now rows organisations = Ok updated ->
  (forall o, In o updated ->
     In (id o) (still_restricted_organisation_ids now rows) /\
     ~ In (id o) (map id (matching_organisations now rows organisations))) /\
  (forall o, In o (matching_organisations now rows organisations) ->
     api_limit_access_block o = true /\
     ~ In (id o) (map id updated)).
Proof.
  intros Hnd Hsel.
  assert (Hstill : forall o, In o updated ->
            In (id o) (still_restricted_organisation_ids now rows)).
  { intros u Hu. unfold restrict_selection in Hsel.
    destruct (update_organisations_In E _ _ u Hsel Hu) as (o & Hin & ->).
    unfold restrict_queryset in Hin. apply filter_In in Hin.
    destruct Hin as [_ Hkeep].
    repeat (apply andb_true_iff in Hkeep; destruct Hkeep as [Hkeep ?]).
    apply restrict_ids_still_restricted with (K := K).
    now apply mem_In. }
  assert (Hlift : forall o,
            In o (matching_organisations now rows organisations) ->
            ~ In (id o) (still_restricted_organisation_ids now rows)).
  { intros o Hin. unfold matching_organisations in Hin.
    apply filter_In in Hin. destruct Hin as [_ Hkeep].
    apply andb_true_iff in Hkeep. destruct Hkeep as [_ Hnot].
    apply negb_true_iff in Hnot. intros Hmem.
    apply mem_In in Hmem. congruence. }
  split.
  - intros u Hu. split; [now apply Hstill |].
    intros Hin. apply in_map_iff in Hin. destruct Hin as (o & Hid & Hin).
    apply (Hlift o Hin). rewrite Hid. now apply Hstill.
  - intros o Hin. split.
    + pose proof Hin as Hin'. unfold matching_organisations in Hin'.
      apply filter_In in Hin'. destruct Hin' as [Ho Hkeep].
      apply andb_true_iff in Hkeep. destruct Hkeep as [Hblocked _].
      apply mem_In in Hblocked. unfold blocked_organisation_ids in Hblocked.
      rewrite nodup_In, in_map_iff in Hblocked.
      destruct Hblocked as (o' & Hid & Hin').
      apply filter_In in Hin'. destruct Hin' as [Ho' Hblock].
      now rewrite <- (NoDup_map_inj id organisations o' o Hnd Ho' Ho Hid).
    + intros Hmem. apply in_map_iff in Hmem.
      destruct Hmem as (u & Hid & Hu).
      apply (Hlift o Hin). rewrite <- Hid. now apply Hstill.
Qed.

Lemma apply_and_lift_disjoint_witness :
  (forall o, In o [RestrictionSample.restricted] ->
     In (id o)
        (still_restricted_organisation_ids RestrictionSample.now
           RestrictionSample.rows) /\
     ~ In (id o)
         (map id (matching_organisations RestrictionSample.now
                    RestrictionSample.rows
                    RestrictionSample.organisations))) /\
  (forall o,
     In o (matching_organisations RestrictionSample.now
             RestrictionSample.rows RestrictionSample.organisations) ->
     api_limit_access_block o = true /\
     ~ In (id o) (map id [RestrictionSample.restricted])).
Proof.
  apply (apply_and_lift_disjoint Samples.ascending (Samples.quiet 0)
           RestrictionSample.now RestrictionSample.rows
           RestrictionSample.organisations [RestrictionSample.restricted]).
  - simpl. repeat constructor; simpl; intuition lia.
  - reflexivity.
Defined.

(** The sample restricts organisation 1 and lifts organisation 2. *)
Example restriction_sample_runs :
  restrict_use_due_to_api_limit_grace_period_over Samples.ascending
    (Samples.quiet 0) RestrictionSample.now RestrictionSample.now
    RestrictionSample.rows RestrictionSample.organisations
  = Ok [RestrictionSample.restricted; RestrictionSample.recovered] /\
  unrestrict_after_api_limit_grace_period_is_stale RestrictionSample.now
    RestrictionSample.rows RestrictionSample.organisations
  = [RestrictionSample.breaching;
     mkOrganisation 2 (Samples.free_subscription 1000) None
                    false false false].
Proof. split; reflexivity. Qed.

(** ** The usage-period resolver *)

Lemma validb_valid (dt : datetime) : validb dt = true -> valid dt.
Proof.
  unfold validb, valid. intros H.
  repeat (apply andb_true_iff in H; destruct H as [H ?]).
  repeat match goal with
         | H : (_ <=? _) = true |- _ => apply Z.leb_le in H
         | H : (_ <? _) = true |- _ => apply Z.ltb_lt in H
         end.
  lia.
Qed.

(** C7 (code bug): the resolver is meant to "truncate to the closest
    active month to get start of current period", but it keeps the months
    component of the calendar difference and drops its years.  For a term
    that started fourteen months ago the month delta is 2, and the period
    start lies 371 days before now: a year later it is still not after
    now.  The window is the days component of the difference from the
    period start, so it is 5 days there, and one day when thirty days have
    gone by since a period start that was clamped to the end of
    February. *)
Theorem period_start_over_a_year_back :
  relativedelta_between PeriodSample.now (mkdatetime 2023 1 15 0)
    = Some (mkrelativedelta 1 2 5 0 0 0 0) /\
  usage_period PeriodSample.now PeriodSample.stale
    = Period (mkdatetime 2023 3 15 0) 5 1000 /\
  dt_sub PeriodSample.now (mkdatetime 2023 3 15 0) = timedelta_days 371 /\
  ~ (dt_sub PeriodSample.now (mkdatetime 2023 3 15 0)
     < timedelta_days 31) /\
  dt_leb (rd_add (relativedelta_months 12) (mkdatetime 2023 3 15 0))
         PeriodSample.now = true /\
  usage_period PeriodSample.now_end_of_march PeriodSample.month_end
    = Period (mkdatetime 2024 2 29 0) 1 1000 /\
  dt_sub PeriodSample.now_end_of_march (mkdatetime 2024 2 29 0)
    = timedelta_days 30.
Proof.
  repeat split; try reflexivity.
  vm_compute. intros H. discriminate H.
Qed.

(** The resolver on a term that started within the last twelve months. *)
Lemma paid_period_resolution (now : datetime) (organisation : Organisation)
    (c : OrganisationSubscriptionInformationCache) :
  is_free_plan (subscription organisation) = false ->
  subscription_information_cache organisation = Some c ->
  valid now ->
  valid (current_billing_term_starts_at c) ->
  dt_leb (current_billing_term_starts_at c) now = true ->
  dt_ltb now (rd_add (relativedelta_months 12)
                     (current_billing_term_starts_at c)) = true ->
  exists k ps days,
    usage_period now organisation
      = Period ps days (allowed_30d_api_calls c) /\
    0 <= k < 12 /\
    ps = rd_add (relativedelta_months k) (current_billing_term_starts_at c) /\
    dt_leb ps now = true /\
    dt_ltb now (rd_add (relativedelta_months (k + 1))
                       (current_billing_term_starts_at c)) = true /\
    0 <= dt_sub now ps < 31 * usec_per_day /\
    0 <= days <= 30 /\
    (day ps = day (current_billing_term_starts_at c) ->
     days * usec_per_day <= dt_sub now ps < (days + 1) * usec_per_day).
Proof.
  intros Hpaid Hc Vnow Vb Hle Hyear.
  set (b := current_billing_term_starts_at c) in *.
  apply dt_leb_iff in Hle.
  rewrite rd_add_relativedelta_months in Hyear by (assumption || lia).
  apply dt_ltb_iff in Hyear.
  destruct (relativedelta_between_spec now b Vnow Vb Hle)
    as (k & rd & Hrd & Hk0 & Hkle & Hklt & Hel & Hyears & Hmonths & Hdays).
  assert (Hk12 : k < 12).
  { destruct (Z.lt_ge_cases k 12) as [H | H]; [exact H |].
    exfalso. apply Hkle.
    apply (lex_lt_le_trans _ (month_shift b 12)); [exact Hyear |].
    now apply month_shift_le. }
  assert (Hmk : months rd = k) by (rewrite Hmonths; apply Z.mod_small; lia).
  set (ps := month_shift b k).
  assert (Vps : valid ps) by now apply month_shift_valid.
  destruct (relativedelta_between_spec now ps Vnow Vps Hkle)
    as (k' & rd' & Hrd' & Hk0' & Hkle' & Hklt' & Hel' & _ & _ & Hdays').
  exists k, ps, (days rd').
  split.
  { unfold usage_period. rewrite Hpaid, Hc. fold b. rewrite Hrd, Hmk.
    rewrite rd_add_relativedelta_months by assumption. fold ps.
    now rewrite Hrd'. }
  split; [lia |].
  split; [unfold ps; now rewrite rd_add_relativedelta_months |].
  split; [now apply dt_leb_iff |].
  split.
  { rewrite rd_add_relativedelta_months by (assumption || lia).
    now apply dt_ltb_iff. }
  split; [exact Hel |].
  split.
  { rewrite Hdays'. unfold usec_per_day, usec_per_second in *.
    Z.to_euclidean_division_equations. lia. }
  intros Hday.
  assert (Hnext : month_shift ps 1 = month_shift b (k + 1)).
  { destruct (month_shift_fields ps 1) as (Hm1 & Hi1 & Hd1 & Hu1).
    destruct (month_shift_fields b (k + 1)) as (Hm2 & Hi2 & Hd2 & Hu2).
    destruct (month_shift_fields b k) as (Hm3 & Hi3 & Hd3 & Hu3).
    fold ps in Hm3, Hi3, Hd3, Hu3.
    assert (Hy : year (month_shift ps 1) = year (month_shift b (k + 1)))
      by lia.
    assert (Hmo : month (month_shift ps 1) = month (month_shift b (k + 1)))
      by lia.
    apply datetime_eq; [exact Hy | exact Hmo | | congruence].
    rewrite Hd1, Hd2, Hy, Hmo, Hday. reflexivity. }
  assert (Hzero : k' = 0).
  { destruct (Z.eq_dec k' 0) as [H | H]; [exact H |].
    exfalso. apply Hkle'.
    apply (lex_lt_le_trans _ (month_shift ps 1)).
    - rewrite Hnext. exact Hklt.
    - apply month_shift_le. lia. }
  rewrite Hzero, month_shift_0 in Hdays' by exact Vps.
  rewrite Hdays'. apply whole_days_bounds.
Qed.



(** On a paid plan whose term started within the last twelve months the
    period starts at or before now, hence before any strictly later
    reading of the clock. *)
Lemma paid_period_before_sent (now sent_at : datetime)
    (organisation : Organisation)
    (c : OrganisationSubscriptionInformationCache) :
  is_free_plan (subscription organisation) = false ->
  subscription_information_cache organisation = Some c ->
  valid now ->
  valid (current_billing_term_starts_at c) ->
  dt_leb (current_billing_term_starts_at c) now = true ->
  dt_ltb now (rd_add (relativedelta_months 12)
                     (current_billing_term_starts_at c)) = true ->
  dt_ltb now sent_at = true ->
  exists ps days,
    usage_period now organisation
      = Period ps days (allowed_30d_api_calls c) /\
    dt_ltb ps sent_at = true.
Proof.
  intros Hpaid Hc V Vb Hle Hyear Hsent.
  destruct (paid_period_resolution now organisation c Hpaid Hc V Vb Hle Hyear)
    as (k & ps & days & Hp & _ & _ & Hps & _).
  exists ps, days. split; [exact Hp |].
  apply dt_ltb_iff. apply dt_ltb_iff in Hsent. apply dt_leb_iff in Hps.
  exact (lex_le_lt_trans _ _ _ Hps Hsent).
Qed.






(** The first run for the free organisation of the sample stores the row
    for 90%, and the second run leaves the world alone; so do the two runs
    for the paid organisation of the billing sample. *)
Example second_run_is_silent :
  IdempotenceSample.first_run
    = (Ok tt,
       mkWorld [mkNotification 1 90 IdempotenceSample.sent_at] []
               [notification_mail IdempotenceSample.organisation 90] [] []) /\
  _handle_api_usage_notifications Samples.ascending (Samples.quiet 950)
    IdempotenceSample.now IdempotenceSample.sent_at
    IdempotenceSample.organisation (snd IdempotenceSample.first_run)
    = (Ok tt, snd IdempotenceSample.first_run) /\
  notifications
    (snd (_handle_api_usage_notifications Samples.ascending
            (Samples.quiet 950) BillingSample.now IdempotenceSample.sent_at
            BillingSample.organisation
            (snd (_handle_api_usage_notifications Samples.ascending
                    (Samples.quiet 950) BillingSample.now
                    IdempotenceSample.sent_at BillingSample.organisation
                    Samples.empty_world))))
    = [mkNotification 1 90 IdempotenceSample.sent_at].
Proof. repeat split; vm_compute; reflexivity. Qed.

(** X26: for a paid organisation with a subscription information
    cache whose billing term started at or before now and less than twelve
    months ago, the resolver takes the number [k] of whole months gone by
    since the start of the term, sets the period start to the start of the
    term moved forward by [k] months, which is at or before now and less
    than 31 days back, and uses the cached allowed-30-day calls as the
    limit; the window is between 0 and 30 days, and it is the number of
    whole days gone by since the period start whenever the period start
    falls on the same day of the month as the start of the term. *)
Theorem usage_period_paid (now : datetime) (organisation : Organisation)
    (c : OrganisationSubscriptionInformationCache) :
  is_free_plan (subscription organisation) = false ->
  subscription_information_cache organisation = Some c ->
  valid now ->
  valid (current_billing_term_starts_at c) ->
  dt_leb (current_billing_term_starts_at c) now = true ->
  dt_ltb now (rd_add (relativedelta_months 12)
                     (current_billing_term_starts_at c)) = true ->
  exists k ps days,
    usage_period now organisation
      = Period ps days (allowed_30d_api_calls c) /\
    0 <= k < 12 /\
    ps = rd_add (relativedelta_months k) (current_billing_term_starts_at c) /\
    dt_leb ps now = true /\
    dt_ltb now (rd_add (relativedelta_months (k + 1))
                       (current_billing_term_starts_at c)) = true /\
    0 <= dt_sub now ps < 31 * usec_per_day /\
    0 <= days <= 30 /\
    (day ps = day (current_billing_term_starts_at c) ->
     days * usec_per_day <= dt_sub now ps < (days + 1) * usec_per_day).
Proof. exact (paid_period_resolution now organisation c). Qed.

Lemma usage_period_paid_witness :
  exists k ps days,
    usage_period BillingSample.now BillingSample.organisation
      = Period ps days (allowed_30d_api_calls BillingSample.cache) /\
    0 <= k < 12 /\
    ps = rd_add (relativedelta_months k)
                (current_billing_term_starts_at BillingSample.cache) /\
    dt_leb ps BillingSample.now = true /\
    dt_ltb BillingSample.now
           (rd_add (relativedelta_months (k + 1))
                   (current_billing_term_starts_at BillingSample.cache))
      = true /\
    0 <= dt_sub BillingSample.now ps < 31 * usec_per_day /\
    0 <= days <= 30 /\
    (day ps = day (current_billing_term_starts_at BillingSample.cache) ->
     days * usec_per_day <= dt_sub BillingSample.now ps
       < (days + 1) * usec_per_day).
Proof.
  apply (usage_period_paid BillingSample.now BillingSample.organisation
           BillingSample.cache).
  - reflexivity.
  - reflexivity.
  - apply validb_valid. reflexivity.
  - apply validb_valid. reflexivity.
  - reflexivity.
  - reflexivity.
Defined.

(** The resolver on the sample: the term started on 21 February, now is
    20 March, so no whole month has gone by and the window is 28 days. *)
Example usage_period_sample :
  usage_period BillingSample.now BillingSample.organisation
  = Period (mkdatetime 2024 2 21 0) 28 1000.
Proof. reflexivity. Qed.

(** * Further properties *)

Lemma month_cases (m : Z) :
  1 <= m <= 12 ->
  m = 1 \/ m = 2 \/ m = 3 \/ m = 4 \/ m = 5 \/ m = 6 \/ m = 7 \/ m = 8 \/
  m = 9 \/ m = 10 \/ m = 11 \/ m = 12.
Proof. lia. Qed.

(** The months before a later month cover every earlier month whole. *)
Lemma days_before_month_mono (y m m' : Z) :
  1 <= m -> m < m' -> m' <= 12 ->
  days_before_month y m + days_in_month y m <= days_before_month y m'.
Proof.
  intros Hm Hlt Hm'.
  pose proof (month_cases m ltac:(lia)) as Hc.
  pose proof (month_cases m' ltac:(lia)) as Hc'.
  unfold days_before_month, days_in_month.
  generalize (is_leap y). intros l.
  split_month Hc; split_month Hc'; try lia;
    destruct l; eval_month_tests; lia.
Qed.

Lemma day_of_year_bounds (y m d : Z) :
  1 <= m <= 12 -> 1 <= d <= days_in_month y m ->
  1 <= days_before_month y m + d <= 365 + (if is_leap y then 1 else 0).
Proof.
  intros Hm. pose proof (month_cases m Hm) as Hc.
  unfold days_before_month, days_in_month.
  generalize (is_leap y). intros l.
  split_month Hc; destruct l; eval_month_tests; lia.
Qed.

Lemma days_before_year_mono (y y' : Z) :
  y <= y' -> days_before_year y <= days_before_year y'.
Proof.
  unfold days_before_year. intros H.
  Z.to_euclidean_division_equations. lia.
Qed.

(** Calendar order on the date fields is the order of the ordinals. *)
Lemma toordinal_lt (a b : datetime) :
  valid a -> valid b ->
  (year a < year b \/
   (year a = year b /\
    (month a < month b \/ (month a = month b /\ day a < day b)))) ->
  toordinal a < toordinal b.
Proof.
  intros (Hma & Hda & _) (Hmb & Hdb & _) Hlt. unfold toordinal.
  pose proof (day_of_year_bounds (year a) (month a) (day a) Hma Hda) as Ba.
  pose proof (day_of_year_bounds (year b) (month b) (day b) Hmb Hdb) as Bb.
  destruct Hlt as [Hy | (Hy & [Hm | (Hm & Hd)])].
  - pose proof (days_before_year_succ (year a)) as Hs.
    pose proof (days_before_year_mono (year a + 1) (year b) ltac:(lia)).
    lia.
  - rewrite Hy in *.
    pose proof (days_before_month_mono (year b) (month a) (month b)
                  ltac:(lia) Hm ltac:(lia)).
    lia.
  - rewrite Hy, Hm. lia.
Qed.

(** Calendar order is the sign of the difference. *)
Lemma lex_lt_dt_sub (a b : datetime) :
  valid a -> valid b -> (lex_lt a b <-> 0 < dt_sub b a).
Proof.
  intros Va Vb. pose proof Va as (_ & _ & Hua). pose proof Vb as (_ & _ & Hub).
  assert (Hforward : forall x y, valid x -> valid y -> lex_lt x y ->
                                 0 < dt_sub y x).
  { intros x y Vx Vy Hlt. pose proof Vx as (_ & _ & Hux).
    pose proof Vy as (_ & _ & Huy).
    unfold dt_sub, usec_per_day, usec_per_second in *.
    assert (Hcase :
              (year x < year y \/
               (year x = year y /\
                (month x < month y \/
                 (month x = month y /\ day x < day y)))) \/
              (year x = year y /\ month x = month y /\ day x = day y /\
               usec x < usec y)) by (unfold lex_lt in Hlt; lia).
    destruct Hcase as [Hd | (Hy & Hm & Hd & Hu)].
    - pose proof (toordinal_lt x y Vx Vy Hd). lia.
    - unfold toordinal. rewrite Hy, Hm, Hd. lia. }
  split; [apply Hforward; assumption |].
  intros Hpos.
  assert (Htri : lex_lt a b \/ a = b \/ lex_lt b a).
  { destruct a as [ya ma da ua], b as [yb mb db ub]. unfold lex_lt.
    cbn [year month day usec].
    destruct (Z.lt_trichotomy ya yb) as [? | [-> | ?]]; [lia | | lia].
    destruct (Z.lt_trichotomy ma mb) as [? | [-> | ?]]; [lia | | lia].
    destruct (Z.lt_trichotomy da db) as [? | [-> | ?]]; [lia | | lia].
    destruct (Z.lt_trichotomy ua ub) as [? | [-> | ?]]; [lia | | lia].
    right. now left. }
  destruct Htri as [H | [-> | H]]; [exact H | |].
  - unfold dt_sub in Hpos. lia.
  - pose proof (Hforward b a Vb Va H). unfold dt_sub in *. lia.
Qed.

Lemma days_before_month_succ (y m : Z) :
  1 <= m <= 11 ->
  days_before_month y (m + 1) = days_before_month y m + days_in_month y m.
Proof.
  intros Hm. pose proof (month_cases m ltac:(lia)) as Hc.
  unfold days_before_month, days_in_month.
  generalize (is_leap y). intros l.
  split_month Hc; try lia; destruct l; cbn [Z.add Pos.add Pos.succ];
    eval_month_tests; lia.
Qed.

Lemma next_day_ordinal (dt : datetime) :
  valid dt ->
  valid (next_day dt) /\ toordinal (next_day dt) = toordinal dt + 1 /\
  usec (next_day dt) = usec dt.
Proof.
  intros (Hm & Hd & Hu). unfold next_day.
  destruct (Z.ltb_spec (day dt) (days_in_month (year dt) (month dt)));
    [| destruct (Z.ltb_spec (month dt) 12)];
    unfold valid, toordinal; cbn [year month day usec].
  - repeat split; lia.
  - pose proof (days_in_month_bounds (year dt) (month dt + 1)).
    rewrite days_before_month_succ by lia. repeat split; lia.
  - assert (Hm12 : month dt = 12) by lia.
    rewrite days_before_year_succ. rewrite Hm12 in *.
    change (days_in_month (year dt + 1) 1) with 31.
    change (days_before_month (year dt + 1) 1) with 0.
    pose proof (day_of_year_bounds (year dt) 12 (day dt) ltac:(lia) Hd).
    assert (days_in_month (year dt) 12 = 31) by reflexivity.
    assert (days_before_month (year dt) 12
            = 334 + (if is_leap (year dt) then 1 else 0)).
    { unfold days_before_month. eval_month_tests. reflexivity. }
    repeat split; lia.
Qed.

Lemma prev_day_ordinal (dt : datetime) :
  valid dt ->
  valid (prev_day dt) /\ toordinal (prev_day dt) = toordinal dt - 1 /\
  usec (prev_day dt) = usec dt.
Proof.
  intros (Hm & Hd & Hu). unfold prev_day.
  destruct (Z.ltb_spec 1 (day dt)); [| destruct (Z.ltb_spec 1 (month dt))];
    unfold valid, toordinal; cbn [year month day usec].
  - repeat split; lia.
  - pose proof (days_in_month_bounds (year dt) (month dt - 1)).
    pose proof (days_before_month_succ (year dt) (month dt - 1) ltac:(lia))
      as Hs.
    replace (month dt - 1 + 1) with (month dt) in Hs by lia.
    repeat split; lia.
  - assert (Hm1 : month dt = 1) by lia.
    pose proof (days_before_year_succ (year dt - 1)) as Hs.
    replace (year dt - 1 + 1) with (year dt) in Hs by lia.
    rewrite Hm1 in *.
    change (days_in_month (year dt - 1) 12) with 31.
    change (days_before_month (year dt) 1) with 0.
    assert (days_before_month (year dt - 1) 12
            = 334 + (if is_leap (year dt - 1) then 1 else 0)).
    { unfold days_before_month. eval_month_tests. reflexivity. }
    repeat split; lia.
Qed.

Lemma shift_days_spec (n : Z) (dt : datetime) :
  valid dt ->
  valid (shift_days n dt) /\ toordinal (shift_days n dt) = toordinal dt + n /\
  usec (shift_days n dt) = usec dt.
Proof.
  intros V. destruct n as [| p | p]; cbn [shift_days].
  - split; [exact V | split; [lia | reflexivity]].
  - induction p as [| p IH] using Pos.peano_ind.
    + cbn [Pos.iter]. exact (next_day_ordinal dt V).
    + rewrite Pos.iter_succ. destruct IH as (V' & Ho & Hus).
      destruct (next_day_ordinal _ V') as (V'' & Ho' & Hus').
      split; [exact V'' | split; [lia | congruence]].
  - induction p as [| p IH] using Pos.peano_ind.
    + cbn [Pos.iter]. exact (prev_day_ordinal dt V).
    + rewrite Pos.iter_succ. destruct IH as (V' & Ho & Hus).
      destruct (prev_day_ordinal _ V') as (V'' & Ho' & Hus').
      split; [exact V'' | split; [lia | congruence]].
Qed.

(** [dt + delta] is a valid [datetime] that lies [delta] after [dt]. *)
Lemma dt_add_spec (dt : datetime) (delta : Z) :
  valid dt ->
  valid (dt_add dt delta) /\ dt_sub (dt_add dt delta) dt = delta.
Proof.
  intros V. pose proof V as (Hm & Hd & Hu).
  unfold dt_add.
  destruct (shift_days_spec ((usec dt + delta) / usec_per_day) dt V)
    as ((Hm' & Hd' & _) & Ho & _).
  set (s := shift_days ((usec dt + delta) / usec_per_day) dt) in *.
  assert (Hupd : 0 < usec_per_day) by reflexivity.
  pose proof (Z.mod_pos_bound (usec dt + delta) usec_per_day Hupd) as Hb.
  pose proof (Z.div_mod (usec dt + delta) usec_per_day ltac:(lia)) as Hdm.
  split.
  - unfold valid. cbn [year month day usec]. repeat split; lia.
  - unfold dt_sub. cbn [usec].
    change (toordinal (mkdatetime (year s) (month s) (day s)
                         ((usec dt + delta) mod usec_per_day)))
      with (toordinal s).
    rewrite Ho. lia.
Qed.

Lemma dt_minus_spec (dt : datetime) (delta : Z) :
  valid dt ->
  valid (dt_minus dt delta) /\ dt_sub dt (dt_minus dt delta) = delta.
Proof.
  intros V. unfold dt_minus.
  destruct (dt_add_spec dt (- delta) V) as [V' Hs].
  split; [exact V' |]. unfold dt_sub in *. lia.
Qed.

(** Comparisons of valid datetimes as inequalities between differences. *)
Lemma dt_leb_dt_sub (a b : datetime) :
  valid a -> valid b -> (dt_leb a b = true <-> 0 <= dt_sub b a).
Proof.
  intros Va Vb. rewrite dt_leb_iff, (lex_lt_dt_sub b a Vb Va).
  unfold dt_sub. lia.
Qed.

Lemma dt_ltb_dt_sub (a b : datetime) :
  valid a -> valid b -> (dt_ltb a b = true <-> 0 < dt_sub b a).
Proof.
  intros Va Vb. rewrite dt_ltb_iff. now apply lex_lt_dt_sub.
Qed.

Lemma last_of_cons (t : Z) (l : list Z) (acc : option Z) :
  match last_of (t :: l) with Some x => Some x | None => acc end
  = match last_of l with Some x => Some x | None => Some t end.
Proof.
  unfold last_of. cbn [rev].
  destruct (rev l) as [| x l'] eqn:Hr; reflexivity.
Qed.

Lemma match_threshold_split (thresholds : list Z) (percent : Z) :
  forall acc : option Z,
  exists run rest,
    thresholds = run ++ rest /\
    Forall (fun t => t <= percent) run /\
    match rest with
    | [] => True
    | t :: _ => percent < t
    end /\
    match_threshold thresholds percent acc
    = match last_of run with Some x => Some x | None => acc end.
Proof.
  induction thresholds as [| t rest IH]; intros acc.
  - exists [], []. repeat split. constructor.
  - cbn [match_threshold].
    destruct (Z.gtb_spec t percent) as [Hgt | Hle].
    + exists [], (t :: rest). repeat split; [constructor | lia].
    + destruct (IH (Some t)) as (run & rest' & -> & Hall & Hrest & Hm).
      exists (t :: run), rest'. split; [reflexivity |].
      split; [constructor; [lia | exact Hall] |].
      split; [exact Hrest |].
      rewrite Hm. symmetry. apply last_of_cons.
Qed.

(** X1: whatever the order of the thresholds, the matcher returns the last
    threshold of the leading run of thresholds at or below the percent. *)
Theorem matched_threshold_leading_run (thresholds : list Z) (percent : Z) :
  exists run rest,
    thresholds = run ++ rest /\
    Forall (fun t => t <= percent) run /\
    match rest with
    | [] => True
    | t :: _ => percent < t
    end /\
    matched_threshold thresholds percent = last_of run.
Proof.
  destruct (match_threshold_split thresholds percent None)
    as (run & rest & Heq & Hall & Hrest & Hm).
  exists run, rest. repeat split; try assumption.
  unfold matched_threshold. rewrite Hm. now destruct (last_of run).
Qed.

(** X2: the matcher returns nothing exactly when there is no threshold or
    the first one is above the percent. *)
Theorem matched_threshold_none_iff (thresholds : list Z) (percent : Z) :
  matched_threshold thresholds percent = None <->
  match thresholds with
  | [] => True
  | t :: _ => percent < t
  end.
Proof.
  unfold matched_threshold. destruct thresholds as [| t rest]; cbn.
  - tauto.
  - destruct (Z.gtb_spec t percent) as [Hgt | Hle].
    + split; [lia | reflexivity].
    + split; [| lia]. intros H. exfalso.
      destruct (match_threshold_split rest percent (Some t))
        as (run & rest' & _ & _ & _ & Hm).
      rewrite Hm in H. destruct (last_of run); discriminate.
Qed.

Lemma match_threshold_In (thresholds : list Z) (percent : Z) :
  forall acc t,
    match_threshold thresholds percent acc = Some t ->
    acc = Some t \/ In t thresholds.
Proof.
  induction thresholds as [| x rest IH]; intros acc t; cbn.
  - now left.
  - destruct (x >? percent); [now left |].
    intros H. destruct (IH _ _ H) as [[= ->] | Hin]; right; tauto.
Qed.

Lemma matched_threshold_In (thresholds : list Z) (percent t : Z) :
  matched_threshold thresholds percent = Some t -> In t thresholds.
Proof.
  intros H. destruct (match_threshold_In _ _ _ _ H) as [? | ?];
    [discriminate | assumption].
Qed.

(** X3: [send_api_usage_notification] records the mail and the row only
    after the mailer has returned: when it raises, the exception goes up
    and the world is unchanged.  Below 100% the mail goes to the admins
    only, with the plain template; from 100% on it goes to every member,
    with the limit template. *)
Theorem send_records_after_mailer (E : collaborators) (sent_at : datetime)
    (organisation : Organisation) (t : Z) (w : world) :
  exists m,
    mail_organisation_id m = id organisation /\
    mail_threshold m = t /\
    admins_only m = (t <? 100) /\
    message m = (if t <? 100
                 then "organisations/api_usage_notification.txt"%string
                 else "organisations/api_usage_notification_limit.txt"%string)
    /\
    send_api_usage_notification E sent_at organisation t w
    = match send_mail E m with
      | Ok _ =>
          (Ok tt,
           mkWorld (notifications w
                    ++ [mkNotification (id organisation) t sent_at])
                   (billings w) (outbox w ++ [m]) (billing_calls w) (log w))
      | Raise e => (Raise e, w)
      end.
Proof.
  exists (notification_mail organisation t).
  rewrite send_api_usage_notification_run.
  unfold notified_world, notification_mail.
  destruct (t <? 100); repeat split.
Qed.

Section FlowShape.
Variable K : constants.
Variable E : collaborators.

(** What a run of the flow can do to the world. *)
Lemma handle_shape now sent_at organisation w r w' :
  _handle_api_usage_notifications K E now sent_at organisation w
    = (r, w') ->
  billings w' = billings w /\
  billing_calls w' = billing_calls w /\
  ((notifications w' = notifications w /\ outbox w' = outbox w) \/
   (exists t,
      In t (API_USAGE_ALERT_THRESHOLDS K) /\ r = Ok tt /\
      w' = notified_world sent_at organisation t w)).
Proof.
  intros Hrun.
  assert (Hsame : forall x : result unit, (x, w) = (r, w') ->
            billings w' = billings w /\
            billing_calls w' = billing_calls w /\
            ((notifications w' = notifications w /\ outbox w' = outbox w) \/
             (exists t,
                In t (API_USAGE_ALERT_THRESHOLDS K) /\ r = Ok tt /\
                w' = notified_world sent_at organisation t w)))
    by (intros x [= _ <-]; repeat split; now left).
  unfold _handle_api_usage_notifications in Hrun.
  destruct (usage_period now organisation) as [ps days limit | |] eqn:Hp.
  2: { unfold logger in Hrun. injection Hrun as _ <-.
       repeat split; now left. }
  2: { exact (Hsame _ Hrun). }
  unfold bind at 1, lift at 1 in Hrun.
  destruct (get_current_api_usage E (id organisation) (date_range days))
    as [usage | e]; [| exact (Hsame _ Hrun)].
  unfold bind at 1, lift at 1 in Hrun.
  destruct (api_usage_percent usage limit) as [percent | e];
    [| exact (Hsame _ Hrun)].
  destruct (matched_threshold (API_USAGE_ALERT_THRESHOLDS K) percent)
    as [t |] eqn:Hm; [| exact (Hsame _ Hrun)].
  unfold bind at 1, get_notifications in Hrun.
  destruct (already_notified (notifications w) ps t);
    [exact (Hsame _ Hrun) |].
  rewrite send_api_usage_notification_run in Hrun.
  destruct (send_mail E (notification_mail organisation t)) as [[] | e];
    [| exact (Hsame _ Hrun)].
  injection Hrun as <- <-.
  repeat split. right. exists t.
  repeat split. exact (matched_threshold_In _ _ _ Hm).
Qed.

End FlowShape.

(** X4: a run of the notification flow, however it ends, leaves the
    billing table and the recorded billing calls alone, and either leaves
    the notification log and the outbox alone or returns normally having
    appended one row and one mail for this organisation, at one of the
    configured thresholds. *)
Theorem flow_appends_at_most_one (K : constants) (E : collaborators)
    (now sent_at : datetime) (organisation : Organisation) (w : world) :
  let res :=
    _handle_api_usage_notifications K E now sent_at organisation w in
  billings (snd res) = billings w /\
  billing_calls (snd res) = billing_calls w /\
  ((notifications (snd res) = notifications w /\
    outbox (snd res) = outbox w) \/
   (exists t,
      In t (API_USAGE_ALERT_THRESHOLDS K) /\ fst res = Ok tt /\
      snd res = notified_world sent_at organisation t w)).
Proof.
  cbn zeta.
  destruct (_handle_api_usage_notifications K E now sent_at organisation w)
    as [r w'] eqn:Hrun.
  exact (handle_shape K E now sent_at organisation w r w' Hrun).
Qed.

Section LoopShape.
Variable K : constants.
Variable E : collaborators.

Lemma loop_step_flag_raises clock organisation rest w e :
  is_feature_enabled E organisation "api_usage_alerting" = Raise e ->
  handle_api_usage_notifications K E clock (organisation :: rest) w
  = (Raise e, w).
Proof.
  intros Hf. cbn [handle_api_usage_notifications].
  unfold bind at 1, lift at 1. now rewrite Hf.
Qed.

Lemma pass_rows_none clock organisations :
  pass_rows (API_USAGE_ALERT_THRESHOLDS K) clock organisations [] [].
Proof.
  induction organisations as [| o rest IH]; constructor. exact IH.
Qed.

Lemma loop_shape clock organisations :
  forall w r w',
    handle_api_usage_notifications K E clock organisations w = (r, w') ->
    billings w' = billings w /\
    billing_calls w' = billing_calls w /\
    exists added mails,
      notifications w' = notifications w ++ added /\
      outbox w' = outbox w ++ mails /\
      pass_rows (API_USAGE_ALERT_THRESHOLDS K) clock organisations
        added mails.
Proof.
  induction organisations as [| o rest IH]; intros w r w' Hrun.
  - injection Hrun as _ <-. repeat split. exists [], [].
    rewrite !app_nil_r. repeat split. constructor.
  - assert (Hstop : forall x : result unit, (x, w) = (r, w') ->
              billings w' = billings w /\
              billing_calls w' = billing_calls w /\
              exists added mails,
                notifications w' = notifications w ++ added /\
                outbox w' = outbox w ++ mails /\
                pass_rows (API_USAGE_ALERT_THRESHOLDS K) clock (o :: rest)
                  added mails).
    { intros x [= _ <-]. repeat split. exists [], [].
      rewrite !app_nil_r. repeat split. apply pass_rows_none. }
    destruct (is_feature_enabled E o "api_usage_alerting")
      as [[|] | e] eqn:Hf.
    + rewrite (loop_step_enabled K E clock o rest w Hf) in Hrun.
      destruct (_handle_api_usage_notifications K E (fst (clock (id o)))
                  (snd (clock (id o))) o w) as [r1 w1] eqn:Hstep.
      destruct (handle_shape K E _ _ _ _ _ _ Hstep) as (Hb & Hc & Hcase).
      assert (Hcont : forall w2,
                notifications w2 = notifications w1 ->
                billings w2 = billings w1 ->
                outbox w2 = outbox w1 ->
                billing_calls w2 = billing_calls w1 ->
                handle_api_usage_notifications K E clock rest w2 = (r, w') ->
                billings w' = billings w /\
                billing_calls w' = billing_calls w /\
                exists added mails,
                  notifications w' = notifications w ++ added /\
                  outbox w' = outbox w ++ mails /\
                  pass_rows (API_USAGE_ALERT_THRESHOLDS K) clock (o :: rest)
                    added mails).
      { intros w2 Hn2 Hb2 Ho2 Hc2 Hrest.
        destruct (IH _ _ _ Hrest)
          as (Hb' & Hc' & added & mails & Hn & Ho & Hrows).
        split; [congruence |]. split; [congruence |].
        rewrite Hn2 in Hn. rewrite Ho2 in Ho.
        destruct Hcase as [[Hn1 Ho1] | (t & Ht & -> & ->)].
        - exists added, mails.
          split; [congruence |]. split; [congruence |].
          now apply pass_rows_skip.
        - cbn [notified_world notifications outbox] in Hn, Ho.
          exists (mkNotification (id o) t (snd (clock (id o))) :: added),
                 (notification_mail o t :: mails).
          split; [rewrite Hn, <- app_assoc; reflexivity |].
          split; [rewrite Ho, <- app_assoc; reflexivity |].
          now apply pass_rows_sent. }
      destruct r1 as [[] | e].
      * exact (Hcont w1 eq_refl eq_refl eq_refl eq_refl Hrun).
      * destruct (is_RuntimeError e).
        -- exact (Hcont (snd (logger (LogProcessingError (id o)) w1))
                    eq_refl eq_refl eq_refl eq_refl Hrun).
        -- injection Hrun as _ <-.
           split; [exact Hb |]. split; [exact Hc |].
           destruct Hcase as [[Hn1 Ho1] | (t & Ht & [=] & _)].
           exists [], []. rewrite !app_nil_r.
           repeat split; try assumption. apply pass_rows_none.
    + rewrite (loop_step_disabled K E clock o rest w Hf) in Hrun.
      destruct (IH _ _ _ Hrun)
        as (Hb' & Hc' & added & mails & Hn & Ho & Hrows).
      split; [exact Hb' |]. split; [exact Hc' |].
      exists added, mails. repeat split; try assumption.
      now apply pass_rows_skip.
    + rewrite (loop_step_flag_raises clock o rest w e Hf) in Hrun.
      exact (Hstop _ Hrun).
Qed.

(** X9: with the feature disabled for every organisation the loop
    returns with the world unchanged, whatever the other collaborators
    would answer. *)
Lemma loop_all_disabled clock organisations w :
  (forall o, In o organisations ->
     is_feature_enabled E o "api_usage_alerting" = Ok false) ->
  handle_api_usage_notifications K E clock organisations w = (Ok tt, w).
Proof.
  induction organisations as [| o rest IH]; intros Hoff; [reflexivity |].
  rewrite (loop_step_disabled K E clock o rest w (Hoff o (or_introl eq_refl))).
  apply IH. intros o' Hin. apply Hoff. now right.
Qed.

(** X10: a paid organisation without a subscription information cache
    costs the loop one log record: nothing is queried or sent for it, and
    the loop goes on with the remaining organisations. *)
Lemma loop_missing_cache clock organisation rest w :
  is_feature_enabled E organisation "api_usage_alerting" = Ok true ->
  is_free_plan (subscription organisation) = false ->
  subscription_information_cache organisation = None ->
  handle_api_usage_notifications K E clock (organisation :: rest) w =
  handle_api_usage_notifications K E clock rest
    (mkWorld (notifications w) (billings w) (outbox w) (billing_calls w)
             (log w ++ [LogMissingCache (id organisation)])).
Proof.
  intros Hf Hpaid Hc.
  rewrite (loop_step_enabled K E clock organisation rest w Hf).
  unfold _handle_api_usage_notifications, usage_period.
  rewrite Hpaid, Hc. reflexivity.
Qed.

End LoopShape.

(** X8: a pass of the notification loop, however it ends, leaves the
    billing table and the recorded billing calls alone and only appends to
    the notification log and to the outbox.  Going through the table in
    order, each organisation contributes at most one row: a row for that
    organisation, at one of the configured thresholds, stamped with its
    second clock reading, together with the mail for that threshold. *)
Theorem loop_pass_log (K : constants) (E : collaborators)
    (clock : Z -> datetime * datetime) (organisations : list Organisation)
    (w : world) :
  let w' :=
    snd (handle_api_usage_notifications K E clock organisations w) in
  billings w' = billings w /\
  billing_calls w' = billing_calls w /\
  exists added mails,
    notifications w' = notifications w ++ added /\
    outbox w' = outbox w ++ mails /\
    pass_rows (API_USAGE_ALERT_THRESHOLDS K) clock organisations
      added mails.
Proof.
  cbn zeta.
  destruct (handle_api_usage_notifications K E clock organisations w)
    as [r w'] eqn:Hrun.
  exact (loop_shape K E clock organisations w r w' Hrun).
Qed.

(** The rows of a pass are no more than the organisations of the table,
    and there is one mail per row, for the same organisation. *)
Lemma pass_rows_length thresholds clock organisations added mails :
  pass_rows thresholds clock organisations added mails ->
  (List.length added <= List.length organisations)%nat /\
  map organisation_id added = map mail_organisation_id mails /\
  Forall (fun n => In (organisation_id n) (map id organisations) /\
                   In (percent_usage n) thresholds) added.
Proof.
  induction 1 as [| o rest added mails _ IH | o t rest added mails Ht _ IH].
  - split; [reflexivity |]. split; [reflexivity | constructor].
  - destruct IH as (H1 & H2 & H3).
    split; [cbn [List.length]; lia |]. split; [exact H2 |].
    eapply Forall_impl; [| exact H3]. cbn. intros n [Hn1 Hn2].
    split; [now right | exact Hn2].
  - destruct IH as (H1 & H2 & H3).
    split; [cbn [List.length]; lia |].
    split.
    + cbn [map organisation_id]. rewrite H2. f_equal.
      unfold notification_mail. destruct (t <? 100); reflexivity.
    + constructor.
      * cbn. split; [now left | exact Ht].
      * eapply Forall_impl; [| exact H3]. cbn. intros n [Hn1 Hn2].
        split; [now right | exact Hn2].
Qed.

(** X11: when no feature-flag evaluation raises and the per-organisation
    step raises nothing but [RuntimeError], the loop goes through the whole
    table and returns normally. *)
Theorem loop_returns_when_only_RuntimeError (K : constants)
    (E : collaborators) (clock : Z -> datetime * datetime)
    (organisations : list Organisation) (w : world) :
  (forall o, In o organisations ->
     exists b, is_feature_enabled E o "api_usage_alerting" = Ok b) ->
  (forall o w0 e w', In o organisations ->
     _handle_api_usage_notifications K E (fst (clock (id o)))
       (snd (clock (id o))) o w0 = (Raise e, w') ->
     is_RuntimeError e = true) ->
  exists w',
    handle_api_usage_notifications K E clock organisations w = (Ok tt, w').
Proof.
  intros Hflags Hstep.
  exact (loop_completes K E clock organisations Hflags Hstep w).
Qed.

(** X6: rows below the matched threshold, and rows stamped at or before
    the period start, do not close the gate: when every stored row is one
    or the other and the mailer returns, the flow notifies. *)
Theorem lower_or_older_rows_do_not_suppress (K : constants)
    (E : collaborators) (now sent_at : datetime)
    (organisation : Organisation) (w : world) (ps : datetime)
    (days limit usage percent t : Z) :
  usage_period now organisation = Period ps days limit ->
  get_current_api_usage E (id organisation) (date_range days) = Ok usage ->
  api_usage_percent usage limit = Ok percent ->
  matched_threshold (API_USAGE_ALERT_THRESHOLDS K) percent = Some t ->
  send_mail E (notification_mail organisation t) = Ok tt ->
  (forall row, In row (notifications w) ->
     dt_gtb (notified_at row) ps = false \/ percent_usage row < t) ->
  _handle_api_usage_notifications K E now sent_at organisation w
    = (Ok tt, notified_world sent_at organisation t w).
Proof.
  intros Hp Hu Hpc Hm Hmail Hrows.
  rewrite (handle_decided K E now sent_at organisation w ps days limit
             usage percent t Hp Hu Hpc Hm).
  assert (Hgate : already_notified (notifications w) ps t = false).
  { unfold already_notified.
    destruct (existsb _ (notifications w)) eqn:Hex; [| reflexivity].
    apply existsb_exists in Hex. destruct Hex as (row & Hin & Hrow).
    apply andb_true_iff in Hrow. destruct Hrow as [Hafter Hge].
    apply Z.leb_le in Hge.
    destruct (Hrows row Hin) as [Hold | Hlow]; [congruence | lia]. }
  rewrite Hgate, send_api_usage_notification_run, Hmail. reflexivity.
Qed.

(** X7: on a free plan the period starts exactly thirty days before now,
    the window is thirty days and the limit is the plan's own, whatever the
    subscription information cache holds. *)
Theorem free_plan_window (now : datetime) (organisation : Organisation) :
  is_free_plan (subscription organisation) = true ->
  valid now ->
  exists ps,
    usage_period now organisation
      = Period ps 30 (max_api_calls (subscription organisation)) /\
    valid ps /\
    dt_sub now ps = timedelta_days 30.
Proof.
  intros Hfree V. exists (dt_minus now (timedelta_days 30)).
  split; [unfold usage_period; now rewrite Hfree |].
  exact (dt_minus_spec now (timedelta_days 30) V).
Qed.

Section FailedRuns.
Variable K : constants.
Variable E : collaborators.

(** X5: a run of the notification flow that raises leaves the world as it
    found it. *)
Theorem handle_raise_leaves_world now sent_at organisation w e w' :
  _handle_api_usage_notifications K E now sent_at organisation w
    = (Raise e, w') ->
  w' = w.
Proof.
  intros Hrun.
  unfold _handle_api_usage_notifications in Hrun.
  destruct (usage_period now organisation) as [ps days limit | |].
  2: { unfold logger in Hrun. discriminate Hrun. }
  2: { now injection Hrun as _ <-. }
  unfold bind at 1, lift at 1 in Hrun.
  destruct (get_current_api_usage E (id organisation) (date_range days))
    as [usage | e0]; [| now injection Hrun as _ <-].
  unfold bind at 1, lift at 1 in Hrun.
  destruct (api_usage_percent usage limit) as [percent | e0];
    [| now injection Hrun as _ <-].
  destruct (matched_threshold (API_USAGE_ALERT_THRESHOLDS K) percent)
    as [t |]; [| discriminate Hrun].
  unfold bind at 1, get_notifications in Hrun.
  destruct (already_notified (notifications w) ps t);
    [discriminate Hrun |].
  rewrite send_api_usage_notification_run in Hrun.
  destruct (send_mail E (notification_mail organisation t)) as [[] | e0];
    [discriminate Hrun | now injection Hrun as _ <-].
Qed.

End FailedRuns.

Section BillerRuns.
Variable K : constants.
Variable E : collaborators.

(** X15: a run of the biller that raises leaves the world as it found it:
    no row, no recorded call, no log record.  In particular a failing
    billing API leaves no row behind. *)
Theorem charge_raise_leaves_world now organisation w e w' :
  charge_organisation K E now organisation w = (Raise e, w') -> w' = w.
Proof.
  intros Hrun.
  pose proof (charge_organisation_outcome K E now organisation w) as Hout.
  rewrite Hrun in Hout. inversion Hout; reflexivity.
Qed.

(** X13: for a usage count below [2^53] that is less than twice a positive
    allowance nothing is charged, whatever was billed before: the run logs
    and returns. *)
Theorem charge_below_grace now organisation c usage w :
  is_feature_enabled E organisation "api_usage_overage_charges"
    = Ok true ->
  subscription_information_cache organisation = Some c ->
  get_current_api_usage E (id organisation) "30d" = Ok usage ->
  0 <= usage < 2 ^ 53 ->
  0 < allowed_30d_api_calls c ->
  usage < 2 * allowed_30d_api_calls c ->
  charge_organisation K E now organisation w
    = (Ok tt, with_log LogBelowGrace w).
Proof.
  intros Hf Hc Hu Hbound Hpos Hlt.
  unfold charge_organisation, bind, lift. rewrite Hf, Hc, Hu.
  rewrite (below_grace_exact usage (allowed_30d_api_calls c) Hbound Hpos).
  destruct (Z.ltb_spec usage (2 * allowed_30d_api_calls c)); [| lia].
  reflexivity.
Qed.

(** X14: an overage on a plan that is none of the four billable plans is
    logged and not billed. *)
Theorem charge_unsupported_plan now organisation c usage w :
  is_feature_enabled E organisation "api_usage_overage_charges"
    = Ok true ->
  subscription_information_cache organisation = Some c ->
  get_current_api_usage E (id organisation) "30d" = Ok usage ->
  below_grace usage (allowed_30d_api_calls c) = Ok false ->
  0 < computed_overage c usage w ->
  plan (subscription organisation) <> SCALE_UP K ->
  plan (subscription organisation) <> SCALE_UP_V2 K ->
  plan (subscription organisation) <> STARTUP K ->
  plan (subscription organisation) <> STARTUP_V2 K ->
  charge_organisation K E now organisation w
    = (Ok tt,
       with_log (LogUnableToBill (plan (subscription organisation))) w).
Proof.
  intros Hf Hc Hu Hg Hov H1 H2 H3 H4.
  rewrite (charge_organisation_overage K E now organisation c usage w
             Hf Hc Hu Hg Hov).
  assert (Hnone : plan_call K organisation 0 = None)
    by (apply plan_call_none; cbn; tauto).
  now rewrite Hnone.
Qed.

(** X16: a run that changes the billing table made exactly one billing
    call and appended exactly one row for the same amount: the number of
    100000-call units the ceiling of the quotient yields, at least one,
    billed through the API of the organisation's plan family.  For an
    overage below [2^53] it is the least number of units that covers the
    overage. *)
Theorem charge_record now organisation w r w' :
  charge_organisation K E now organisation w = (r, w') ->
  billings w' <> billings w ->
  exists c usage count call,
    subscription_information_cache organisation = Some c /\
    get_current_api_usage E (id organisation) "30d" = Ok usage /\
    ceil_100k (computed_overage c usage w) = Ok count /\
    1 <= count /\
    (computed_overage c usage w < 2 ^ 53 ->
     100000 * (count - 1) < computed_overage c usage w <= 100000 * count) /\
    billings w'
      = billings w
        ++ [mkBilling (id organisation) (100000 * count) false now] /\
    billing_calls w' = billing_calls w ++ [call] /\
    let p := plan (subscription organisation) in
    let sid := subscription_id (subscription organisation) in
    (call = ScaleUpCall sid count /\
     (p = SCALE_UP K \/ p = SCALE_UP_V2 K)) \/
    (call = StartUpCall sid count /\ (p = STARTUP K \/ p = STARTUP_V2 K) /\
     p <> SCALE_UP K /\ p <> SCALE_UP_V2 K).
Proof.
  intros Hrun Hchanged.
  destruct (charge_insert_inv K E _ _ _ _ _ Hrun Hchanged)
    as (c & usage & count & call
        & Hf & Hc & Hu & Hg & Hov & Hceil & Hpc & -> & ->).
  exists c, usage, count, call.
  pose proof (plan_call_kind _ _ _ _ Hpc) as Hkind.
  pose proof (ceil_100k_pos _ _ Hov Hceil) as Hpos.
  repeat split; try assumption.
  - destruct (ceil_100k_exact (computed_overage c usage w) ltac:(lia))
      as (count' & Hceil' & Hb).
    rewrite Hceil in Hceil'. injection Hceil' as <-. lia.
  - destruct (ceil_100k_exact (computed_overage c usage w) ltac:(lia))
      as (count' & Hceil' & Hb).
    rewrite Hceil in Hceil'. injection Hceil' as <-. lia.
Qed.

End BillerRuns.

Lemma dt_sub_split (a b c : datetime) :
  dt_sub a b = dt_sub a c + dt_sub c b.
Proof. unfold dt_sub. lia. Qed.

Lemma overage_organisation_ids_In (now : datetime)
    (rows : list OrganisationAPIUsageNotification) (i : Z) :
  In i (overage_organisation_ids now rows) <->
  exists n, In n rows /\ organisation_id n = i /\ 100 <= percent_usage n /\
            dt_geb (notified_at n) (dt_minus now (timedelta_days 30)) = true.
Proof.
  unfold overage_organisation_ids. rewrite nodup_In, in_map_iff. split.
  - intros (n & Hid & Hin). apply filter_In in Hin.
    destruct Hin as [Hin Hkeep]. apply andb_true_iff in Hkeep.
    destruct Hkeep as [Hat Hpct]. apply Z.leb_le in Hpct.
    exists n. tauto.
  - intros (n & Hin & Hid & Hpct & Hat). exists n.
    split; [exact Hid |]. apply filter_In. split; [exact Hin |].
    rewrite Hat. now apply Z.leb_le.
Qed.

(** The queryset of the biller, in terms of the calendar. *)
Lemma eligible_term_facts (K : constants) (now : datetime)
    (rows : list OrganisationAPIUsageNotification)
    (organisation : Organisation) :
  valid now ->
  (forall c, subscription_information_cache organisation = Some c ->
     valid (current_billing_term_starts_at c) /\
     valid (current_billing_term_ends_at c)) ->
  overage_eligible K now (overage_organisation_ids now rows) organisation
    = true ->
  exists c,
    subscription_information_cache organisation = Some c /\
    plan (subscription organisation) <> FREE_PLAN_ID K /\
    (exists n, In n rows /\ organisation_id n = id organisation /\
               100 <= percent_usage n /\
               dt_geb (notified_at n) (dt_minus now (timedelta_days 30))
                 = true) /\
    0 <= dt_sub (current_billing_term_ends_at c) now <= timedelta_hours 1 /\
    timedelta_days 25
      <= dt_sub (current_billing_term_ends_at c)
                (current_billing_term_starts_at c)
      <= timedelta_days 35 /\
    dt_ltb (current_billing_term_starts_at c) now = true.
Proof.
  intros Vnow Vc Hel. unfold overage_eligible in Hel.
  apply andb_true_iff in Hel. destruct Hel as [Hel Hplan].
  apply andb_true_iff in Hel. destruct Hel as [Hid Hterm].
  destruct (subscription_information_cache organisation) as [c |];
    [| discriminate].
  destruct (Vc c eq_refl) as [Vs Ve].
  repeat (apply andb_true_iff in Hterm; destruct Hterm as [Hterm ?]).
  destruct (dt_add_spec now (timedelta_hours 1) Vnow) as [Vclose Hclose].
  destruct (dt_minus_spec (current_billing_term_ends_at c)
              (timedelta_days 25) Ve) as [V25 H25].
  destruct (dt_minus_spec (current_billing_term_ends_at c)
              (timedelta_days 35) Ve) as [V35 H35].
  unfold dt_geb in *.
  repeat match goal with
         | H : dt_leb _ _ = true |- _ =>
             apply dt_leb_dt_sub in H; [| assumption | assumption]
         end.
  exists c. split; [reflexivity |].
  split.
  { apply negb_true_iff in Hplan. now apply String.eqb_neq in Hplan. }
  split.
  { apply mem_In in Hid. apply overage_organisation_ids_In in Hid.
    destruct Hid as (n & Hin & Hidn & Hpct & Hat). exists n. tauto. }
  assert (Hlt : 0 < dt_sub now (current_billing_term_starts_at c)).
  { unfold dt_sub, timedelta_days, timedelta_hours, usec_per_day,
      usec_per_second in *. lia. }
  split; [| split].
  - unfold dt_sub, timedelta_days, timedelta_hours, usec_per_day,
      usec_per_second in *. lia.
  - unfold dt_sub, timedelta_days, timedelta_hours, usec_per_day,
      usec_per_second in *. lia.
  - now apply dt_ltb_dt_sub.
Qed.

(** X17: what the queryset of the biller lets through: a cached term that
    ends within the next hour and has not ended, that is between 25 and 35
    days long and therefore started before now, on a plan other than the
    free plan, for an organisation notified at 100% or more in the last
    thirty days. *)
Theorem eligible_term_window (K : constants) (now : datetime)
    (rows : list OrganisationAPIUsageNotification)
    (organisation : Organisation) :
  valid now ->
  (forall c, subscription_information_cache organisation = Some c ->
     valid (current_billing_term_starts_at c) /\
     valid (current_billing_term_ends_at c)) ->
  overage_eligible K now (overage_organisation_ids now rows) organisation
    = true ->
  exists c,
    subscription_information_cache organisation = Some c /\
    plan (subscription organisation) <> FREE_PLAN_ID K /\
    (exists n, In n rows /\ organisation_id n = id organisation /\
               100 <= percent_usage n /\
               dt_geb (notified_at n) (dt_minus now (timedelta_days 30))
                 = true) /\
    0 <= dt_sub (current_billing_term_ends_at c) now <= timedelta_hours 1 /\
    timedelta_days 25
      <= dt_sub (current_billing_term_ends_at c)
                (current_billing_term_starts_at c)
      <= timedelta_days 35 /\
    dt_ltb (current_billing_term_starts_at c) now = true.
Proof.
  exact (eligible_term_facts K now rows organisation).
Qed.

Section BillerPass.
Variable K : constants.
Variable E : collaborators.

(** What a pass over [organisations] can add to the ledger. *)
Lemma charge_each_ledger now organisations :
  forall w r w',
    charge_each K E now organisations w = (r, w') ->
    notifications w' = notifications w /\
    outbox w' = outbox w /\
    exists rows calls,
      billings w' = billings w ++ rows /\
      billing_calls w' = billing_calls w ++ calls /\
      List.length rows = List.length calls /\
      Forall (billed_row now organisations) rows.
Proof.
  induction organisations as [| o rest IH]; intros w r w' Hrun.
  - injection Hrun as _ <-. repeat split. exists [], [].
    rewrite !app_nil_r. repeat split. constructor.
  - cbn [charge_each] in Hrun. unfold bind at 1 in Hrun.
    pose proof (charge_organisation_outcome K E now o w) as Hout.
    destruct (charge_organisation K E now o w) as [r1 w1].
    assert (Hweaken : forall rows,
              Forall (billed_row now rest) rows ->
              Forall (billed_row now (o :: rest)) rows).
    { intros rows. apply Forall_impl.
      intros b (H1 & H2 & H3 & o' & Hin & Hid).
      repeat split; try assumption. exists o'. split; [now right | exact Hid]. }
    assert (Hquiet :
              notifications w1 = notifications w ->
              outbox w1 = outbox w -> billings w1 = billings w ->
              billing_calls w1 = billing_calls w ->
              (r1 = Ok tt -> charge_each K E now rest w1 = (r, w')) ->
              (forall e, r1 = Raise e -> (r, w') = (Raise e, w1)) ->
              notifications w' = notifications w /\
              outbox w' = outbox w /\
              exists rows calls,
                billings w' = billings w ++ rows /\
                billing_calls w' = billing_calls w ++ calls /\
                List.length rows = List.length calls /\
                Forall (billed_row now (o :: rest)) rows).
    { intros Hn Ho Hb Hc Hok Hraise. destruct r1 as [[] | e].
      - destruct (IH _ _ _ (Hok eq_refl))
          as (Hn' & Ho' & rows & calls & Hb' & Hc' & Hlen & Hall).
        split; [congruence |]. split; [congruence |].
        exists rows, calls. rewrite Hb', Hc', Hb, Hc.
        repeat split; try assumption. now apply Hweaken.
      - injection (Hraise e eq_refl) as _ ->.
        split; [exact Hn |]. split; [exact Ho |].
        exists [], []. rewrite !app_nil_r.
        repeat split; try assumption. constructor. }
    inversion Hout; subst.
    all: try (apply Hquiet;
              [reflexivity | reflexivity | reflexivity | reflexivity
               | intros Heq; first [discriminate Heq | exact Hrun]
               | intros e0 Heq;
                 first [discriminate Heq
                       | injection Heq as <-; symmetry; exact Hrun]]).
    destruct (IH _ _ _ Hrun)
      as (Hn' & Ho' & rows & calls & Hb' & Hc' & Hlen & Hall).
    cbn [billed_world notifications outbox billings billing_calls] in *.
    split; [exact Hn' |]. split; [exact Ho' |].
    exists (mkBilling (id o) (100000 * count) false now :: rows),
           (call :: calls).
    rewrite Hb', Hc', <- !app_assoc. cbn [app List.length].
    repeat split; try congruence.
    constructor; [| now apply Hweaken].
    repeat split.
    + exists count. split; [| reflexivity].
      match goal with
      | Hp : 0 < computed_overage _ _ _, Hce : ceil_100k _ = Ok count |- _ =>
          exact (ceil_100k_pos _ _ Hp Hce)
      end.
    + exists o. split; [now left | reflexivity].
Qed.

End BillerPass.

Lemma dt_ltb_leb (a b : datetime) : dt_ltb a b = true -> dt_leb a b = true.
Proof.
  rewrite dt_ltb_iff, dt_leb_iff. unfold lex_lt. lia.
Qed.

Lemma sum_nonneg (l : list Z) : Forall (fun x => 0 <= x) l -> 0 <= sum l.
Proof.
  induction 1 as [| x l Hx _ IH]; [reflexivity |].
  change (x :: l) with ([x] ++ l). rewrite sum_app, sum_single. lia.
Qed.

Lemma previous_api_overage_nonneg rows starts_at :
  Forall (fun b => 0 <= api_overage b) rows ->
  0 <= previous_api_overage rows starts_at.
Proof.
  intros Hrows. unfold previous_api_overage, api_billings.
  apply sum_nonneg. apply Forall_map.
  rewrite Forall_forall in *. intros b Hin. apply filter_In in Hin.
  now apply Hrows.
Qed.

Lemma previous_api_overage_grows rows ext starts_at :
  Forall (fun b => 0 <= api_overage b) ext ->
  previous_api_overage rows starts_at
  <= previous_api_overage (rows ++ ext) starts_at.
Proof.
  intros Hext. unfold previous_api_overage, api_billings.
  rewrite filter_app, map_app, sum_app.
  assert (0 <= sum (map api_overage
                      (filter (fun ap => dt_geb (billed_at ap) starts_at)
                              ext))); [| lia].
  apply sum_nonneg. apply Forall_map.
  rewrite Forall_forall in *. intros b Hin. apply filter_In in Hin.
  now apply Hext.
Qed.

Section BillerPasses.
Variable K : constants.
Variable E : collaborators.

Lemma settled_grows organisation rows ext :
  Forall (fun b => 0 <= api_overage b) ext ->
  settled K E organisation rows -> settled K E organisation (rows ++ ext).
Proof.
  intros Hext. unfold settled.
  destruct (is_feature_enabled E organisation "api_usage_overage_charges")
    as [[|] | e]; try tauto.
  intros (c & usage & Hc & Hu & Hcase). exists c, usage.
  split; [exact Hc |]. split; [exact Hu |].
  destruct Hcase as [Hg | (Hg & [Hov | Hplan])]; [now left | |].
  - right. split; [exact Hg |]. left.
    pose proof (previous_api_overage_grows rows ext
                  (current_billing_term_starts_at c) Hext). lia.
  - right. split; [exact Hg |]. now right.
Qed.

(** A run that returns leaves the organisation settled, as long as the
    overage it charges is below [2^53]. *)
Lemma step_settles now organisation w w1 :
  (forall c, subscription_information_cache organisation = Some c ->
     dt_leb (current_billing_term_starts_at c) now = true /\
     0 <= allowed_30d_api_calls c) ->
  (forall usage,
     get_current_api_usage E (id organisation) "30d" = Ok usage ->
     usage < 2 ^ 53) ->
  Forall (fun b => 0 <= api_overage b) (billings w) ->
  charge_organisation K E now organisation w = (Ok tt, w1) ->
  settled K E organisation (billings w1) /\
  exists ext, billings w1 = billings w ++ ext /\
              Forall (fun b => 0 <= api_overage b) ext.
Proof.
  intros Hterm Husage Hrows Hrun.
  pose proof (charge_organisation_outcome K E now organisation w) as Hout.
  rewrite Hrun in Hout.
  assert (Hnil : forall w0, billings w0 = billings w ->
            exists ext, billings w0 = billings w ++ ext /\
                        Forall (fun b => 0 <= api_overage b) ext).
  { intros w0 H0. exists []. rewrite app_nil_r. split; [exact H0 |].
    constructor. }
  inversion Hout; subst; unfold settled;
    match goal with
    | H : is_feature_enabled _ _ _ = _ |- _ => rewrite H
    end.
  - split; [exact I | now apply Hnil].
  - split; [| now apply Hnil]. exists c, usage. tauto.
  - split; [| now apply Hnil]. exists c, usage.
    split; [assumption |]. split; [assumption |]. right.
    split; [assumption |]. left.
    match goal with H : computed_overage _ _ _ <= 0 |- _ => exact H end.
  - split; [| now apply Hnil]. exists c, usage.
    split; [assumption |]. split; [assumption |]. right.
    split; [assumption |]. now right.
  - match goal with
    | Hc : subscription_information_cache _ = Some c,
      Hu : get_current_api_usage _ _ _ = Ok usage,
      Hp : 0 < computed_overage _ _ _,
      Hce : ceil_100k _ = Ok count |- _ =>
        destruct (Hterm c Hc) as [Hstart Hallowed];
        pose proof (Husage usage Hu) as Hlt;
        pose proof (previous_api_overage_nonneg (billings w)
                      (current_billing_term_starts_at c) Hrows) as Hprev;
        assert (Hbound : 0 <= computed_overage c usage w < 2 ^ 53)
          by (unfold computed_overage in *; lia);
        destruct (ceil_100k_exact _ Hbound) as (count' & Hce' & Hb);
        rewrite Hce in Hce'; injection Hce' as <-
    end.
    split.
    + exists c, usage.
      split; [assumption |]. split; [assumption |]. right.
      split; [assumption |]. left.
      cbn [billed_world billings]. rewrite previous_api_overage_app.
      cbn [billed_at api_overage]. unfold dt_geb. rewrite Hstart.
      unfold computed_overage in *. lia.
    + cbn [billed_world billings]. eexists. split; [reflexivity |].
      constructor; [| constructor]. cbn [api_overage]. lia.
Qed.

(** A run for a settled organisation returns and bills nothing. *)
Lemma settled_noop now organisation w :
  settled K E organisation (billings w) ->
  exists w',
    charge_organisation K E now organisation w = (Ok tt, w') /\
    billings w' = billings w /\ billing_calls w' = billing_calls w.
Proof.
  intros Hs.
  pose proof (charge_organisation_outcome K E now organisation w) as Hout.
  destruct (charge_organisation K E now organisation w) as [r w'].
  unfold settled in Hs.
  inversion Hout; subst;
    match goal with
    | H : is_feature_enabled _ _ _ = _ |- _ => rewrite H in Hs
    end;
    try contradiction;
    try (eexists; repeat split; reflexivity);
    destruct Hs as (c' & usage' & Hc' & Hu' & Hcase);
    try congruence;
    assert (c' = c) by congruence; subst c';
    assert (usage' = usage) by congruence; subst usage';
    destruct Hcase as [Hg | (Hg & [Hov | Hplan])];
    try congruence;
    try (unfold computed_overage in *; lia);
    try (eapply plan_call_none_any in Hplan; rewrite Hplan in *;
         discriminate).
Qed.

Lemma first_pass now organisations :
  (forall o c, In o organisations ->
     subscription_information_cache o = Some c ->
     dt_leb (current_billing_term_starts_at c) now = true /\
     0 <= allowed_30d_api_calls c) ->
  (forall o usage, In o organisations ->
     get_current_api_usage E (id o) "30d" = Ok usage -> usage < 2 ^ 53) ->
  forall w w1,
    Forall (fun b => 0 <= api_overage b) (billings w) ->
    charge_each K E now organisations w = (Ok tt, w1) ->
    (exists ext, billings w1 = billings w ++ ext /\
                 Forall (fun b => 0 <= api_overage b) ext) /\
    forall o, In o organisations -> settled K E o (billings w1).
Proof.
  induction organisations as [| o rest IH];
    intros Hterm Husage w w1 Hrows Hrun.
  - injection Hrun as <-. split; [| intros ? []].
    exists []. rewrite app_nil_r. split; [reflexivity | constructor].
  - cbn [charge_each] in Hrun. unfold bind at 1 in Hrun.
    destruct (charge_organisation K E now o w) as [[[] | e] wm] eqn:Hstep;
      [| discriminate].
    destruct (step_settles now o w wm
                (fun c => Hterm o c (or_introl eq_refl))
                (fun usage => Husage o usage (or_introl eq_refl))
                Hrows Hstep)
      as (Hs & ext0 & Hb0 & Hext0).
    assert (Hrows' : Forall (fun b => 0 <= api_overage b) (billings wm)).
    { rewrite Hb0. apply Forall_app. tauto. }
    destruct (IH (fun o' c Hin => Hterm o' c (or_intror Hin))
                 (fun o' usage Hin => Husage o' usage (or_intror Hin))
                 wm w1 Hrows' Hrun)
      as ((ext1 & Hb1 & Hext1) & Hrest).
    split.
    + exists (ext0 ++ ext1). rewrite Hb1, Hb0, app_assoc.
      split; [reflexivity | apply Forall_app; tauto].
    + intros o' [<- | Hin]; [| now apply Hrest].
      rewrite Hb1. now apply settled_grows.
Qed.

Lemma second_pass now organisations :
  forall w,
    (forall o, In o organisations -> settled K E o (billings w)) ->
    exists w2,
      charge_each K E now organisations w = (Ok tt, w2) /\
      billings w2 = billings w /\ billing_calls w2 = billing_calls w.
Proof.
  induction organisations as [| o rest IH]; intros w Hs.
  - exists w. repeat split.
  - destruct (settled_noop now o w (Hs o (or_introl eq_refl)))
      as (wm & Hstep & Hb & Hc).
    destruct (IH wm) as (w2 & Hrest & Hb2 & Hc2).
    { intros o' Hin. rewrite Hb. apply Hs. now right. }
    exists w2. cbn [charge_each]. unfold bind at 1. rewrite Hstep.
    split; [exact Hrest |]. split; congruence.
Qed.

End BillerPasses.

(** X18: every row a pass of the biller adds was written at [now], without
    immediate invoice, for a positive number of 100000-call units, for an
    organisation its queryset let through; one billing call was recorded
    per row, and the notification log and the outbox are untouched, also
    when the pass ends in an exception. *)
Theorem charge_pass_ledger (K : constants) (E : collaborators)
    (now : datetime) (organisations : list Organisation) (w : world) :
  let w' :=
    snd (charge_for_api_call_count_overages K E now organisations w) in
  notifications w' = notifications w /\
  outbox w' = outbox w /\
  exists rows calls,
    billings w' = billings w ++ rows /\
    billing_calls w' = billing_calls w ++ calls /\
    List.length rows = List.length calls /\
    Forall (fun b =>
              billed_at b = now /\ immediate_invoice b = false /\
              (exists k, 1 <= k /\ api_overage b = 100000 * k) /\
              exists o,
                In o organisations /\ billed_organisation_id b = id o /\
                overage_eligible K now
                  (overage_organisation_ids now (notifications w)) o = true)
           rows.
Proof.
  cbn zeta.
  destruct (charge_for_api_call_count_overages K E now organisations w)
    as [r w'] eqn:Hrun. cbn [snd].
  unfold charge_for_api_call_count_overages, bind, get_notifications in Hrun.
  destruct (charge_each_ledger K E now _ _ _ _ Hrun)
    as (Hn & Ho & rows & calls & Hb & Hc & Hlen & Hall).
  split; [exact Hn |]. split; [exact Ho |].
  exists rows, calls. repeat split; try assumption.
  eapply Forall_impl; [| exact Hall].
  intros b (H1 & H2 & H3 & o & Hin & Hid).
  apply filter_In in Hin. repeat split; try assumption.
  exists o. tauto.
Qed.

(** X19: a second pass of the biller over the same tables, after a first
    pass that returned, bills nothing: it returns, and the billing table
    and the recorded calls are those the first pass left.  This holds when
    every usage count the query answers is below [2^53], no allowance is
    negative and no row of the billing table has a negative amount. *)
Theorem charge_pass_idempotent (K : constants) (E : collaborators)
    (now : datetime) (organisations : list Organisation) (w w1 : world) :
  valid now ->
  (forall o c, In o organisations ->
     subscription_information_cache o = Some c ->
     valid (current_billing_term_starts_at c) /\
     valid (current_billing_term_ends_at c) /\
     0 <= allowed_30d_api_calls c) ->
  (forall o usage, In o organisations ->
     get_current_api_usage E (id o) "30d" = Ok usage -> usage < 2 ^ 53) ->
  Forall (fun b => 0 <= api_overage b) (billings w) ->
  charge_for_api_call_count_overages K E now organisations w = (Ok tt, w1) ->
  exists w2,
    charge_for_api_call_count_overages K E now organisations w1
      = (Ok tt, w2) /\
    billings w2 = billings w1 /\
    billing_calls w2 = billing_calls w1.
Proof.
  intros Vnow Vorgs Husage Hrows Hrun.
  unfold charge_for_api_call_count_overages, bind, get_notifications in *.
  destruct (charge_each_ledger K E now _ _ _ _ Hrun) as (Hn & _).
  rewrite Hn.
  set (eligible := filter (overage_eligible K now
                             (overage_organisation_ids now (notifications w)))
                          organisations) in *.
  assert (Hterm : forall o c, In o eligible ->
            subscription_information_cache o = Some c ->
            dt_leb (current_billing_term_starts_at c) now = true /\
            0 <= allowed_30d_api_calls c).
  { intros o c Hin Hc. apply filter_In in Hin. destruct Hin as [Hin Hel].
    destruct (eligible_term_facts K now (notifications w) o Vnow
                (fun c' Hc' =>
                   conj (proj1 (Vorgs o c' Hin Hc'))
                        (proj1 (proj2 (Vorgs o c' Hin Hc')))) Hel)
      as (c' & Hc' & _ & _ & _ & _ & Hlt).
    assert (c' = c) by congruence. subst c'.
    split; [now apply dt_ltb_leb | apply (Vorgs o c Hin Hc)]. }
  assert (Hbound : forall o usage, In o eligible ->
            get_current_api_usage E (id o) "30d" = Ok usage ->
            usage < 2 ^ 53).
  { intros o usage Hin. apply filter_In in Hin. now apply Husage. }
  destruct (first_pass K E now eligible Hterm Hbound w w1 Hrows Hrun)
    as [_ Hsettled].
  exact (second_pass K E now eligible w1 Hsettled).
Qed.

Section RestrictionRuns.
Variable K : constants.
Variable E : collaborators.

(** Every candidate is either skipped, both flags being off, or entered
    with the flags the feature client gave and at least one of them on. *)
Lemma update_organisations_entries candidates :
  forall updated,
    update_organisations E candidates = Ok updated ->
    (forall u, In u updated ->
       exists o s b,
         In o candidates /\ u = restricted_as o s b /\ s || b = true) /\
    (forall o, In o candidates ->
       (is_feature_enabled E o "api_limiting_stop_serving_flags" = Ok false /\
        is_feature_enabled E o "api_limiting_block_access_to_admin"
          = Ok false) \/
       exists u, In u updated /\ id u = id o).
Proof.
  induction candidates as [| o rest IH]; intros updated; cbn.
  - intros [= <-]. split; intros ? [].
  - destruct (is_feature_enabled E o "api_limiting_stop_serving_flags")
      as [s | e] eqn:Hs; [| discriminate].
    destruct (is_feature_enabled E o "api_limiting_block_access_to_admin")
      as [b | e] eqn:Hb; [| discriminate].
    destruct (update_organisations E rest) as [updated' | e];
      [| discriminate].
    destruct (IH updated' eq_refl) as [Hent Hcov].
    destruct (negb s && negb b) eqn:Hskip; intros [= <-].
    + split.
      * intros u Hu. destruct (Hent u Hu) as (o' & s' & b' & Hin & Hrest).
        exists o', s', b'. split; [now right | exact Hrest].
      * intros o' [<- | Hin]; [| now apply Hcov].
        left. destruct s, b; try discriminate. now rewrite Hs, Hb.
    + split.
      * intros u [<- | Hu].
        -- exists o, s, b. split; [now left |]. split; [reflexivity |].
           destruct s, b; try reflexivity. discriminate.
        -- destruct (Hent u Hu) as (o' & s' & b' & Hin & Hrest).
           exists o', s', b'. split; [now right | exact Hrest].
      * intros o' [<- | Hin].
        -- right. eexists. split; [now left | reflexivity].
        -- destruct (Hcov o' Hin) as [Hoff | (u & Hu & Hid)];
             [now left |].
           right. exists u. split; [now right | exact Hid].
Qed.

Lemma update_organisations_all_off candidates :
  (forall o, In o candidates ->
     is_feature_enabled E o "api_limiting_stop_serving_flags" = Ok false /\
     is_feature_enabled E o "api_limiting_block_access_to_admin"
       = Ok false) ->
  update_organisations E candidates = Ok [].
Proof.
  induction candidates as [| o rest IH]; intros Hoff; [reflexivity |].
  cbn. destruct (Hoff o (or_introl eq_refl)) as [-> ->].
  rewrite IH by (intros o' Hin; apply Hoff; now right). reflexivity.
Qed.

Lemma bulk_update_nil organisations :
  bulk_update [] organisations = organisations.
Proof.
  unfold bulk_update. cbn [find]. induction organisations as [| o l IH];
    [reflexivity |]. cbn [map]. now rewrite IH.
Qed.

Lemma bulk_update_In updated organisations o' :
  In o' (bulk_update updated organisations) ->
  (In o' updated /\ exists o, In o organisations /\ id o' = id o) \/
  (In o' organisations /\ forall u, In u updated -> id u <> id o').
Proof.
  unfold bulk_update. rewrite in_map_iff. intros (o & Heq & Hin).
  destruct (find (fun u => id u =? id o) updated) as [u |] eqn:Hfind.
  - subst o'. apply find_some in Hfind. destruct Hfind as [Hu Hid].
    apply Z.eqb_eq in Hid. left. split; [exact Hu |]. now exists o.
  - subst o'. right. split; [exact Hin |]. intros u Hu Hid.
    pose proof (find_none _ _ Hfind u Hu) as Hne. cbn in Hne.
    apply Z.eqb_neq in Hne. contradiction.
Qed.

Lemma bulk_update_ids updated organisations :
  map id (bulk_update updated organisations) = map id organisations.
Proof.
  unfold bulk_update. rewrite map_map. apply map_ext_in. intros o _.
  destruct (find (fun u => id u =? id o) updated) as [u |] eqn:Hfind;
    [| reflexivity].
  apply find_some in Hfind. now apply Z.eqb_eq.
Qed.

End RestrictionRuns.

Section RestrictionTheorems.
Variable K : constants.
Variable E : collaborators.

(** What the apply pass changes. *)
Lemma restrict_pass_changes now_grace now_month rows organisations table :
  restrict_use_due_to_api_limit_grace_period_over K E now_grace now_month
    rows organisations = Ok table ->
  map id table = map id organisations /\
  (forall o', In o' table ->
     In o' organisations \/
     exists o s b,
       In o organisations /\ o' = restricted_as o s b /\ s || b = true /\
       plan (subscription o) = FREE_PLAN_ID K /\
       api_limit_access_block o = false /\
       In (id o) (restrict_organisation_ids K now_grace now_month rows)) /\
  (Forall flags_match_block organisations -> Forall flags_match_block table).
Proof.
  unfold restrict_use_due_to_api_limit_grace_period_over, restrict_selection.
  destruct (update_organisations E _) as [updated | e] eqn:Hupd;
    [| discriminate].
  intros [= <-].
  destruct (update_organisations_entries E _ _ Hupd) as [Hent _].
  assert (Hchanged : forall o', In o' (bulk_update updated organisations) ->
            In o' organisations \/
            exists o s b,
              In o organisations /\ o' = restricted_as o s b /\
              s || b = true /\
              plan (subscription o) = FREE_PLAN_ID K /\
              api_limit_access_block o = false /\
              In (id o)
                 (restrict_organisation_ids K now_grace now_month rows)).
  { intros o' Hin.
    destruct (bulk_update_In _ _ _ Hin) as [[Hu _] | [Ho _]];
      [| now left].
    right. destruct (Hent o' Hu) as (o & s & b & Hcand & -> & Hsb).
    unfold restrict_queryset in Hcand. apply filter_In in Hcand.
    destruct Hcand as [Ho Hkeep].
    repeat (apply andb_true_iff in Hkeep; destruct Hkeep as [Hkeep ?]).
    exists o, s, b. repeat split; try assumption.
    - now apply String.eqb_eq.
    - now apply negb_true_iff.
    - now apply mem_In. }
  split; [apply bulk_update_ids |]. split; [exact Hchanged |].
  intros Hinv. rewrite Forall_forall in *. intros o' Hin.
  destruct (Hchanged o' Hin) as [Ho | (o & s & b & _ & -> & Hsb & _)];
    [now apply Hinv |].
  unfold flags_match_block, restricted_as. cbn. exact Hsb.
Qed.

(** X20: the apply pass keeps the organisation table's ids in place; every
    organisation it changes was on the free plan, without an access block,
    with a notification of 100% or more in the window, and comes out with
    an access block and at least one restriction flag; the agreement of
    flags and block is kept. *)
Theorem restrict_pass_effect now_grace now_month rows organisations table :
  restrict_use_due_to_api_limit_grace_period_over K E now_grace now_month
    rows organisations = Ok table ->
  map id table = map id organisations /\
  (forall o', In o' table ->
     In o' organisations \/
     exists o s b,
       In o organisations /\ o' = restricted_as o s b /\ s || b = true /\
       plan (subscription o) = FREE_PLAN_ID K /\
       api_limit_access_block o = false /\
       In (id o) (restrict_organisation_ids K now_grace now_month rows)) /\
  (Forall flags_match_block organisations -> Forall flags_match_block table).
Proof.
  exact (restrict_pass_changes now_grace now_month rows organisations table).
Qed.

(** X21: when both restriction features are off for every organisation the
    apply pass leaves the table as it is. *)
Theorem restrict_pass_gates_off now_grace now_month rows organisations :
  (forall o, In o organisations ->
     is_feature_enabled E o "api_limiting_stop_serving_flags" = Ok false /\
     is_feature_enabled E o "api_limiting_block_access_to_admin"
       = Ok false) ->
  restrict_use_due_to_api_limit_grace_period_over K E now_grace now_month
    rows organisations = Ok organisations.
Proof.
  intros Hoff.
  unfold restrict_use_due_to_api_limit_grace_period_over, restrict_selection.
  rewrite update_organisations_all_off.
  - now rewrite bulk_update_nil.
  - intros o Hin. apply Hoff. unfold restrict_queryset in Hin.
    now apply filter_In in Hin.
Qed.

(** X22: the apply pass is idempotent: run again on the table it returned,
    with the same clock readings and notification log, it returns that
    table, so no organisation gets a second access block. *)
Theorem restrict_pass_idempotent now_grace now_month rows organisations
    table :
  restrict_use_due_to_api_limit_grace_period_over K E now_grace now_month
    rows organisations = Ok table ->
  restrict_use_due_to_api_limit_grace_period_over K E now_grace now_month
    rows table = Ok table.
Proof.
  unfold restrict_use_due_to_api_limit_grace_period_over, restrict_selection.
  destruct (update_organisations E _) as [updated | e] eqn:Hupd;
    [| discriminate].
  intros [= <-].
  destruct (update_organisations_entries E _ _ Hupd) as [Hent Hcov].
  rewrite update_organisations_all_off.
  - now rewrite bulk_update_nil.
  - intros o Hin. unfold restrict_queryset in Hin. apply filter_In in Hin.
    destruct Hin as [Hin Hkeep].
    destruct (bulk_update_In _ _ _ Hin) as [[Hu _] | [Ho Hfresh]].
    + exfalso. destruct (Hent o Hu) as (o0 & s & b & _ & -> & _).
      cbn in Hkeep. rewrite !andb_false_r in Hkeep.
      repeat (apply andb_true_iff in Hkeep; destruct Hkeep as [Hkeep ?]);
        discriminate.
    + assert (Hcand : In o (restrict_queryset K
                (restrict_organisation_ids K now_grace now_month rows)
                organisations))
        by (unfold restrict_queryset; apply filter_In; tauto).
      destruct (Hcov o Hcand) as [Hoff | (u & Hu & Hid)]; [exact Hoff |].
      exfalso. exact (Hfresh u Hu Hid).
Qed.

End RestrictionTheorems.

Lemma lift_rule_In (now : datetime)
    (rows : list OrganisationAPIUsageNotification)
    (organisations : list Organisation) (o' : Organisation) :
  In o' (unrestrict_after_api_limit_grace_period_is_stale now rows
           organisations) ->
  (exists o, In o organisations /\ o' = lifted o) \/
  (In o' organisations /\
   (api_limit_access_block o' = true ->
    In (id o') (still_restricted_organisation_ids now rows))).
Proof.
  unfold unrestrict_after_api_limit_grace_period_is_stale.
  rewrite in_map_iff. intros (o & Heq & Hin).
  destruct (mem (id o) (map id (matching_organisations now rows
                                  organisations))) eqn:Hmem.
  - left. exists o. split; [exact Hin | now subst].
  - right. subst o'. split; [exact Hin |]. intros Hblock.
    destruct (mem (id o) (still_restricted_organisation_ids now rows))
      eqn:Hstill; [now apply mem_In |].
    exfalso. assert (Hin' : In (id o)
                       (map id (matching_organisations now rows
                                  organisations))).
    { apply in_map. unfold matching_organisations. apply filter_In.
      split; [exact Hin |]. rewrite Hstill. cbn [negb].
      rewrite andb_true_r. apply mem_In. unfold blocked_organisation_ids.
      rewrite nodup_In. apply in_map. apply filter_In. tauto. }
    apply mem_In in Hin'. congruence.
Qed.

(** What the lift pass changes. *)
Lemma unrestrict_pass_changes (now : datetime)
    (rows : list OrganisationAPIUsageNotification)
    (organisations : list Organisation) :
  let table :=
    unrestrict_after_api_limit_grace_period_is_stale now rows organisations in
  map id table = map id organisations /\
  (forall o, In o organisations ->
     In (id o) (still_restricted_organisation_ids now rows) ->
     In o table) /\
  (forall o', In o' table -> api_limit_access_block o' = true ->
     In (id o') (still_restricted_organisation_ids now rows)) /\
  (Forall flags_match_block organisations -> Forall flags_match_block table).
Proof.
  cbn zeta. split; [| split; [| split]].
  - unfold unrestrict_after_api_limit_grace_period_is_stale.
    rewrite map_map. apply map_ext. intros o.
    now destruct (mem (id o) _).
  - intros o Hin Hstill.
    unfold unrestrict_after_api_limit_grace_period_is_stale.
    apply in_map_iff. exists o. split; [| exact Hin].
    destruct (mem (id o) (map id (matching_organisations now rows
                                    organisations))) eqn:Hmem;
      [| reflexivity].
    exfalso. apply mem_In in Hmem. apply in_map_iff in Hmem.
    destruct Hmem as (o0 & Hid & Hin0).
    unfold matching_organisations in Hin0. apply filter_In in Hin0.
    destruct Hin0 as [_ Hkeep]. apply andb_true_iff in Hkeep.
    destruct Hkeep as [_ Hnot]. apply negb_true_iff in Hnot.
    rewrite Hid in Hnot. apply mem_In in Hstill. congruence.
  - intros o' Hin Hblock.
    destruct (lift_rule_In now rows organisations o' Hin)
      as [(o & _ & ->) | [_ H]]; [discriminate Hblock | now apply H].
  - intros Hinv. rewrite Forall_forall in *. intros o' Hin.
    destruct (lift_rule_In now rows organisations o' Hin)
      as [(o & _ & ->) | [Ho _]]; [reflexivity | now apply Hinv].
Qed.

(** X23: the lift pass keeps the organisation table's ids in place, leaves
    every organisation whose id is still breaching as it is, leaves no
    blocked organisation behind that is not still breaching, and keeps the
    agreement of flags and block. *)
Theorem unrestrict_pass_effect (now : datetime)
    (rows : list OrganisationAPIUsageNotification)
    (organisations : list Organisation) :
  let table :=
    unrestrict_after_api_limit_grace_period_is_stale now rows organisations in
  map id table = map id organisations /\
  (forall o, In o organisations ->
     In (id o) (still_restricted_organisation_ids now rows) ->
     In o table) /\
  (forall o', In o' table -> api_limit_access_block o' = true ->
     In (id o') (still_restricted_organisation_ids now rows)) /\
  (Forall flags_match_block organisations -> Forall flags_match_block table).
Proof.
  exact (unrestrict_pass_changes now rows organisations).
Qed.

(** X24: the lift pass is idempotent. *)
Theorem unrestrict_pass_idempotent (now : datetime)
    (rows : list OrganisationAPIUsageNotification)
    (organisations : list Organisation) :
  unrestrict_after_api_limit_grace_period_is_stale now rows
    (unrestrict_after_api_limit_grace_period_is_stale now rows organisations)
  = unrestrict_after_api_limit_grace_period_is_stale now rows organisations.
Proof.
  set (table := unrestrict_after_api_limit_grace_period_is_stale now rows
                  organisations).
  assert (Hnone : matching_organisations now rows table = []).
  { unfold matching_organisations.
    destruct (filter _ table) as [| o1 l] eqn:Hf; [reflexivity |].
    exfalso.
    assert (Hin : In o1 (filter
              (fun o => mem (id o) (blocked_organisation_ids table)
                        && negb (mem (id o)
                                   (still_restricted_organisation_ids now
                                      rows))) table))
      by (rewrite Hf; now left).
    apply filter_In in Hin. destruct Hin as [_ Hkeep].
    apply andb_true_iff in Hkeep. destruct Hkeep as [Hblocked Hnot].
    apply negb_true_iff in Hnot. apply mem_In in Hblocked.
    unfold blocked_organisation_ids in Hblocked.
    rewrite nodup_In, in_map_iff in Hblocked.
    destruct Hblocked as (o2 & Hid & Hin2). apply filter_In in Hin2.
    destruct Hin2 as [Hin2 Hblock].
    destruct (unrestrict_pass_changes now rows organisations)
      as (_ & _ & Hleft & _).
    pose proof (Hleft o2 Hin2 Hblock) as Hstill.
    rewrite Hid in Hstill. apply mem_In in Hstill. congruence. }
  unfold unrestrict_after_api_limit_grace_period_is_stale at 1.
  rewrite Hnone. cbn [map mem existsb].
  rewrite map_id. reflexivity.
Qed.

(** X25: a lift pass right after an apply pass, at the same instant and
    over the same notification log, leaves every organisation the apply
    pass restricted as the apply pass left it. *)
Theorem lift_keeps_fresh_restrictions (K : constants) (E : collaborators)
    (now : datetime) (rows : list OrganisationAPIUsageNotification)
    (organisations table : list Organisation) :
  restrict_use_due_to_api_limit_grace_period_over K E now now rows
    organisations = Ok table ->
  forall o', In o' table -> ~ In o' organisations ->
    api_limit_access_block o' = true /\
    In o' (unrestrict_after_api_limit_grace_period_is_stale now rows table).
Proof.
  intros Hrun o' Hin Hnew.
  destruct (restrict_pass_changes K E now now rows organisations table Hrun)
    as (_ & Hchanged & _).
  destruct (Hchanged o' Hin)
    as [Hold | (o & s & b & _ & -> & _ & _ & _ & Hids)];
    [contradiction |].
  split; [reflexivity |].
  destruct (unrestrict_pass_changes now rows table) as (_ & Hkeep & _).
  apply Hkeep; [exact Hin |]. cbn [restricted_as id].
  now apply (restrict_ids_still_restricted K).
Qed.

Section NotificationPasses.
Variable K : constants.
Variable E : collaborators.
Variable clock : Z -> datetime * datetime.

Lemma already_notified_grows rows ext ps t :
  already_notified rows ps t = true ->
  already_notified (rows ++ ext) ps t = true.
Proof.
  unfold already_notified. rewrite existsb_app. intros ->. reflexivity.
Qed.

Lemma notice_settled_grows o rows ext :
  notice_settled K E clock o rows -> notice_settled K E clock o (rows ++ ext).
Proof.
  unfold notice_settled.
  destruct (is_feature_enabled E o "api_usage_alerting") as [[|] | e];
    try tauto.
  destruct (usage_period (fst (clock (id o))) o) as [ps days limit | |];
    try tauto.
  destruct (get_current_api_usage E (id o) (date_range days))
    as [usage | e]; try tauto.
  destruct (api_usage_percent usage limit) as [percent | e]; try tauto.
  destruct (matched_threshold (API_USAGE_ALERT_THRESHOLDS K) percent)
    as [t |]; try tauto.
  intros [Hgate | Hmail]; [left; now apply already_notified_grows |].
  now right.
Qed.

(** A step the loop survives leaves the organisation settled. *)
Lemma notice_step_settles o w r1 w1 :
  is_feature_enabled E o "api_usage_alerting" = Ok true ->
  (forall ps days limit,
     usage_period (fst (clock (id o))) o = Period ps days limit ->
     dt_ltb ps (snd (clock (id o))) = true) ->
  _handle_api_usage_notifications K E (fst (clock (id o)))
    (snd (clock (id o))) o w = (r1, w1) ->
  match r1 with Ok _ => True | Raise e => is_RuntimeError e = true end ->
  notice_settled K E clock o (notifications w1) /\
  exists ext, notifications w1 = notifications w ++ ext.
Proof.
  intros Hf Hclock Hrun Hr.
  assert (Hnil : forall w0, notifications w0 = notifications w ->
            exists ext, notifications w0 = notifications w ++ ext)
    by (intros w0 H0; exists []; now rewrite app_nil_r).
  unfold notice_settled. rewrite Hf.
  unfold _handle_api_usage_notifications in Hrun.
  destruct (usage_period (fst (clock (id o))) o)
    as [ps days limit | |] eqn:Hp.
  2: { unfold logger in Hrun. injection Hrun as <- <-.
       split; [exact I | now apply Hnil]. }
  2: { unfold raise in Hrun. injection Hrun as <- <-. discriminate Hr. }
  unfold bind at 1, lift at 1 in Hrun.
  destruct (get_current_api_usage E (id o) (date_range days))
    as [usage | e].
  2: { injection Hrun as <- <-. split; [exact Hr | now apply Hnil]. }
  unfold bind at 1, lift at 1 in Hrun.
  destruct (api_usage_percent usage limit) as [percent | e].
  2: { injection Hrun as <- <-. split; [exact Hr | now apply Hnil]. }
  destruct (matched_threshold (API_USAGE_ALERT_THRESHOLDS K) percent)
    as [t |].
  2: { injection Hrun as <- <-. split; [exact I | now apply Hnil]. }
  unfold bind at 1, get_notifications in Hrun.
  destruct (already_notified (notifications w) ps t) eqn:Hgate.
  { injection Hrun as <- <-. split; [now left | now apply Hnil]. }
  rewrite send_api_usage_notification_run in Hrun.
  destruct (send_mail E (notification_mail o t)) as [[] | e] eqn:Hmail.
  - injection Hrun as <- <-. cbn [notified_world notifications].
    split; [| now eexists]. left.
    rewrite already_notified_app. cbn [notified_at percent_usage].
    unfold dt_gtb. rewrite (Hclock ps days limit eq_refl), Z.leb_refl.
    now rewrite orb_true_r.
  - injection Hrun as <- <-. split; [| now apply Hnil].
    right. now exists e.
Qed.

(** The loop passes a settled organisation without a notification. *)
Lemma notice_settled_noop o rest w :
  notice_settled K E clock o (notifications w) ->
  exists w2,
    handle_api_usage_notifications K E clock (o :: rest) w
    = handle_api_usage_notifications K E clock rest w2 /\
    notifications w2 = notifications w /\ outbox w2 = outbox w.
Proof.
  unfold notice_settled.
  destruct (is_feature_enabled E o "api_usage_alerting")
    as [[|] | e] eqn:Hf; [| | contradiction].
  2: { intros _. exists w.
       now rewrite (loop_step_disabled K E clock o rest w Hf). }
  rewrite (loop_step_enabled K E clock o rest w Hf).
  unfold _handle_api_usage_notifications.
  destruct (usage_period (fst (clock (id o))) o)
    as [ps days limit | |]; [| | contradiction].
  2: { intros _. eexists. split; [reflexivity |]. now split. }
  unfold bind at 1, lift at 1.
  destruct (get_current_api_usage E (id o) (date_range days))
    as [usage | e].
  2: { intros ->. eexists. split; [reflexivity |]. now split. }
  unfold bind at 1, lift at 1.
  destruct (api_usage_percent usage limit) as [percent | e].
  2: { intros ->. eexists. split; [reflexivity |]. now split. }
  destruct (matched_threshold (API_USAGE_ALERT_THRESHOLDS K) percent)
    as [t |].
  2: { intros _. eexists. split; [reflexivity |]. now split. }
  unfold bind at 1, get_notifications.
  destruct (already_notified (notifications w) ps t) eqn:Hgate.
  { intros _. eexists. split; [reflexivity |]. now split. }
  intros [Hclosed | (e & Hmail & He)]; [discriminate |].
  rewrite send_api_usage_notification_run, Hmail, He.
  eexists. split; [reflexivity |]. now split.
Qed.

Lemma notice_first_pass organisations :
  (forall o ps days limit, In o organisations ->
     usage_period (fst (clock (id o))) o = Period ps days limit ->
     dt_ltb ps (snd (clock (id o))) = true) ->
  forall w w1,
    handle_api_usage_notifications K E clock organisations w = (Ok tt, w1) ->
    (exists ext, notifications w1 = notifications w ++ ext) /\
    forall o, In o organisations ->
      notice_settled K E clock o (notifications w1).
Proof.
  induction organisations as [| o rest IH]; intros Hclock w w1 Hrun.
  - injection Hrun as <-. split; [| intros ? []].
    exists []. now rewrite app_nil_r.
  - assert (Hclock' : forall o' ps days limit, In o' rest ->
              usage_period (fst (clock (id o'))) o' = Period ps days limit ->
              dt_ltb ps (snd (clock (id o'))) = true)
      by (intros o' ps days limit Hin; apply Hclock; now right).
    assert (Hcont : forall wm,
              notice_settled K E clock o (notifications wm) ->
              (exists ext, notifications wm = notifications w ++ ext) ->
              handle_api_usage_notifications K E clock rest wm
                = (Ok tt, w1) ->
              (exists ext, notifications w1 = notifications w ++ ext) /\
              forall o', In o' (o :: rest) ->
                notice_settled K E clock o' (notifications w1)).
    { intros wm Hs (ext0 & Hn0) Hrest.
      destruct (IH Hclock' wm w1 Hrest) as ((ext1 & Hn1) & Hall).
      split.
      - exists (ext0 ++ ext1). now rewrite Hn1, Hn0, app_assoc.
      - intros o' [<- | Hin]; [| now apply Hall].
        rewrite Hn1. now apply notice_settled_grows. }
    destruct (is_feature_enabled E o "api_usage_alerting")
      as [[|] | e] eqn:Hf.
    + rewrite (loop_step_enabled K E clock o rest w Hf) in Hrun.
      destruct (_handle_api_usage_notifications K E (fst (clock (id o)))
                  (snd (clock (id o))) o w) as [r1 wm] eqn:Hstep.
      assert (Hsurvive : match r1 with
                         | Ok _ => True
                         | Raise e => is_RuntimeError e = true
                         end).
      { destruct r1 as [[] | e]; [exact I |].
        destruct (is_RuntimeError e); [reflexivity | discriminate Hrun]. }
      destruct (notice_step_settles o w r1 wm Hf
                  (fun ps days limit => Hclock o ps days limit
                                          (or_introl eq_refl))
                  Hstep Hsurvive) as [Hs Hext].
      destruct r1 as [[] | e].
      * exact (Hcont wm Hs Hext Hrun).
      * rewrite Hsurvive in Hrun.
        exact (Hcont (snd (logger (LogProcessingError (id o)) wm))
                 Hs Hext Hrun).
    + rewrite (loop_step_disabled K E clock o rest w Hf) in Hrun.
      apply (Hcont w); [| exists []; now rewrite app_nil_r | exact Hrun].
      unfold notice_settled. now rewrite Hf.
    + rewrite (loop_step_flag_raises K E clock o rest w e Hf) in Hrun.
      discriminate Hrun.
Qed.

Lemma notice_second_pass organisations :
  forall w,
    (forall o, In o organisations ->
       notice_settled K E clock o (notifications w)) ->
    exists w2,
      handle_api_usage_notifications K E clock organisations w
        = (Ok tt, w2) /\
      notifications w2 = notifications w /\ outbox w2 = outbox w.
Proof.
  induction organisations as [| o rest IH]; intros w Hs.
  - exists w. repeat split.
  - destruct (notice_settled_noop o rest w (Hs o (or_introl eq_refl)))
      as (wm & Hstep & Hn & Ho).
    destruct (IH wm) as (w2 & Hrest & Hn2 & Ho2).
    { intros o' Hin. rewrite Hn. apply Hs. now right. }
    exists w2. rewrite Hstep. split; [exact Hrest |]. split; congruence.
Qed.

End NotificationPasses.

(** X12: a second pass of the notification loop with the same clock
    readings, after a first pass that returned, returns as well and sends
    and stores nothing, provided each stored row is stamped after the
    period start of its organisation. *)
Theorem notification_pass_idempotent (K : constants) (E : collaborators)
    (clock : Z -> datetime * datetime) (organisations : list Organisation)
    (w w1 : world) :
  (forall o ps days limit, In o organisations ->
     usage_period (fst (clock (id o))) o = Period ps days limit ->
     dt_ltb ps (snd (clock (id o))) = true) ->
  handle_api_usage_notifications K E clock organisations w = (Ok tt, w1) ->
  exists w2,
    handle_api_usage_notifications K E clock organisations w1
      = (Ok tt, w2) /\
    notifications w2 = notifications w1 /\ outbox w2 = outbox w1.
Proof.
  intros Hclock Hrun.
  destruct (notice_first_pass K E clock organisations Hclock w w1 Hrun)
    as [_ Hsettled].
  exact (notice_second_pass K E clock organisations w1 Hsettled).
Qed.

(** ** The further properties on the sample data *)

Lemma handle_raise_leaves_world_witness :
  snd (_handle_api_usage_notifications Samples.ascending (Samples.quiet 950)
         FurtherSample.now FurtherSample.sent_at ZeroLimitSample.free_zero
         Samples.empty_world)
  = Samples.empty_world.
Proof.
  apply (handle_raise_leaves_world Samples.ascending (Samples.quiet 950)
           FurtherSample.now FurtherSample.sent_at ZeroLimitSample.free_zero
           Samples.empty_world ZeroDivisionError).
  reflexivity.
Defined.

Lemma lower_or_older_rows_do_not_suppress_witness :
  _handle_api_usage_notifications Samples.ascending (Samples.quiet 950)
    FurtherSample.now FurtherSample.sent_at IdempotenceSample.organisation
    FurtherSample.lower_and_older
  = (Ok tt,
     notified_world FurtherSample.sent_at IdempotenceSample.organisation 90
       FurtherSample.lower_and_older).
Proof.
  apply (lower_or_older_rows_do_not_suppress Samples.ascending
           (Samples.quiet 950) FurtherSample.now FurtherSample.sent_at
           IdempotenceSample.organisation FurtherSample.lower_and_older
           (mkdatetime 2024 2 19 0) 30 1000 950 95 90).
  - reflexivity.
  - reflexivity.
  - reflexivity.
  - reflexivity.
  - reflexivity.
  - intros row [<- | [<- | []]]; [right; simpl; lia | left; reflexivity].
Defined.

Lemma free_plan_window_witness :
  exists ps,
    usage_period FurtherSample.now IdempotenceSample.organisation
      = Period ps 30
          (max_api_calls (subscription IdempotenceSample.organisation)) /\
    valid ps /\
    dt_sub FurtherSample.now ps = timedelta_days 30.
Proof.
  apply (free_plan_window FurtherSample.now IdempotenceSample.organisation).
  - reflexivity.
  - apply validb_valid. reflexivity.
Defined.

Lemma loop_all_disabled_witness :
  handle_api_usage_notifications Samples.ascending FurtherSample.gates_off
    FurtherSample.clock [LoopSample.zero_limit; LoopSample.over_ninety]
    Samples.empty_world
  = (Ok tt, Samples.empty_world).
Proof.
  apply (loop_all_disabled Samples.ascending FurtherSample.gates_off
           FurtherSample.clock
           [LoopSample.zero_limit; LoopSample.over_ninety]
           Samples.empty_world).
  intros o _. reflexivity.
Defined.

Lemma loop_missing_cache_witness :
  handle_api_usage_notifications Samples.ascending (Samples.quiet 950)
    FurtherSample.clock [FurtherSample.uncached; LoopSample.over_ninety]
    Samples.empty_world
  = handle_api_usage_notifications Samples.ascending (Samples.quiet 950)
      FurtherSample.clock [LoopSample.over_ninety]
      (mkWorld [] [] [] [] [LogMissingCache 7]).
Proof.
  apply (loop_missing_cache Samples.ascending (Samples.quiet 950)
           FurtherSample.clock FurtherSample.uncached
           [LoopSample.over_ninety] Samples.empty_world).
  - reflexivity.
  - reflexivity.
  - reflexivity.
Defined.

Lemma loop_returns_when_only_RuntimeError_witness :
  exists w',
    handle_api_usage_notifications Samples.ascending
      LoopSample.usage_runtime_error FurtherSample.clock
      [LoopSample.zero_limit] Samples.empty_world = (Ok tt, w').
Proof.
  apply (loop_returns_when_only_RuntimeError Samples.ascending
           LoopSample.usage_runtime_error FurtherSample.clock
           [LoopSample.zero_limit] Samples.empty_world).
  - intros o [<- | []]. exists true. reflexivity.
  - intros o w0 e w' [<- | []] H. vm_compute in H.
    injection H as <- _. reflexivity.
Defined.

Lemma notification_pass_idempotent_witness :
  exists w2,
    handle_api_usage_notifications Samples.ascending (Samples.quiet 950)
      FurtherSample.clock [LoopSample.over_ninety]
      (snd FurtherSample.first_notification_pass) = (Ok tt, w2) /\
    notifications w2
      = notifications (snd FurtherSample.first_notification_pass) /\
    outbox w2 = outbox (snd FurtherSample.first_notification_pass).
Proof.
  apply (notification_pass_idempotent Samples.ascending (Samples.quiet 950)
           FurtherSample.clock [LoopSample.over_ninety] Samples.empty_world
           (snd FurtherSample.first_notification_pass)).
  - intros o ps days limit [<- | []] H. vm_compute in H.
    injection H as <- _ _. reflexivity.
  - vm_compute. reflexivity.
Defined.

Lemma charge_below_grace_witness :
  charge_organisation Samples.ascending (Samples.quiet 1900)
    FurtherSample.now BillingSample.organisation Samples.empty_world
  = (Ok tt, with_log LogBelowGrace Samples.empty_world).
Proof.
  apply (charge_below_grace Samples.ascending (Samples.quiet 1900)
           FurtherSample.now BillingSample.organisation BillingSample.cache
           1900 Samples.empty_world).
  - reflexivity.
  - reflexivity.
  - reflexivity.
  - lia.
  - simpl. lia.
  - simpl. lia.
Defined.

Lemma charge_unsupported_plan_witness :
  charge_organisation Samples.ascending (Samples.quiet 2100)
    FurtherSample.now FurtherSample.enterprise Samples.empty_world
  = (Ok tt,
     with_log (LogUnableToBill (plan (subscription FurtherSample.enterprise)))
       Samples.empty_world).
Proof.
  apply (charge_unsupported_plan Samples.ascending (Samples.quiet 2100)
           FurtherSample.now FurtherSample.enterprise BillingSample.cache
           2100 Samples.empty_world).
  - reflexivity.
  - reflexivity.
  - reflexivity.
  - reflexivity.
  - vm_compute. reflexivity.
  - vm_compute. discriminate.
  - vm_compute. discriminate.
  - vm_compute. discriminate.
  - vm_compute. discriminate.
Defined.

Lemma charge_raise_leaves_world_witness :
  snd (charge_organisation Samples.ascending (Samples.quiet 950)
         FurtherSample.now ZeroLimitSample.paid_zero Samples.empty_world)
  = Samples.empty_world.
Proof.
  apply (charge_raise_leaves_world Samples.ascending (Samples.quiet 950)
           FurtherSample.now ZeroLimitSample.paid_zero Samples.empty_world
           ZeroDivisionError).
  reflexivity.
Defined.

Lemma charge_record_witness :
  exists count,
    1 <= count /\
    billings (snd BillingSample.first_run)
      = [mkBilling 1 (100000 * count) false BillingSample.now].
Proof.
  destruct (charge_record Samples.ascending (Samples.quiet 2100)
              BillingSample.now BillingSample.organisation
              Samples.empty_world (fst BillingSample.first_run)
              (snd BillingSample.first_run))
    as (c & usage & count & call & _ & _ & _ & Hcount & _ & Hrows & _).
  - vm_compute. reflexivity.
  - vm_compute. discriminate.
  - exists count. split; [exact Hcount | exact Hrows].
Defined.

Lemma eligible_term_window_witness :
  exists c,
    subscription_information_cache BillingSample.organisation = Some c /\
    plan (subscription BillingSample.organisation)
      <> FREE_PLAN_ID Samples.ascending /\
    (exists n,
       In n (notifications FurtherSample.breached) /\
       organisation_id n = id BillingSample.organisation /\
       100 <= percent_usage n /\
       dt_geb (notified_at n)
              (dt_minus FurtherSample.now (timedelta_days 30)) = true) /\
    0 <= dt_sub (current_billing_term_ends_at c) FurtherSample.now
      <= timedelta_hours 1 /\
    timedelta_days 25
      <= dt_sub (current_billing_term_ends_at c)
                (current_billing_term_starts_at c)
      <= timedelta_days 35 /\
    dt_ltb (current_billing_term_starts_at c) FurtherSample.now = true.
Proof.
  apply (eligible_term_window Samples.ascending FurtherSample.now
           (notifications FurtherSample.breached)
           BillingSample.organisation).
  - apply validb_valid. reflexivity.
  - intros c [= <-]. split; apply validb_valid; reflexivity.
  - reflexivity.
Defined.

Lemma charge_pass_idempotent_witness :
  exists w2,
    charge_for_api_call_count_overages Samples.ascending
      (Samples.quiet 2100) FurtherSample.now [BillingSample.organisation]
      (snd FurtherSample.first_charge_pass) = (Ok tt, w2) /\
    billings w2 = billings (snd FurtherSample.first_charge_pass) /\
    billing_calls w2 = billing_calls (snd FurtherSample.first_charge_pass).
Proof.
  apply (charge_pass_idempotent Samples.ascending (Samples.quiet 2100)
           FurtherSample.now [BillingSample.organisation]
           FurtherSample.breached (snd FurtherSample.first_charge_pass)).
  - apply validb_valid. reflexivity.
  - intros o c [<- | []] [= <-].
    split; [apply validb_valid; reflexivity |].
    split; [apply validb_valid; reflexivity | simpl; lia].
  - intros o usage _ [= <-]. reflexivity.
  - constructor.
  - vm_compute. reflexivity.
Defined.

Lemma restrict_pass_effect_witness :
  map id [RestrictionSample.restricted; RestrictionSample.recovered]
  = map id RestrictionSample.organisations.
Proof.
  apply (restrict_pass_effect Samples.ascending (Samples.quiet 0)
           RestrictionSample.now RestrictionSample.now
           RestrictionSample.rows RestrictionSample.organisations
           [RestrictionSample.restricted; RestrictionSample.recovered]).
  reflexivity.
Defined.

Lemma restrict_pass_gates_off_witness :
  restrict_use_due_to_api_limit_grace_period_over Samples.ascending
    FurtherSample.gates_off RestrictionSample.now RestrictionSample.now
    RestrictionSample.rows RestrictionSample.organisations
  = Ok RestrictionSample.organisations.
Proof.
  apply (restrict_pass_gates_off Samples.ascending FurtherSample.gates_off
           RestrictionSample.now RestrictionSample.now
           RestrictionSample.rows RestrictionSample.organisations).
  intros o _. split; reflexivity.
Defined.

Lemma restrict_pass_idempotent_witness :
  restrict_use_due_to_api_limit_grace_period_over Samples.ascending
    (Samples.quiet 0) RestrictionSample.now RestrictionSample.now
    RestrictionSample.rows
    [RestrictionSample.restricted; RestrictionSample.recovered]
  = Ok [RestrictionSample.restricted; RestrictionSample.recovered].
Proof.
  apply (restrict_pass_idempotent Samples.ascending (Samples.quiet 0)
           RestrictionSample.now RestrictionSample.now
           RestrictionSample.rows RestrictionSample.organisations
           [RestrictionSample.restricted; RestrictionSample.recovered]).
  reflexivity.
Defined.

Lemma lift_keeps_fresh_restrictions_witness :
  api_limit_access_block RestrictionSample.restricted = true /\
  In RestrictionSample.restricted
     (unrestrict_after_api_limit_grace_period_is_stale RestrictionSample.now
        RestrictionSample.rows
        [RestrictionSample.restricted; RestrictionSample.recovered]).
Proof.
  apply (lift_keeps_fresh_restrictions Samples.ascending (Samples.quiet 0)
           RestrictionSample.now RestrictionSample.rows
           RestrictionSample.organisations
           [RestrictionSample.restricted; RestrictionSample.recovered]).
  - reflexivity.
  - simpl. now left.
  - intros [H | [H | []]]; vm_compute in H; discriminate H.
Defined.

(** X28: for counts below [2^53] the three divisions of the module agree
    with exact integer arithmetic: the usage percent is the truncated
    quotient, the grace check compares the usage with twice the allowance,
    and the number of units billed is the least one that covers the
    overage. *)
Theorem divisions_exact_below_2_53 (api_usage allowed overage : Z) :
  0 < allowed ->
  (0 <= 100 * api_usage < 2 ^ 53 ->
   api_usage_percent api_usage allowed
   = Ok (Z.quot (100 * api_usage) allowed)) /\
  (0 <= api_usage < 2 ^ 53 ->
   below_grace api_usage allowed = Ok (api_usage <? 2 * allowed)) /\
  (0 <= overage < 2 ^ 53 ->
   exists count,
     ceil_100k overage = Ok count /\
     overage <= 100000 * count < overage + 100000).
Proof.
  intros Hpos. split; [| split]; intros Hb.
  - now apply api_usage_percent_exact.
  - now apply below_grace_exact.
  - now apply ceil_100k_exact.
Qed.

Lemma divisions_exact_below_2_53_witness :
  (0 <= 100 * 950 < 2 ^ 53 ->
   api_usage_percent 950 1000 = Ok (Z.quot (100 * 950) 1000)) /\
  (0 <= 950 < 2 ^ 53 ->
   below_grace 950 1000 = Ok (950 <? 2 * 1000)) /\
  (0 <= 1100 < 2 ^ 53 ->
   exists count,
     ceil_100k 1100 = Ok count /\ 1100 <= 100000 * count < 1100 + 100000).
Proof.
  apply (divisions_exact_below_2_53 950 1000 1100). lia.
Defined.
